(** * PointCombine: grid merging, 2D binning, cube mapping, table interpolation

    A shallow embedding of [yt/lagos/PointCombine.c] and the properties of
    its four kernels and of the module table it registers.

    Conventions of the embedding.
    - [npy_int64], [int] and the other C integers are [Z]; where the C code
      computes in a fixed width the wrap-around is written with [int64] and
      [int32].
    - [npy_float64] is the primitive binary64 type [float]; arithmetic on it
      is IEEE double arithmetic (an SSE target, no excess precision).  The
      table interpolator, which needs [log10], is stated over the reals
      with exact arithmetic, extended with the infinities and NaN.
    - A C array is a list, read with [l !! i] and written with
      [<[i:=v]> l]; a read or write outside the array is undefined behaviour
      in C and is [None] here, as is every other undefined operation.
    - The arrays handed to one call are distinct buffers; reference counts
      are not part of the state.  Of the release of array handles the
      model keeps whether the variable released was ever assigned. *)

From Stdlib Require Import ZArith List Bool Lia String.
From Stdlib Require Import Floats.PrimFloat Floats.FloatOps Floats.SpecFloat.
From Stdlib Require Import Uint63.
From Stdlib Require Import Reals Lra.
From stdpp Require Import base option list gmap strings.

Local Open Scope Z_scope.

(** ** C integers and loops *)

Definition wrap (w z : Z) : Z := (z + 2 ^ (w - 1)) mod 2 ^ w - 2 ^ (w - 1).
Definition int32 : Z → Z := wrap 32.
Definition int64 : Z → Z := wrap 64.
Definition INT_MAX : Z := 2 ^ 31 - 1.
Definition INT_MIN : Z := - 2 ^ 31.
Definition INT64_MAX : Z := 2 ^ 63 - 1.
Definition INT64_MIN : Z := - 2 ^ 63.

(** The truth value of a C scalar, and the [int] a C condition yields. *)
Definition truthy (z : Z) : bool := negb (z =? 0).
Definition b2z (b : bool) : Z := if b then 1 else 0.

(** [for (i = i0; i < i0 + n; i++) body], with undefined behaviour as
    [None]. *)
Fixpoint for_loop {St : Type} (body : nat → St → option St) (i n : nat)
  (s : St) : option St :=
  match n with
  | O => Some s
  | S n' => s' ← body i s; for_loop body (S i) n' s'
  end.

(** The same loop when the body may [break]. *)
Inductive ctl := Next | Break.

Fixpoint for_break {St : Type} (body : nat → St → option (St * ctl))
  (i n : nat) (s : St) : option St :=
  match n with
  | O => Some s
  | S n' =>
      r ← body i s;
      match r.2 with
      | Break => Some r.1
      | Next => for_break body (S i) n' r.1
      end
  end.

(** [Py_XDECREF(p)] at a [_fail] label: the pointer is tested against
    NULL and, when it is not NULL, a reference is dropped.  The pointers
    released there are automatic variables declared without an
    initialiser; [assigned] tells whether a statement has assigned the
    variable before the jump.  One that was never assigned holds an
    indeterminate value, and using it is undefined. *)
Definition Py_XDECREF (assigned : bool) : option unit :=
  if assigned then Some tt else None.

(** ** Py_CombineGrids: the point merger *)

Module CombineGrids.

(** The ten arrays of a call, and the counter [num_found]. *)
Record state := mkState {
  src_x : list Z;
  src_y : list Z;
  src_mask : list Z;
  src_wgt : list float;
  src_vals : list (list float);
  dst_x : list Z;
  dst_y : list Z;
  dst_mask : list Z;
  dst_wgt : list float;
  dst_vals : list (list float);
  num_found : Z
}.

Definition set_src_x (s : state) (v : list Z) : state :=
  mkState v (src_y s) (src_mask s) (src_wgt s) (src_vals s)
    (dst_x s) (dst_y s) (dst_mask s) (dst_wgt s) (dst_vals s) (num_found s).
Definition set_dst_mask (s : state) (v : list Z) : state :=
  mkState (src_x s) (src_y s) (src_mask s) (src_wgt s) (src_vals s)
    (dst_x s) (dst_y s) v (dst_wgt s) (dst_vals s) (num_found s).
Definition set_dst_wgt (s : state) (v : list float) : state :=
  mkState (src_x s) (src_y s) (src_mask s) (src_wgt s) (src_vals s)
    (dst_x s) (dst_y s) (dst_mask s) v (dst_vals s) (num_found s).
Definition set_dst_vals (s : state) (v : list (list float)) : state :=
  mkState (src_x s) (src_y s) (src_mask s) (src_wgt s) (src_vals s)
    (dst_x s) (dst_y s) (dst_mask s) (dst_wgt s) v (num_found s).
Definition set_num_found (s : state) (v : Z) : state :=
  mkState (src_x s) (src_y s) (src_mask s) (src_wgt s) (src_vals s)
    (dst_x s) (dst_y s) (dst_mask s) (dst_wgt s) (dst_vals s) v.

(** [(src_mask[si] && dst_mask[di]) ||
     ((refinement_factor != 1) && (dst_mask[di]))] *)
Definition mask_rule (refinement_factor ms md : Z) : Z :=
  b2z ((truthy ms && truthy md)
       || (negb (refinement_factor =? 1) && truthy md)).

(** [dst_vals[i][di] += src_vals[i][si]] *)
Definition add_channel (si di i : nat) (s : state) : option state :=
  sv ← src_vals s !! i;
  v ← sv !! si;
  dv ← dst_vals s !! i;
  d ← dv !! di;
  Some (set_dst_vals s (<[i := <[di := (d + v)%float]> dv]> (dst_vals s))).

(** The body of the innermost [if]: lines 197 to 206. *)
Definition on_match (refinement_factor : Z) (NumArrays si di : nat)
  (s : state) : option state :=
  let s := set_num_found s (int32 (num_found s + 1)) in
  wd ← dst_wgt s !! di;
  ws ← src_wgt s !! di;
  let s := set_dst_wgt s (<[di := (wd + ws)%float]> (dst_wgt s)) in
  ms ← src_mask s !! si;
  md ← dst_mask s !! di;
  let s := set_dst_mask s (<[di := mask_rule refinement_factor ms md]> (dst_mask s)) in
  _ ← src_x s !! si;
  let s := set_src_x s (<[si := -1]> (src_x s)) in
  for_loop (add_channel si di) 0 NumArrays s.

(** One turn of the loop over [di]. *)
Definition scan_body (refinement_factor : Z) (NumArrays si : nat)
  (fine_x fine_y : Z) (di : nat) (s : state) : option (state * ctl) :=
  dx ← dst_x s !! di;
  if dx <? 0 then Some (s, Next)
  else if fine_x =? dx then
    dy ← dst_y s !! di;
    if fine_y =? dy then
      s' ← on_match refinement_factor NumArrays si di s;
      Some (s', if refinement_factor =? 1 then Break else Next)
    else Some (s, Next)
  else Some (s, Next).

(** One turn of the loop over [y_off]. *)
Definition offset_body (refinement_factor : Z) (NumArrays dst_len si : nat)
  (init_x init_y : Z) (x_off y_off : nat) (s : state) : option state :=
  let fine_x := int64 (init_x + Z.of_nat x_off) in
  let fine_y := int64 (init_y + Z.of_nat y_off) in
  for_break (scan_body refinement_factor NumArrays si fine_x fine_y)
    0 dst_len s.

(** One turn of the loop over [si]. *)
Definition src_body (refinement_factor : Z) (NumArrays dst_len si : nat)
  (s : state) : option state :=
  x ← src_x s !! si;
  if x <? 0 then Some s
  else
    y ← src_y s !! si;
    let init_x := int64 (refinement_factor * x) in
    let init_y := int64 (refinement_factor * y) in
    for_loop (λ x_off,
        for_loop (offset_body refinement_factor NumArrays dst_len si
                    init_x init_y x_off)
          0 (Z.to_nat refinement_factor))
      0 (Z.to_nat refinement_factor) s.

(** Lines 183 to 212: the merge proper, run once the arguments are
    accepted. *)
Definition kernel (refinement_factor : Z) (NumArrays src_len dst_len : nat)
  (s : state) : option state :=
  for_loop (src_body refinement_factor NumArrays dst_len) 0 src_len
    (set_num_found s 0).

(** What a call hands back to Python: an exception with its message, or
    the integer result. *)
Inductive result := Error (msg : string) | Ok (n : Z).

(** The label [_fail], lines 239 to 255.  The eight array handles are
    released, then [NumArrays] is read and, when it is positive, the
    entries of the tables [grid_src_vals] and [grid_dst_vals] are
    released.  [handles] is the number of handles assigned before the
    jump, in the order of the conversions: [grid_src_x], [grid_src_y],
    [grid_src_mask], [grid_src_wgt], [grid_dst_x], [grid_dst_y],
    [grid_dst_mask], [grid_dst_wgt]; [NumArrays] is the value of that
    variable, or [None] before line 133 assigns it.  The two tables are
    allocated on line 145, after the last check: no jump to [_fail] finds
    them allocated, and reading an entry of theirs is undefined. *)
Definition _fail (handles : nat) (NumArrays : option nat) : option unit :=
  _ ← Py_XDECREF (0 <? handles)%nat;
  _ ← Py_XDECREF (1 <? handles)%nat;
  _ ← Py_XDECREF (3 <? handles)%nat;
  _ ← Py_XDECREF (2 <? handles)%nat;
  _ ← Py_XDECREF (4 <? handles)%nat;
  _ ← Py_XDECREF (5 <? handles)%nat;
  _ ← Py_XDECREF (7 <? handles)%nat;
  _ ← Py_XDECREF (6 <? handles)%nat;
  n ← NumArrays;
  if (0 <? n)%nat then None else Some tt.

(** The entry point: the length checks of lines 76 to 143, each of which
    sets the exception and jumps to [_fail], then the kernel.
    [PyArray_SIZE] of a flat buffer is its length and [PySequence_Length]
    that of the list of channels. *)
Definition Py_CombineGrids (refinement_factor : Z) (s : state)
  : option (state * result) :=
  let src_len := length (src_x s) in
  if negb (length (src_y s) =? src_len)%nat then
    _ ← _fail 2 None;
    Some (s, Error "CombineGrids: src_x and src_y must be the same shape.")
  else if negb (length (src_mask s) =? src_len)%nat then
    _ ← _fail 3 None;
    Some (s, Error "CombineGrids: src_x and src_mask must be the same shape.")
  else if negb (length (src_wgt s) =? src_len)%nat then
    _ ← _fail 4 None;
    Some (s, Error "CombineGrids: src_x and src_wgt must be the same shape.")
  else
  let dst_len := length (dst_x s) in
  if negb (length (dst_y s) =? dst_len)%nat then
    _ ← _fail 6 None;
    Some (s, Error "CombineGrids: dst_x and dst_y must be the same shape.")
  else if negb (length (dst_mask s) =? dst_len)%nat then
    _ ← _fail 7 None;
    Some (s, Error "CombineGrids: dst_x and dst_mask must be the same shape.")
  else if negb (length (dst_wgt s) =? dst_len)%nat then
    _ ← _fail 8 None;
    Some (s, Error "CombineGrids: dst_x and dst_wgt must be the same shape.")
  else
  let NumArrays := length (src_vals s) in
  if (NumArrays <? 1)%nat then
    _ ← _fail 8 (Some NumArrays);
    Some (s, Error "CombineGrids: You have to pass me lists of things.")
  else if negb (length (dst_vals s) =? NumArrays)%nat then
    _ ← _fail 8 (Some NumArrays);
    Some (s, Error "CombineGrids: Sorry, but your lists of values are different lengths.")
  else
    s' ← kernel refinement_factor NumArrays src_len dst_len s;
    Some (s', Ok (num_found s')).

(** *** The matches of a call, stated on the input

    A match event is a source point, a sub-offset and a destination point
    whose coordinates agree; the events are listed in the order of the
    nested scan.  With [refinement_factor = 1] the scan of the destination
    stops at the first hit. *)
Record event := mkEvent {
  ev_si : nat; ev_x_off : nat; ev_y_off : nat; ev_di : nat
}.

Definition is_hit (s : state) (fine_x fine_y : Z) (di : nat) : bool :=
  match dst_x s !! di, dst_y s !! di with
  | Some dx, Some dy => (0 <=? dx) && (fine_x =? dx) && (fine_y =? dy)
  | _, _ => false
  end.

Definition dst_hits (refinement_factor : Z) (s : state) (fine_x fine_y : Z)
  (i n : nat) : list nat :=
  let hits := List.filter (is_hit s fine_x fine_y) (seq i n) in
  if refinement_factor =? 1 then take 1 hits else hits.

Definition offset_events (refinement_factor : Z) (dst_len : nat) (s : state)
  (si : nat) (x y : Z) (x_off y_off : nat) : list event :=
  mkEvent si x_off y_off <$>
    dst_hits refinement_factor s
      (int64 (int64 (refinement_factor * x) + Z.of_nat x_off))
      (int64 (int64 (refinement_factor * y) + Z.of_nat y_off))
      0 dst_len.

Definition src_events (refinement_factor : Z) (dst_len : nat) (s : state)
  (si : nat) : list event :=
  match src_x s !! si, src_y s !! si with
  | Some x, Some y =>
      if x <? 0 then []
      else
        x_off ← seq 0 (Z.to_nat refinement_factor);
        y_off ← seq 0 (Z.to_nat refinement_factor);
        offset_events refinement_factor dst_len s si x y x_off y_off
  | _, _ => []
  end.

Definition match_events (refinement_factor : Z) (s : state) : list event :=
  si ← seq 0 (length (src_x s));
  src_events refinement_factor (length (dst_x s)) s si.

(** The events that land on destination point [j], and those of source
    point [i]. *)
Definition events_at (j : nat) (evs : list event) : list event :=
  List.filter (λ e, (ev_di e =? j)%nat) evs.
Definition events_of (i : nat) (evs : list event) : list event :=
  List.filter (λ e, (ev_si e =? i)%nat) evs.

(** Running a list of match events, one [on_match] after the other. *)
Fixpoint run_events (refinement_factor : Z) (NumArrays : nat)
  (evs : list event) (s : state) : option state :=
  match evs with
  | [] => Some s
  | e :: evs' =>
      s' ← on_match refinement_factor NumArrays (ev_si e) (ev_di e) s;
      run_events refinement_factor NumArrays evs' s'
  end.

(** What the channel loop leaves alone. *)
Definition same_but_vals (s s' : state) : Prop :=
  src_x s' = src_x s ∧ src_y s' = src_y s ∧ src_mask s' = src_mask s ∧
  src_wgt s' = src_wgt s ∧ src_vals s' = src_vals s ∧
  dst_x s' = dst_x s ∧ dst_y s' = dst_y s ∧ dst_mask s' = dst_mask s ∧
  dst_wgt s' = dst_wgt s ∧ num_found s' = num_found s.

(** What a match leaves alone. *)
Definition same_inputs (s s' : state) : Prop :=
  src_y s' = src_y s ∧ src_mask s' = src_mask s ∧ src_wgt s' = src_wgt s ∧
  src_vals s' = src_vals s ∧ dst_x s' = dst_x s ∧ dst_y s' = dst_y s.

(** The source masks that a list of events brings along, in order. *)
Definition source_masks (s : state) (evs : list event) : list Z :=
  omap (λ e, src_mask s !! ev_si e) evs.

(** The point-set invariant of the data model: the parallel arrays of a
    point set, its channels included, have one length, and both sets have
    the same number of channels, at least one. *)
Record well_formed (s : state) : Prop := {
  wf_src_y : length (src_y s) = length (src_x s);
  wf_src_mask : length (src_mask s) = length (src_x s);
  wf_src_wgt : length (src_wgt s) = length (src_x s);
  wf_src_vals : Forall (λ v, length v = length (src_x s)) (src_vals s);
  wf_dst_y : length (dst_y s) = length (dst_x s);
  wf_dst_mask : length (dst_mask s) = length (dst_x s);
  wf_dst_wgt : length (dst_wgt s) = length (dst_x s);
  wf_dst_vals : Forall (λ v, length v = length (dst_x s)) (dst_vals s);
  wf_channels : length (dst_vals s) = length (src_vals s);
  wf_some_channel : (1 ≤ length (src_vals s))%nat
}.

(** The invariant of the scan: the destination coordinates stay readable. *)
Definition dst_readable (dst_len : nat) (s : state) : Prop :=
  (dst_len ≤ length (dst_x s))%nat ∧ (dst_len ≤ length (dst_y s))%nat.

(** The invariant of the outer loop. *)
Definition scan_ready (src_len dst_len : nat) (s : state) : Prop :=
  dst_readable dst_len s ∧
  length (src_x s) = src_len ∧ length (src_y s) = src_len.

(** A well-formed state of given sizes. *)
Definition sized (NumArrays src_len dst_len : nat) (s : state) : Prop :=
  well_formed s ∧ length (src_x s) = src_len ∧ length (dst_x s) = dst_len ∧
  length (src_vals s) = NumArrays.

(** An event whose reads and writes stay inside arrays of these sizes. *)
Definition in_bounds (src_len dst_len : nat) (e : event) : Prop :=
  (ev_si e < src_len)%nat ∧ (ev_di e < dst_len)%nat ∧ (ev_di e < src_len)%nat.

(** No two valid destination points share their coordinates. *)
Definition distinct_destinations (s : state) : Prop :=
  ∀ di dj x y,
    0 ≤ x →
    dst_x s !! di = Some x → dst_y s !! di = Some y →
    dst_x s !! dj = Some x → dst_y s !! dj = Some y →
    di = dj.

(** The weight addend of a match is [src_wgt[di]], read at the index of the
    destination point: every matched destination index has to exist in the
    source arrays for the read to stay inside them. *)
Definition weights_readable (refinement_factor : Z) (s : state) : Prop :=
  Forall (λ e, (ev_di e < length (src_x s))%nat)
    (match_events refinement_factor s).

(** Concrete calls used below. *)

(** A source point at (0,0) and three far away; four destination points,
    one under each sub-offset of the first source point at factor 2. *)
Definition fan_out_input : state :=
  mkState [0; 7; 8; 9] [0; 7; 8; 9] [1; 1; 1; 1]
    [10%float; 20%float; 30%float; 40%float]
    [[100%float; 200%float; 300%float; 400%float]]
    [0; 0; 1; 1] [0; 1; 0; 1] [1; 1; 1; 1]
    [1%float; 2%float; 3%float; 4%float]
    [[0%float; 0%float; 0%float; 0%float]] 0.

(** Two source points, the second of which matches the only destination
    point: the three candidate addends for the weight all differ. *)
Definition weight_input : state :=
  mkState [5; 0] [5; 0] [1; 1] [10%float; 20%float] [[7%float; 8%float]]
    [0] [0] [1] [1%float] [[0%float]] 0.

(** A call whose source [y] array is shorter than its [x] array. *)
Definition short_src_y : state :=
  mkState [0; 1] [0] [1; 1] [10%float; 20%float] [[7%float; 8%float]]
    [0] [0] [1] [1%float] [[0%float]] 0.

(** A call without channels. *)
Definition no_channels : state :=
  mkState [0] [0] [1] [10%float] [] [0] [0] [1] [1%float] [] 0.


(** The values of one source channel that a list of events brings along,
    in order. *)
Definition source_values (sv : list float) (evs : list event) : list float :=
  omap (λ e, sv !! ev_si e) evs.

(** The fine coordinate of a source coordinate [c] under sub-offset
    [off]: lines 187 and 191, in [npy_int64] arithmetic. *)
Definition fine (refinement_factor c : Z) (off : nat) : Z :=
  int64 (int64 (refinement_factor * c) + Z.of_nat off).

(** Source point [i] was switched on before the call and is marked
    consumed after it. *)
Definition consumed (s s' : state) (i : nat) : bool :=
  match src_x s !! i, src_x s' !! i with
  | Some x, Some x' => (0 <=? x) && (x' =? -1)
  | _, _ => false
  end.

(** Two source points on the same coordinates as the only destination
    point. *)
Definition gather_input : state :=
  mkState [3; 3] [4; 4] [1; 1] [10%float; 20%float] [[1.5%float; 2.5%float]]
    [3] [4] [1] [1%float] [[0.25%float]] 0.

(** A consumed source point, a destination point that is switched off, and
    a live pair of each on the same coordinates. *)
Definition switched_off_input : state :=
  mkState [-1; 2] [5; 6] [1; 1] [10%float; 20%float] [[1.5%float; 2.5%float]]
    [-1; 2] [5; 6] [1; 1] [1%float; 2%float] [[0.25%float; 0.5%float]] 0.

(** Two source points and three destination points; the second source
    point meets the destination point of index 2, for which the source
    weight array has no entry. *)
Definition long_dst_input : state :=
  mkState [0; 4] [0; 4] [1; 1] [10%float; 20%float] [[1.5%float; 2.5%float]]
    [0; 9; 4] [0; 9; 4] [1; 1; 1] [1%float; 2%float; 3%float]
    [[0.25%float; 0.5%float; 0.75%float]] 0.

End CombineGrids.

(** ** NumPy arrays

    A [PyArrayObject] after conversion with [NPY_INOUT_ARRAY] or
    [NPY_IN_ARRAY]: its shape and its C-contiguous buffer of elements.
    Offsets are counted in elements. *)

Module NumPy.

Record ndarray (A : Type) := mkArray {
  dimensions : list nat;
  data : list A
}.
Arguments mkArray {A} _ _.
Arguments dimensions {A} _.
Arguments data {A} _.

Definition nd {A} (a : ndarray A) : nat := length (dimensions a).
Definition PyArray_SIZE {A} (a : ndarray A) : nat :=
  foldr Nat.mul 1%nat (dimensions a).

(** The buffer holds as many elements as the shape says. *)
Definition array_ok {A} (a : ndarray A) : Prop :=
  length (data a) = PyArray_SIZE a.

Fixpoint strides (dims : list nat) : list Z :=
  match dims with
  | [] => []
  | _ :: ds => Z.of_nat (foldr Nat.mul 1%nat ds) :: strides ds
  end.

Definition PyArray_GETPTR2 {A} (a : ndarray A) (i j : Z) : option Z :=
  s0 ← strides (dimensions a) !! 0%nat;
  s1 ← strides (dimensions a) !! 1%nat;
  Some (i * s0 + j * s1).

Definition PyArray_GETPTR3 {A} (a : ndarray A) (i j k : Z) : option Z :=
  s0 ← strides (dimensions a) !! 0%nat;
  s1 ← strides (dimensions a) !! 1%nat;
  s2 ← strides (dimensions a) !! 2%nat;
  Some (i * s0 + j * s1 + k * s2).

(** Reading and writing through a pointer into the buffer. *)
Definition load {A} (a : ndarray A) (p : Z) : option A :=
  if p <? 0 then None else data a !! Z.to_nat p.

Definition store {A} (a : ndarray A) (p : Z) (v : A) : option (ndarray A) :=
  if (0 <=? p) && (p <? Z.of_nat (length (data a)))
  then Some (mkArray (dimensions a) (<[Z.to_nat p := v]> (data a)))
  else None.

End NumPy.

(** ** Doubles, long doubles and the bytes of a buffer *)

Module Double.

(** Conversion of an [npy_int64] to [double]. *)
Definition of_int64 (z : Z) : float :=
  if z <? 0 then (- of_uint63 (Uint63.of_Z (- z)))%float
  else of_uint63 (Uint63.of_Z z).

Definition signed (s : bool) (m : positive) : Z :=
  if s then Z.neg m else Z.pos m.

(** The values [floorl] and [ceill] can return: an integer, an infinity or
    a NaN.  The 64-bit significand of [long double] holds every [double]
    and every [npy_intp] exactly. *)
Inductive ldouble := ld_nan | ld_inf (negative : bool) | ld_int (z : Z).

Definition floorl (x : float) : ldouble :=
  match Prim2SF x with
  | S754_nan => ld_nan
  | S754_infinity s => ld_inf s
  | S754_zero _ => ld_int 0
  | S754_finite s m e => ld_int (Z.shiftl (signed s m) e)
  end.

Definition ceill (x : float) : ldouble :=
  match Prim2SF x with
  | S754_nan => ld_nan
  | S754_infinity s => ld_inf s
  | S754_zero _ => ld_int 0
  | S754_finite s m e => ld_int (- Z.shiftl (- signed s m) e)
  end.

(** [a < b] on long doubles; false when either side is a NaN. *)
Definition ld_lt (a b : ldouble) : bool :=
  match a, b with
  | ld_nan, _ | _, ld_nan => false
  | ld_inf true, ld_inf true => false
  | ld_inf true, _ => true
  | _, ld_inf true => false
  | ld_inf false, _ => false
  | _, ld_inf false => true
  | ld_int x, ld_int y => x <? y
  end.

(** The macros of lines 37 and 38. *)
Definition max (A B : ldouble) : ldouble := if ld_lt B A then A else B.
Definition min (A B : ldouble) : ldouble := if ld_lt A B then A else B.

(** Assignment of a long double to an [npy_int64]: undefined unless the
    value is an integer in range. *)
Definition to_int64 (a : ldouble) : option Z :=
  match a with
  | ld_int z => if (INT64_MIN <=? z) && (z <=? INT64_MAX) then Some z else None
  | _ => None
  end.

(** The IEEE binary64 encoding, and the little-endian bytes of a buffer of
    [npy_float64] or [npy_int64] elements. *)
Definition bits (x : float) : Z :=
  match Prim2SF x with
  | S754_zero s => if s then 2 ^ 63 else 0
  | S754_infinity s => (if s then 2 ^ 63 else 0) + 2047 * 2 ^ 52
  | S754_nan => 2047 * 2 ^ 52 + 2 ^ 51
  | S754_finite s m e =>
      (if s then 2 ^ 63 else 0)
      + (if 2 ^ 52 <=? Z.pos m
         then (e + 1075) * 2 ^ 52 + (Z.pos m - 2 ^ 52)
         else Z.pos m)
  end.

Fixpoint le_bytes (n : nat) (z : Z) : list Z :=
  match n with
  | O => []
  | S n' => z mod 256 :: le_bytes n' (z / 256)
  end.

Definition bytes_of_int64s (l : list Z) : list Z :=
  x ← l; le_bytes 8 (x mod 2 ^ 64).
Definition bytes_of_doubles (l : list float) : list Z :=
  x ← l; le_bytes 8 (bits x).

(** A byte read as a (signed) [char]. *)
Definition char_of_byte (b : Z) : Z := if b <? 128 then b else b - 256.

End Double.

(** ** DataCubeGeneric: the cube mapper *)

Module DataCube.
Import NumPy.

(** The arguments of a call.  [g_data] and [c_data] are the buffers the
    combine rule may write. *)
Record args := mkArgs {
  g_le : ndarray float;
  g_dx : ndarray float;
  g_data : ndarray float;
  g_cm : ndarray Z;
  c_le : ndarray float;
  c_re : ndarray float;
  c_dx : ndarray float;
  c_data : ndarray float;
  ll : Z
}.

Definition set_data (a : args) (g c : ndarray float) : args :=
  mkArgs (g_le a) (g_dx a) g (g_cm a) (c_le a) (c_re a) (c_dx a) c (ll a).

(** The two buffers and the counter [total] during the loops. *)
Record state := mkState {
  ag_data : ndarray float;
  ac_data : ndarray float;
  total : Z
}.

(** The combine rules.  Both are called as [func(cubedata, griddata)]:
    the pair is ([*val1], [*val2]) before and after the call. *)
Definition dcRefine (v : float * float) : float * float := (v.2, v.2).
Definition dcReplace (v : float * float) : float * float := (v.1, v.1).

(** [for (i = lo; i < hi; i++)] over [npy_int64] indices with [0 <= lo]. *)
Definition for_range {St : Type} (body : Z → St → option St) (lo hi : Z)
  (s : St) : option St :=
  for_loop (λ i, body (Z.of_nat i)) (Z.to_nat lo) (Z.to_nat (hi - lo)) s.

(** Lines 515 to 518 for one axis: [Some None] is [continue], otherwise
    the bounds [cmin] and [cmax] of the cube indices the source cell [ig]
    covers along the axis. *)
Definition axis_range (a : args) (axis : nat) (ig : Z)
  : option (option (Z * Z)) :=
  ag_le ← data (g_le a) !! axis;
  ag_dx ← data (g_dx a) !! axis;
  ac_le ← data (c_le a) !! axis;
  ac_re ← data (c_re a) !! axis;
  ac_dx ← data (c_dx a) !! axis;
  c_dim ← dimensions (c_data a) !! axis;
  if (ac_re <? ag_le + ag_dx * Double.of_int64 ig)%float then Some None
  else if (ag_le + ag_dx * Double.of_int64 (ig + 1) <? ac_le)%float
  then Some None
  else
    cmin ← Double.to_int64
      (Double.max
         (Double.floorl
            ((ag_le + ag_dx * Double.of_int64 ig - ac_le) / ac_dx)%float)
         (Double.ld_int 0));
    cmax ← Double.to_int64
      (Double.min
         (Double.ceill
            ((ag_le + ag_dx * Double.of_int64 (ig + 1) - ac_le) / ac_dx)%float)
         (Double.ld_int (Z.of_nat c_dim)));
    Some (Some (cmin, cmax)).

(** Lines 534 to 537: one (cube cell, source cell) pair. *)
Definition visit (to_call : float * float → float * float)
  (xg yg zg xc yc zc : Z) (s : state) : option state :=
  val1 ← PyArray_GETPTR3 (ac_data s) xc yc zc;
  val2 ← PyArray_GETPTR3 (ag_data s) xg yg zg;
  v1 ← load (ac_data s) val1;
  v2 ← load (ag_data s) val2;
  let v := to_call (v1, v2) in
  c ← store (ac_data s) val1 v.1;
  g ← store (ag_data s) val2 v.2;
  Some (mkState g c (int64 (total s + 1))).

(** One turn of the loop over [zg]. *)
Definition zg_body (to_call : float * float → float * float) (a : args)
  (xg yg : Z) (cx cy : Z * Z) (zg : Z) (s : state) : option state :=
  p ← PyArray_GETPTR3 (g_cm a) xg yg zg;
  cm ← load (g_cm a) p;
  if (ll a =? 0) && (cm =? 0) then Some s
  else
    rz ← axis_range a 2 zg;
    match rz with
    | None => Some s
    | Some cz =>
        for_range (λ xc,
          for_range (λ yc,
            for_range (λ zc, visit to_call xg yg zg xc yc zc) cz.1 cz.2)
            cy.1 cy.2)
          cx.1 cx.2 s
    end.

(** One turn of the loop over [yg]. *)
Definition yg_body (to_call : float * float → float * float) (a : args)
  (dims : list nat) (xg : Z) (cx : Z * Z) (yg : Z) (s : state)
  : option state :=
  ry ← axis_range a 1 yg;
  match ry with
  | None => Some s
  | Some cy =>
      d2 ← dims !! 2%nat;
      for_range (zg_body to_call a xg yg cx cy) 0 (Z.of_nat d2) s
  end.

(** One turn of the loop over [xg]. *)
Definition xg_body (to_call : float * float → float * float) (a : args)
  (dims : list nat) (xg : Z) (s : state) : option state :=
  rx ← axis_range a 0 xg;
  match rx with
  | None => Some s
  | Some cx =>
      d1 ← dims !! 1%nat;
      for_range (yg_body to_call a dims xg cx) 0 (Z.of_nat d1) s
  end.

(** Lines 509 to 543. *)
Definition kernel (to_call : float * float → float * float) (a : args)
  : option state :=
  let dims := dimensions (g_data a) in
  d0 ← dims !! 0%nat;
  for_range (xg_body to_call a dims) 0 (Z.of_nat d0)
    (mkState (g_data a) (c_data a) 0).

Inductive result := Error (msg : string) | Ok (n : Z).

(** [PyArray_FromAny] with depths 1 and 1 followed by the size test, and
    with depths 3 and 3 followed by the dimension test. *)
Definition three_values {A} (v : ndarray A) : bool :=
  (nd v =? 1)%nat && (PyArray_SIZE v =? 3)%nat.
Definition three_dimensions {A} (v : ndarray A) : bool := (nd v =? 3)%nat.

(** The label [_fail], lines 559 to 568: the eight handles are released
    in the order of their conversions, [g_le], [g_dx], [g_data], [g_cm],
    [c_le], [c_re], [c_dx], [c_data]; [handles] is the number of them
    assigned before the jump. *)
Definition _fail (handles : nat) : option unit :=
  _ ← Py_XDECREF (0 <? handles)%nat;
  _ ← Py_XDECREF (1 <? handles)%nat;
  _ ← Py_XDECREF (2 <? handles)%nat;
  _ ← Py_XDECREF (3 <? handles)%nat;
  _ ← Py_XDECREF (4 <? handles)%nat;
  _ ← Py_XDECREF (5 <? handles)%nat;
  _ ← Py_XDECREF (6 <? handles)%nat;
  Py_XDECREF (7 <? handles)%nat.

(** The entry point: the shape checks of lines 425 to 505, each of which
    sets the exception and jumps to [_fail], then the loops.  The
    arguments come back with the two data buffers as the call left
    them. *)
Definition DataCubeGeneric (a : args)
  (to_call : float * float → float * float) : option (args * result) :=
  if negb (three_values (g_le a)) then
    _ ← _fail 1;
    Some (a, Error "CombineGrids: Three values, one dimension required for g_le.")
  else if negb (three_values (g_dx a)) then
    _ ← _fail 2;
    Some (a, Error "CombineGrids: Three values, one dimension required for g_dx.")
  else if negb (three_dimensions (g_data a)) then
    _ ← _fail 3;
    Some (a, Error "CombineGrids: Three dimensions required for g_data.")
  else if negb (three_dimensions (g_cm a)) then
    _ ← _fail 4;
    Some (a, Error "CombineGrids: Three dimensions required for g_cm.")
  else if negb (three_values (c_le a)) then
    _ ← _fail 5;
    Some (a, Error "CombineGrids: Three values, one dimension required for c_le.")
  else if negb (three_values (c_re a)) then
    _ ← _fail 6;
    Some (a, Error "CombineGrids: Three values, one dimension required for c_re.")
  else if negb (three_values (c_dx a)) then
    _ ← _fail 7;
    Some (a, Error "CombineGrids: Three values, one dimension required for c_dx.")
  else if negb (three_dimensions (c_data a)) then
    _ ← _fail 8;
    Some (a, Error "CombineGrids: Three dimensions required for c_data.")
  else
    s ← kernel to_call a;
    Some (set_data a (ag_data s) (ac_data s), Ok (total s)).

Definition Py_DataCubeRefine (a : args) : option (args * result) :=
  DataCubeGeneric a dcRefine.
Definition Py_DataCubeReplace (a : args) : option (args * result) :=
  DataCubeGeneric a dcReplace.

(** *** Coincident grids

    The shapes of a call on two grids of [d0 x d1 x d2] cells. *)
Definition shaped (a : args) (d0 d1 d2 : nat) : Prop :=
  dimensions (g_data a) = [d0; d1; d2] ∧
  dimensions (c_data a) = [d0; d1; d2] ∧
  dimensions (g_cm a) = [d0; d1; d2] ∧
  array_ok (g_data a) ∧ array_ok (c_data a) ∧ array_ok (g_cm a) ∧
  three_values (g_le a) = true ∧ three_values (g_dx a) = true ∧
  three_values (c_le a) = true ∧ three_values (c_re a) = true ∧
  three_values (c_dx a) = true.

(** Identical left edges, identical cell sizes, equal dimensions, and a
    cube right edge that is the left edge plus the cell size times the
    dimension, on every axis. *)
Definition coincident (a : args) : Prop :=
  data (g_le a) = data (c_le a) ∧
  data (g_dx a) = data (c_dx a) ∧
  dimensions (g_data a) = dimensions (c_data a) ∧
  ∀ axis le dx d,
    data (c_le a) !! axis = Some le → data (c_dx a) !! axis = Some dx →
    dimensions (c_data a) !! axis = Some d →
    data (c_re a) !! axis
    = Some (le + dx * Double.of_int64 (Z.of_nat d))%float.

(** The index arithmetic is exact on the grid: along every axis the cube
    cells computed for source cell [i] are the cell [i] alone. *)
Definition exact (a : args) : Prop :=
  ∀ axis d i,
    dimensions (g_data a) !! axis = Some d → (i < d)%nat →
    axis_range a axis (Z.of_nat i) = Some (Some (Z.of_nat i, Z.of_nat i + 1)).

(** What the loops do to the cell at offset [o] of both buffers when each
    source cell meets the cube cell of its own index only. *)
Definition cell_step (to_call : float * float → float * float) (a : args)
  (o : nat) (s : state) : option state :=
  cm ← data (g_cm a) !! o;
  if (ll a =? 0) && (cm =? 0) then Some s
  else
    v1 ← data (ac_data s) !! o;
    v2 ← data (ag_data s) !! o;
    let v := to_call (v1, v2) in
    Some (mkState
            (mkArray (dimensions (ag_data s)) (<[o := v.2]> (data (ag_data s))))
            (mkArray (dimensions (ac_data s)) (<[o := v.1]> (data (ac_data s))))
            (int64 (total s + 1))).

(** The source cells a call leaves out: not a leaf, and [ll] is 0. *)
Definition skipped (a : args) (o : nat) : bool :=
  match data (g_cm a) !! o with
  | Some cm => (ll a =? 0) && (cm =? 0)
  | None => false
  end.

(** The source cells met by [n] turns of that pass from offset [i] on. *)
Definition touched (a : args) (i n o : nat) : bool :=
  (i <=? o)%nat && (o <? i + n)%nat && negb (skipped a o).

(** The shape of the two buffers, kept by the loops. *)
Definition buffers_shaped (d0 d1 d2 : nat) (s : state) : Prop :=
  dimensions (ag_data s) = [d0; d1; d2] ∧
  dimensions (ac_data s) = [d0; d1; d2] ∧
  length (data (ag_data s)) = (d0 * d1 * d2)%nat ∧
  length (data (ac_data s)) = (d0 * d1 * d2)%nat.

(** Concrete calls used below. *)

Definition vec3 (x y z : float) : ndarray float := mkArray [3%nat] [x; y; z].

(** A grid and a cube of one cell each, over the unit box. *)
Definition unit_cell : args :=
  mkArgs (vec3 0 0 0) (vec3 1 1 1) (mkArray [1; 1; 1]%nat [7%float])
    (mkArray [1; 1; 1]%nat [1])
    (vec3 0 0 0) (vec3 1 1 1) (vec3 1 1 1) (mkArray [1; 1; 1]%nat [3%float])
    0.

(** The same call with a source left edge of two values. *)
Definition short_edge : args :=
  mkArgs (mkArray [2%nat] [0%float; 0%float]) (vec3 1 1 1)
    (mkArray [1; 1; 1]%nat [7%float]) (mkArray [1; 1; 1]%nat [1])
    (vec3 0 0 0) (vec3 1 1 1) (vec3 1 1 1) (mkArray [1; 1; 1]%nat [3%float])
    0.

(** Coincident grids of four cells along x with spacing 0.1, the double
    [0x1.999999999999ap-4]; the right edge 0.4 is [0x1.999999999999ap-2]. *)
Definition tenths : args :=
  mkArgs (vec3 0 0 0) (vec3 0x1.999999999999ap-4 1 1)
    (mkArray [4; 1; 1]%nat [10%float; 20%float; 30%float; 40%float])
    (mkArray [4; 1; 1]%nat [1; 1; 1; 1])
    (vec3 0 0 0) (vec3 0x1.999999999999ap-2 1 1) (vec3 0x1.999999999999ap-4 1 1)
    (mkArray [4; 1; 1]%nat [1%float; 2%float; 3%float; 4%float])
    0.

(** Coincident grids of 2 x 2 x 2 cells with spacing 0.5; one source cell
    is masked out. *)
Definition halves : args :=
  mkArgs (vec3 0 0 0) (vec3 0.5 0.5 0.5)
    (mkArray [2; 2; 2]%nat
       [10%float; 20%float; 30%float; 40%float;
        50%float; 60%float; 70%float; 80%float])
    (mkArray [2; 2; 2]%nat [1; 1; 1; 0; 1; 1; 1; 1])
    (vec3 0 0 0) (vec3 1 1 1) (vec3 0.5 0.5 0.5)
    (mkArray [2; 2; 2]%nat
       [1%float; 2%float; 3%float; 4%float;
        5%float; 6%float; 7%float; 8%float])
    0.

(** *** The pairs of cells a call visits, stated on the arguments

    Which cube cells a source cell is paired with depends on the edges,
    the cell sizes, the shapes and the child mask only, not on the data:
    the pairs are listed here in the order of the six nested loops. *)
Record pair := mkPair {
  p_xg : Z; p_yg : Z; p_zg : Z;
  p_xc : Z; p_yc : Z; p_zc : Z
}.

(** The indices [for_range] runs over. *)
Definition range (lo hi : Z) : list Z :=
  Z.of_nat <$> seq (Z.to_nat lo) (Z.to_nat (hi - lo)).

(** The lists of [n] consecutive turns from [i] on, one after the other;
    undefined as soon as one of them is. *)
Fixpoint collect {A : Type} (f : nat → option (list A)) (i n : nat)
  : option (list A) :=
  match n with
  | O => Some []
  | S n' => l ← f i; l' ← collect f (S i) n'; Some (l ++ l')
  end.

Definition collect_range {A : Type} (f : Z → option (list A)) (lo hi : Z)
  : option (list A) :=
  collect (λ i, f (Z.of_nat i)) (Z.to_nat lo) (Z.to_nat (hi - lo)).

(** The cube cells of lines 531 to 533 for one source cell. *)
Definition cube_cells (xg yg zg : Z) (cx cy cz : Z * Z) : list pair :=
  xc ← range cx.1 cx.2;
  yc ← range cy.1 cy.2;
  zc ← range cz.1 cz.2;
  [mkPair xg yg zg xc yc zc].

Definition zg_pairs (a : args) (xg yg : Z) (cx cy : Z * Z) (zg : Z)
  : option (list pair) :=
  p ← PyArray_GETPTR3 (g_cm a) xg yg zg;
  cm ← load (g_cm a) p;
  if (ll a =? 0) && (cm =? 0) then Some []
  else
    rz ← axis_range a 2 zg;
    match rz with
    | None => Some []
    | Some cz => Some (cube_cells xg yg zg cx cy cz)
    end.

Definition yg_pairs (a : args) (dims : list nat) (xg : Z) (cx : Z * Z)
  (yg : Z) : option (list pair) :=
  ry ← axis_range a 1 yg;
  match ry with
  | None => Some []
  | Some cy =>
      d2 ← dims !! 2%nat;
      collect_range (zg_pairs a xg yg cx cy) 0 (Z.of_nat d2)
  end.

Definition xg_pairs (a : args) (dims : list nat) (xg : Z)
  : option (list pair) :=
  rx ← axis_range a 0 xg;
  match rx with
  | None => Some []
  | Some cx =>
      d1 ← dims !! 1%nat;
      collect_range (yg_pairs a dims xg cx) 0 (Z.of_nat d1)
  end.

Definition pairs (a : args) : option (list pair) :=
  let dims := dimensions (g_data a) in
  d0 ← dims !! 0%nat;
  collect_range (xg_pairs a dims) 0 (Z.of_nat d0).

(** Visiting a list of pairs, one after the other. *)
Definition visit_pair (to_call : float * float → float * float) (p : pair)
  : state → option state :=
  visit to_call (p_xg p) (p_yg p) (p_zg p) (p_xc p) (p_yc p) (p_zc p).

Fixpoint run_pairs (to_call : float * float → float * float)
  (ps : list pair) (s : state) : option state :=
  match ps with
  | [] => Some s
  | p :: ps' => s' ← visit_pair to_call p s; run_pairs to_call ps' s'
  end.

(** The offsets of the two cells of a pair in the buffers of a call. *)
Definition grid_offset (a : args) (p : pair) : option Z :=
  PyArray_GETPTR3 (g_data a) (p_xg p) (p_yg p) (p_zg p).
Definition cube_offset (a : args) (p : pair) : option Z :=
  PyArray_GETPTR3 (c_data a) (p_xc p) (p_yc p) (p_zc p).

(** An index triple inside an array of three dimensions. *)
Definition index_ok (dims : list nat) (x y z : Z) : Prop :=
  ∃ d0 d1 d2, dims = [d0; d1; d2] ∧
    0 ≤ x < Z.of_nat d0 ∧ 0 ≤ y < Z.of_nat d1 ∧ 0 ≤ z < Z.of_nat d2.

(** What holds of every pair a call visits: both cells exist and the
    source cell is not left out by the child mask. *)
Definition visited (a : args) (p : pair) : Prop :=
  index_ok (dimensions (g_data a)) (p_xg p) (p_yg p) (p_zg p) ∧
  index_ok (dimensions (c_data a)) (p_xc p) (p_yc p) (p_zc p) ∧
  ∃ o cm, PyArray_GETPTR3 (g_cm a) (p_xg p) (p_yg p) (p_zg p) = Some o ∧
    load (g_cm a) o = Some cm ∧ (ll a =? 0) && (cm =? 0) = false.

(** The shapes of a call the checks accept whose data buffers are as
    large as their shapes say and whose child mask has the shape of the
    source data.  The source grid and the cube may differ in shape. *)
Definition well_shaped (a : args) : Prop :=
  nd (g_data a) = 3%nat ∧ nd (c_data a) = 3%nat ∧
  dimensions (g_cm a) = dimensions (g_data a) ∧
  array_ok (g_data a) ∧ array_ok (c_data a) ∧
  three_values (g_le a) = true ∧ three_values (g_dx a) = true ∧
  three_values (c_le a) = true ∧ three_values (c_re a) = true ∧
  three_values (c_dx a) = true.

(** The buffers of a state have the shapes and sizes of those of the
    call. *)
Definition framed (a : args) (s : state) : Prop :=
  dimensions (ag_data s) = dimensions (g_data a) ∧
  length (data (ag_data s)) = length (data (g_data a)) ∧
  dimensions (ac_data s) = dimensions (c_data a) ∧
  length (data (ac_data s)) = length (data (c_data a)).

(** Two states whose buffers have the same shapes and sizes and whose
    counters agree. *)
Definition same_frame (s t : state) : Prop :=
  dimensions (ag_data t) = dimensions (ag_data s) ∧
  length (data (ag_data t)) = length (data (ag_data s)) ∧
  dimensions (ac_data t) = dimensions (ac_data s) ∧
  length (data (ac_data t)) = length (data (ac_data s)) ∧
  total t = total s.

(** Two states of a refine run with the same source buffer and counter,
    whose cube buffers have one shape and agree cell by cell, except where
    the second already holds the value of [final]. *)
Definition cube_settled (final : list float) (s t : state) : Prop :=
  ag_data t = ag_data s ∧ total t = total s ∧
  dimensions (ac_data t) = dimensions (ac_data s) ∧
  length (data (ac_data t)) = length (data (ac_data s)) ∧
  ∀ o, data (ac_data t) !! o = data (ac_data s) !! o ∨
       data (ac_data t) !! o = final !! o.

(** The same for the source buffers of a replace run. *)
Definition grid_settled (final : list float) (s t : state) : Prop :=
  ac_data t = ac_data s ∧ total t = total s ∧
  dimensions (ag_data t) = dimensions (ag_data s) ∧
  length (data (ag_data t)) = length (data (ag_data s)) ∧
  ∀ o, data (ag_data t) !! o = data (ag_data s) !! o ∨
       data (ag_data t) !! o = final !! o.

(** A source grid of two cells along x over a cube of one cell: both
    source cells are paired with the cube cell. *)
Definition two_on_one : args :=
  mkArgs (vec3 0 0 0) (vec3 0.5 1 1)
    (mkArray [2; 1; 1]%nat [10%float; 20%float])
    (mkArray [2; 1; 1]%nat [1; 1])
    (vec3 0 0 0) (vec3 1 1 1) (vec3 1 1 1)
    (mkArray [1; 1; 1]%nat [3%float])
    0.

End DataCube.

(** ** Py_Bin2DProfile: the histogram accumulator *)

Module Bin2DProfile.
Import NumPy.

Record args := mkArgs {
  bins_x : ndarray Z;
  bins_y : ndarray Z;
  wsource : ndarray float;
  bsource : ndarray float;
  wresult : ndarray float;
  bresult : ndarray float;
  used : ndarray float
}.

(** The three accumulators during the loop. *)
Record state := mkState {
  a_wresult : ndarray float;
  a_bresult : ndarray float;
  a_used : ndarray float
}.

(** [arr->data[n]].  The field [data] of a [PyArrayObject] is declared
    [char *] in [numpy/ndarrayobject.h], so the expression is the byte at
    offset [n] of the buffer, read as a [char] (signed, on a little-endian
    target), whatever the element type of the array. *)
Definition data_char (bytes : list Z) (n : nat) : option Z :=
  Double.char_of_byte <$> bytes !! n.

(** [*(npy_float64* )PyArray_GETPTR2(arr, i, j) = f(old value)] *)
Definition update2 (arr : ndarray float) (i j : Z) (f : float → float)
  : option (ndarray float) :=
  p ← PyArray_GETPTR2 arr i j;
  v ← load arr p;
  store arr p (f v).

(** Lines 353 to 359: one sample. *)
Definition bin_body (a : args) (n : nat) (s : state) : option state :=
  i ← data_char (Double.bytes_of_int64s (data (bins_x a))) n;
  j ← data_char (Double.bytes_of_int64s (data (bins_y a))) n;
  w ← data_char (Double.bytes_of_doubles (data (wsource a))) n;
  b ← data_char (Double.bytes_of_doubles (data (bsource a))) n;
  wr ← update2 (a_wresult s) i j (λ v, v + Double.of_int64 w)%float;
  br ← update2 (a_bresult s) i j (λ v, v + Double.of_int64 (int32 (w * b)))%float;
  us ← update2 (a_used s) i j (λ _, 1%float);
  Some (mkState wr br us).

Definition kernel (a : args) : option state :=
  n ← dimensions (bins_x a) !! 0%nat;
  for_loop (bin_body a) 0 n (mkState (wresult a) (bresult a) (used a)).

Inductive result := Error (msg : string) | Ok (n : Z).

Definition set_results (a : args) (s : state) : args :=
  mkArgs (bins_x a) (bins_y a) (wsource a) (bsource a)
    (a_wresult s) (a_bresult s) (a_used s).

(** The label [_fail], lines 373 to 381: the seven handles are released
    in the order of their conversions, [bins_x], [bins_y], [wsource],
    [bsource], [wresult], [bresult], [used]; [handles] is the number of
    them assigned before the jump. *)
Definition _fail (handles : nat) : option unit :=
  _ ← Py_XDECREF (0 <? handles)%nat;
  _ ← Py_XDECREF (1 <? handles)%nat;
  _ ← Py_XDECREF (2 <? handles)%nat;
  _ ← Py_XDECREF (3 <? handles)%nat;
  _ ← Py_XDECREF (4 <? handles)%nat;
  _ ← Py_XDECREF (5 <? handles)%nat;
  Py_XDECREF (6 <? handles)%nat.

(** The entry point: the shape checks of lines 284 to 347, each of which
    sets the exception and jumps to [_fail], then the loop and the
    constant result 1.  A conversion with the wrong number of dimensions
    yields NULL. *)
Definition Py_Bin2DProfile (a : args) : option (args * result) :=
  if negb (nd (bins_x a) =? 1)%nat then
    _ ← _fail 1;
    Some (a, Error "Bin2DProfile: One dimension required for bins_x.")
  else if negb (nd (bins_y a) =? 1)%nat
          || negb (PyArray_SIZE (bins_x a) =? PyArray_SIZE (bins_y a))%nat then
    _ ← _fail 2;
    Some (a, Error "Bin2DProfile: One dimension required for bins_y, same size as bins_x.")
  else if negb (nd (wsource a) =? 1)%nat
          || negb (PyArray_SIZE (bins_x a) =? PyArray_SIZE (wsource a))%nat then
    _ ← _fail 3;
    Some (a, Error "Bin2DProfile: One dimension required for wsource, same size as bins_x.")
  else if negb (nd (bsource a) =? 1)%nat
          || negb (PyArray_SIZE (bins_x a) =? PyArray_SIZE (bsource a))%nat then
    _ ← _fail 4;
    Some (a, Error "Bin2DProfile: One dimension required for bsource, same size as bins_x.")
  else if negb (nd (wresult a) =? 2)%nat then
    _ ← _fail 5;
    Some (a, Error "Bin2DProfile: Two dimensions required for wresult.")
  else if negb (nd (bresult a) =? 2)%nat
          || negb (PyArray_SIZE (wresult a) =? PyArray_SIZE (bresult a))%nat
          || negb (bool_decide (dimensions (bresult a) !! 0%nat
                                = dimensions (wresult a) !! 0%nat)) then
    _ ← _fail 6;
    Some (a, Error "Bin2DProfile: Two dimensions required for bresult, same shape as wresult.")
  else if negb (nd (used a) =? 2)%nat
          || negb (PyArray_SIZE (used a) =? PyArray_SIZE (wresult a))%nat
          || negb (bool_decide (dimensions (used a) !! 0%nat
                                = dimensions (wresult a) !! 0%nat)) then
    _ ← _fail 7;
    Some (a, Error "Bin2DProfile: Two dimensions required for used, same shape as wresult.")
  else
    s ← kernel a;
    Some (set_results a s, Ok 1).

(** *** The update the specification describes

    For every sample [k]: add [weight[k]] to the weight sum at
    ([bin_row[k]], [bin_col[k]]), add [weight[k] * value[k]] to the
    weighted value sum there and set the touched flag there to 1. *)
Definition described_body (a : args) (k : nat) (s : state) : option state :=
  i ← data (bins_x a) !! k;
  j ← data (bins_y a) !! k;
  w ← data (wsource a) !! k;
  b ← data (bsource a) !! k;
  wr ← update2 (a_wresult s) i j (λ v, v + w)%float;
  br ← update2 (a_bresult s) i j (λ v, v + w * b)%float;
  us ← update2 (a_used s) i j (λ _, 1%float);
  Some (mkState wr br us).

Definition described (a : args) : option state :=
  n ← dimensions (bins_x a) !! 0%nat;
  for_loop (described_body a) 0 n (mkState (wresult a) (bresult a) (used a)).

(** Two samples, in bins (0,0) and (1,1), of weight 1 and values 2 and 3,
    onto 2 x 2 accumulators of zeros. *)
Definition zeros22 : ndarray float :=
  mkArray [2; 2]%nat [0%float; 0%float; 0%float; 0%float].

Definition two_samples : args :=
  mkArgs (mkArray [2%nat] [0; 1]) (mkArray [2%nat] [0; 1])
    (mkArray [2%nat] [1%float; 1%float]) (mkArray [2%nat] [2%float; 3%float])
    zeros22 zeros22 zeros22.

(** The same call with a single column index. *)
Definition short_bins_y : args :=
  mkArgs (mkArray [2%nat] [0; 1]) (mkArray [1%nat] [0])
    (mkArray [2%nat] [1%float; 1%float]) (mkArray [2%nat] [2%float; 3%float])
    zeros22 zeros22 zeros22.

(** The calls the shape checks accept. *)
Definition accepted (a : args) : Prop :=
  nd (bins_x a) = 1%nat ∧
  nd (bins_y a) = 1%nat ∧ PyArray_SIZE (bins_y a) = PyArray_SIZE (bins_x a) ∧
  nd (wsource a) = 1%nat ∧ PyArray_SIZE (wsource a) = PyArray_SIZE (bins_x a) ∧
  nd (bsource a) = 1%nat ∧ PyArray_SIZE (bsource a) = PyArray_SIZE (bins_x a) ∧
  nd (wresult a) = 2%nat ∧
  nd (bresult a) = 2%nat ∧ PyArray_SIZE (bresult a) = PyArray_SIZE (wresult a) ∧
  dimensions (bresult a) !! 0%nat = dimensions (wresult a) !! 0%nat ∧
  nd (used a) = 2%nat ∧ PyArray_SIZE (used a) = PyArray_SIZE (wresult a) ∧
  dimensions (used a) !! 0%nat = dimensions (wresult a) !! 0%nat.

(** Two arrays of one shape whose elements of index [k] agree as long as
    [8 * k] is below [n]: they agree on the first [n] bytes of their
    buffers. *)
Definition same_head {A : Type} (n : nat) (x y : ndarray A) : Prop :=
  dimensions x = dimensions y ∧
  ∀ k, (8 * k < n)%nat → data x !! k = data y !! k.

(** What a call hands back besides its inputs. *)
Definition outcome (r : option (args * result))
  : option (ndarray float * ndarray float * ndarray float * result) :=
  (λ ar, (wresult ar.1, bresult ar.1, used ar.1, ar.2)) <$> r.

(** A call without samples. *)
Definition no_samples : args :=
  mkArgs (mkArray [0%nat] []) (mkArray [0%nat] [])
    (mkArray [0%nat] []) (mkArray [0%nat] [])
    zeros22 zeros22 zeros22.

(** The call [two_samples] with another second sample. *)
Definition two_samples_moved : args :=
  mkArgs (mkArray [2%nat] [0; 0]) (mkArray [2%nat] [0; 1])
    (mkArray [2%nat] [1%float; 5%float]) (mkArray [2%nat] [2%float; 7%float])
    zeros22 zeros22 zeros22.

End Bin2DProfile.

(** ** Interpolate: the table interpolator

    Stated over the reals: [log10] and the arithmetic on finite
    [npy_float64] values are exact here.  What IEEE arithmetic yields
    where the reals have no value (the logarithm of a number that is not
    positive, a quotient by zero) is kept: an infinity or a NaN. *)

Module Interpolate.
Import NumPy.

(** The value of a [npy_float64], or of the [long double] that [log10l]
    returns: a real number, an infinity or a NaN. *)
Inductive double := Fin (x : R) | Inf (negative : bool) | NaN.

Definition is_negative (r : R) : bool := if Rlt_dec r 0 then true else false.

Definition neg (x : double) : double :=
  match x with
  | Fin a => Fin (- a)
  | Inf s => Inf (negb s)
  | NaN => NaN
  end.

Definition add (x y : double) : double :=
  match x, y with
  | Fin a, Fin b => Fin (a + b)
  | Fin _, Inf s | Inf s, Fin _ => Inf s
  | Inf s, Inf s' => if Bool.eqb s s' then Inf s else NaN
  | _, _ => NaN
  end.

Definition sub (x y : double) : double := add x (neg y).

Definition mul (x y : double) : double :=
  match x, y with
  | Fin a, Fin b => Fin (a * b)
  | Fin a, Inf s | Inf s, Fin a =>
      if Req_dec_T a 0 then NaN else Inf (xorb s (is_negative a))
  | Inf s, Inf s' => Inf (xorb s s')
  | _, _ => NaN
  end.

(** A zero has no sign here and divides as +0 does.  The divisors of
    [Interpolate] that can be zero when they are reached are
    [num_axis_points - 1], an integer, and [dlogtem], the difference of
    two equal numbers divided by a positive one: both are +0.  ([tdef] is
    zero only when [dlogtem] is, and then the cast of line 614 is
    undefined before [tdef] is used.) *)
Definition div (x y : double) : double :=
  match x, y with
  | Fin a, Fin b =>
      if Req_dec_T b 0 then
        if Req_dec_T a 0 then NaN else Inf (is_negative a)
      else Fin (a / b)
  | Fin _, Inf _ => Fin 0
  | Inf s, Fin b => Inf (xorb s (is_negative b))
  | _, _ => NaN
  end.

Declare Scope double_scope.
Delimit Scope double_scope with D.
Bind Scope double_scope with double.
Infix "+" := add : double_scope.
Infix "-" := sub : double_scope.
Infix "*" := mul : double_scope.
Infix "/" := div : double_scope.

(** The conversion of an integer to [npy_float64]. *)
Definition of_int (z : Z) : double := Fin (IZR z).

(** The decimal logarithm of a positive real. *)
Definition Rlog10 (x : R) : R := (ln x / ln 10)%R.

(** [log10] and [log10l]: the logarithm of a positive number, minus
    infinity at zero, NaN below zero. *)
Definition log10 (x : double) : double :=
  match x with
  | Fin a =>
      if Rlt_dec 0 a then Fin (Rlog10 a)
      else if Req_dec_T a 0 then Inf true else NaN
  | Inf false => Inf false
  | _ => NaN
  end.

(** The cast [(int) x] of a double: truncation towards zero, undefined
    when the value is an infinity or a NaN, or when the result does not
    fit an [int]. *)
Definition trunc (x : R) : Z :=
  if Rle_dec 0 x then Int_part x else - Int_part (- x).

Definition int_of_double (x : double) : option Z :=
  match x with
  | Fin a =>
      let z := trunc a in
      if (INT_MIN <=? z) && (z <=? INT_MAX) then Some z else None
  | _ => None
  end.

(** [(int)(q) + 1] in [int] arithmetic, undefined on overflow. *)
Definition int_succ (z : Z) : option Z :=
  if z + 1 <=? INT_MAX then Some (z + 1) else None.

(** The arrays of a call.  The axis, the table and the queries hold real
    numbers (an input with an infinity or a NaN is outside the model);
    the output buffer holds what the arithmetic yields. *)
Record args := mkArgs {
  axis : ndarray R;
  table : ndarray R;
  desiredvals : ndarray R;
  outputvals : ndarray double;
  columns : ndarray Z
}.

(** Lines 613 and 614. *)
Definition bracket (num_axis_points : Z) (logtem0 dlogtem desired : double)
  : option Z :=
  q ← int_of_double ((desired - logtem0) / dlogtem)%D;
  q1 ← int_succ q;
  Some (Z.min (num_axis_points - 1) (Z.max 0 q1)).

(** Lines 619 to 623: one output cell. *)
Definition column_body (a : args) (desired t1 tdef : double) (axis_ind : Z)
  (desired_num : nat) (column : nat) (out : ndarray double)
  : option (ndarray double) :=
  col_ind ← data (columns a) !! column;
  pi ← PyArray_GETPTR2 (table a) (axis_ind - 1) col_ind;
  ki ← load (table a) pi;
  pip ← PyArray_GETPTR2 (table a) axis_ind col_ind;
  kip ← load (table a) pip;
  po ← PyArray_GETPTR2 out (Z.of_nat desired_num) (Z.of_nat column);
  store out po (Fin ki + (desired - t1) * (Fin kip - Fin ki) / tdef)%D.

(** Lines 611 to 624: one query value. *)
Definition desired_body (a : args) (num_axis_points : Z) (num_columns : nat)
  (logtem0 dlogtem : double) (desired_num : nat) (out : ndarray double)
  : option (ndarray double) :=
  t ← data (desiredvals a) !! desired_num;
  let desired := log10 (Fin t) in
  axis_ind ← bracket num_axis_points logtem0 dlogtem desired;
  let t1 := (logtem0 + of_int (axis_ind - 1) * dlogtem)%D in
  let t2 := (logtem0 + of_int (axis_ind + 0) * dlogtem)%D in
  let tdef := (t2 - t1)%D in
  for_loop (column_body a desired t1 tdef axis_ind desired_num)
    0 num_columns out.

(** Lines 590 to 627. *)
Definition Interpolate (num_axis_points : nat) (a : args)
  (num_columns : nat) : option (ndarray double) :=
  num_desireds ← dimensions (desiredvals a) !! 0%nat;
  axis_0 ← data (axis a) !! 0%nat;
  axis_9 ← load (axis a) (Z.of_nat num_axis_points - 1);
  let logtem0 := log10 (Fin axis_0) in
  let logtem9 := log10 (Fin axis_9) in
  let dlogtem :=
    ((logtem9 - logtem0) / of_int (Z.of_nat num_axis_points - 1))%D in
  for_loop (desired_body a (Z.of_nat num_axis_points) num_columns
              logtem0 dlogtem)
    0 num_desireds (outputvals a).

Inductive result := Error (msg : string) | None_returned.

Definition set_outputvals (a : args) (out : ndarray double) : args :=
  mkArgs (axis a) (table a) (desiredvals a) out (columns a).

(** The entry point: the check of line 653, then the kernel.  Reading a
    dimension an array does not have is undefined.  The five handles are
    assigned before the check, and [_fail] releases nothing else. *)
Definition Py_Interpolate (a : args) : option (args * result) :=
  num_columns ← dimensions (columns a) !! 0%nat;
  out_columns ← dimensions (outputvals a) !! 1%nat;
  if negb (num_columns =? out_columns)%nat then
    Some (a, Error "Interpolate: number of columns requested must match number of columns in output buffer. %i")
  else
    num_axis_points ← dimensions (axis a) !! 0%nat;
    out ← Interpolate num_axis_points a num_columns;
    Some (set_outputvals a out, None_returned).

(** The shapes of a call: an axis of [m] points, a table of [m] rows and
    [c] columns, [k] query values, [p] requested columns inside the table,
    and an output buffer of [k] rows and [p] columns. *)
Record shapes (a : args) (m c k p : nat) : Prop := {
  sh_axis : dimensions (axis a) = [m] ∧ length (data (axis a)) = m;
  sh_table : dimensions (table a) = [m; c] ∧
             length (data (table a)) = (m * c)%nat;
  sh_desired : dimensions (desiredvals a) = [k] ∧
               length (data (desiredvals a)) = k;
  sh_columns : dimensions (columns a) = [p] ∧
               length (data (columns a)) = p;
  sh_column_range : ∀ j col, data (columns a) !! j = Some col →
                    0 ≤ col < Z.of_nat c;
  sh_output : dimensions (outputvals a) = [k; p] ∧
              length (data (outputvals a)) = (k * p)%nat;
  sh_two_points : (2 ≤ m)%nat
}.

(** The value written for a query whose logarithm is [desired], between
    the table values [ki] and [kip] of the rows below and at [axis_ind],
    when the logarithms are real numbers. *)
Definition interpolant (logtem0 dlogtem desired : R) (axis_ind : Z)
  (ki kip : R) : R :=
  let t1 := (logtem0 + IZR (axis_ind - 1) * dlogtem)%R in
  let t2 := (logtem0 + IZR (axis_ind + 0) * dlogtem)%R in
  (ki + (desired - t1) * (kip - ki) / (t2 - t1))%R.

(** What the cell of query [q] and column [j] has to hold when the
    query is interpolated between rows [B q - 1] and [B q]. *)
Definition cell_written (a : args) (c p : nat) (logtem0 dlogtem : R)
  (B : nat → nat) (out : ndarray double) (q j : nat) : Prop :=
  ∀ t col,
    data (desiredvals a) !! q = Some t → data (columns a) !! j = Some col →
    ∃ ki kip,
      data (table a) !! ((B q - 1) * c + Z.to_nat col)%nat = Some ki ∧
      data (table a) !! (B q * c + Z.to_nat col)%nat = Some kip ∧
      data out !! (q * p + j)%nat
      = Some (Fin (interpolant logtem0 dlogtem (Rlog10 t) (Z.of_nat (B q))
                     ki kip)).

Definition out_shaped (k p : nat) (out : ndarray double) : Prop :=
  dimensions out = [k; p] ∧ length (data out) = (k * p)%nat.

(** A query that the index computation of lines 613 and 614 can take,
    for an axis whose first logarithm is [logtem0] and whose step is
    [dlogtem]: the query is positive, the step is not zero, and the
    quotient that is cast to [int] lies strictly between -1 and
    [INT_MAX]. *)
Definition in_table (logtem0 dlogtem t : R) : Prop :=
  (0 < t ∧ dlogtem ≠ 0 ∧
   -1 < (Rlog10 t - logtem0) / dlogtem < IZR INT_MAX)%R.

(** The upper row of query number [q]. *)
Definition bracket_of (a : args) (m : nat) (logtem0 dlogtem : R) (q : nat)
  : nat :=
  match data (desiredvals a) !! q with
  | Some t =>
      match bracket (Z.of_nat m) (Fin logtem0) (Fin dlogtem)
              (log10 (Fin t)) with
      | Some axis_ind => Z.to_nat axis_ind
      | None => 0%nat
      end
  | None => 0%nat
  end.

(** The scenario of the specification: three decades, one column. *)
Definition decades (desired : R) : args :=
  mkArgs (mkArray [3%nat] [1; 10; 100]%R)
    (mkArray [3; 1]%nat [5; 50; 500]%R)
    (mkArray [1%nat] [desired])
    (mkArray [1; 1]%nat [Fin 0])
    (mkArray [1%nat] [0]).

(** The same scenario with two columns requested for an output buffer of
    one column. *)
Definition two_columns : args :=
  mkArgs (mkArray [3%nat] [1; 10; 100]%R)
    (mkArray [3; 1]%nat [5; 50; 500]%R)
    (mkArray [1%nat] [10%R])
    (mkArray [1; 1]%nat [Fin 0])
    (mkArray [2%nat] [0; 0]).




End Interpolate.


(** ** initPointCombine: the module table

    The method table of lines 686 to 693 and the module initialisation of
    lines 700 to 714.  The module dictionary is a finite map from names to
    objects; what [Py_InitModule] puts into a fresh module besides the
    methods is left open ([base]). *)

Module PointCombine.

(** The five entry points. *)
Inductive method :=
  | CombineGrids | Interpolate | DataCubeRefine | DataCubeReplace
  | Bin2DProfile.

(** The four exception classes, by the static variable that holds each
    (lines 40, 269, 385 and 588). *)
Inductive error :=
  | _combineGridsError | _profile2DError | _dataCubeError
  | _interpolateError.

(** The name [PyErr_NewException] gives each class. *)
Definition class_name (e : error) : string :=
  match e with
  | _combineGridsError => "PointCombine.CombineGridsError"
  | _interpolateError => "PointCombine.InterpolateError"
  | _dataCubeError => "PointCombine.DataCubeError"
  | _profile2DError => "PointCombine.Profile2DError"
  end.

(** What the module dictionary holds. *)
Inductive object :=
  | Function (f : method)
  | Class (e : error)
  | Other (repr : string).

Definition dict := gmap string object.

Definition _combineMethods : list (string * method) :=
  [("CombineGrids", CombineGrids); ("Interpolate", Interpolate);
   ("DataCubeRefine", DataCubeRefine); ("DataCubeReplace", DataCubeReplace);
   ("Bin2DProfile", Bin2DProfile)].

Definition Py_InitModule (methods : list (string * method)) (base : dict)
  : dict :=
  foldl (λ d m, <[m.1 := Function m.2]> d) base methods.

Definition PyDict_SetItemString (d : dict) (key : string) (v : object)
  : dict :=
  <[key := v]> d.

(** Lines 703 to 712. *)
Definition initPointCombine (base : dict) : dict :=
  let d := Py_InitModule _combineMethods base in
  let d := PyDict_SetItemString d "error" (Class _combineGridsError) in
  let d := PyDict_SetItemString d "error" (Class _interpolateError) in
  let d := PyDict_SetItemString d "error" (Class _dataCubeError) in
  let d := PyDict_SetItemString d "error" (Class _profile2DError) in
  d.

(** The class an entry point raises its errors with: the first argument
    of its calls of [PyErr_Format]. *)
Definition raises (f : method) : error :=
  match f with
  | CombineGrids => _combineGridsError
  | Interpolate => _interpolateError
  | DataCubeRefine | DataCubeReplace => _dataCubeError
  | Bin2DProfile => _profile2DError
  end.

End PointCombine.

(** * Properties *)

Import CombineGrids.

(** ** Loops *)

Section loops.
Context {St : Type}.

Lemma for_loop_invariant (P : St → Prop) (body : nat → St → option St) :
  (∀ i s s', P s → body i s = Some s' → P s') →
  ∀ n i s s', P s → for_loop body i n s = Some s' → P s'.
Proof.
  intros Hbody n. induction n as [|n IH]; intros i s s' HP Hrun; simpl in Hrun.
  - by simplify_eq.
  - destruct (body i s) as [s1|] eqn:Hb; simpl in Hrun; [|done].
    eapply IH; [|exact Hrun]. eauto.
Qed.

Lemma for_loop_defined (P : St → Prop) (bound : nat)
  (body : nat → St → option St) :
  (∀ i s, P s → (i < bound)%nat → ∃ s', body i s = Some s' ∧ P s') →
  ∀ n i s, (i + n ≤ bound)%nat → P s →
    ∃ s', for_loop body i n s = Some s' ∧ P s'.
Proof.
  intros Hbody n. induction n as [|n IH]; intros i s Hin HP; simpl.
  - eauto.
  - destruct (Hbody i s HP) as (s1 & -> & HP1); [lia|].
    simpl. apply IH; [lia|done].
Qed.

Lemma for_loop_app (body : nat → St → option St) n m : ∀ i s,
  for_loop body i (n + m) s
  = s' ← for_loop body i n s; for_loop body (i + n) m s'.
Proof.
  induction n as [|n IH]; intros i s; simpl.
  - by rewrite Nat.add_0_r.
  - destruct (body i s) as [s1|]; simpl; [|done].
    rewrite IH. by rewrite Nat.add_succ_r.
Qed.

Lemma for_loop_shift (body : nat → St → option St) base n : ∀ i s,
  for_loop (λ k, body (base + k)%nat) i n s = for_loop body (base + i) n s.
Proof.
  induction n as [|n IH]; intros i s; simpl; [done|].
  destruct (body (base + i)%nat s) as [s1|]; simpl; [|done].
  rewrite IH. by rewrite Nat.add_succ_r.
Qed.

(** A loop of [n] blocks of [b] consecutive turns is one loop of [n * b]
    turns. *)
Lemma for_loop_blocks (body : nat → St → option St) base b n : ∀ j s,
  for_loop (λ k, for_loop body (base + k * b) b) j n s
  = for_loop body (base + j * b) (n * b) s.
Proof.
  induction n as [|n IH]; intros j s; [done|].
  cbn [for_loop Nat.mul]. rewrite for_loop_app.
  destruct (for_loop body (base + j * b) b s) as [s1|]; simpl; [|done].
  rewrite IH. f_equal. lia.
Qed.

(** Two bodies that agree on the states an invariant allows run alike. *)
Lemma for_loop_ext_inv (Inv : St → Prop) (lo hi : nat)
  (f g : nat → St → option St) :
  (∀ k s, Inv s → (lo ≤ k < hi)%nat → f k s = g k s) →
  (∀ k s s', Inv s → (lo ≤ k < hi)%nat → g k s = Some s' → Inv s') →
  ∀ n i s, (lo ≤ i)%nat → (i + n ≤ hi)%nat → Inv s →
    for_loop f i n s = for_loop g i n s.
Proof.
  intros Hfg Hinv n. induction n as [|n IH]; intros i s Hlo Hhi HI; [done|].
  simpl. rewrite Hfg by (done || lia).
  destruct (g i s) as [s1|] eqn:Hg; simpl; [|done].
  apply IH; [lia|lia|]. eapply Hinv; [done| |done]. lia.
Qed.

(** A loop whose turn [k] takes the states of [Q k] to those of
    [Q (S k)] runs to the end and takes [Q i] to [Q (i + n)]. *)
Lemma for_loop_steps (Q : nat → St → Prop) (body : nat → St → option St) n :
  ∀ i s,
    Q i s →
    (∀ k t, (i ≤ k < i + n)%nat → Q k t → ∃ t', body k t = Some t' ∧ Q (S k) t') →
    ∃ s', for_loop body i n s = Some s' ∧ Q (i + n)%nat s'.
Proof.
  induction n as [|n IH]; intros i s HQ Hbody; simpl.
  - exists s. by rewrite Nat.add_0_r.
  - destruct (Hbody i s) as (s1 & -> & HQ1); [lia|done|]. simpl.
    replace (i + S n)%nat with (S i + n)%nat by lia.
    apply IH; [done|]. intros k t Hk. apply Hbody. lia.
Qed.

End loops.

(** ** The point merger *)

Section merge.
Variable r : Z.
Variable NumArrays : nat.

Local Abbreviation run := (run_events r NumArrays).

Lemma run_events_app evs1 evs2 s :
  run (evs1 ++ evs2) s = s' ← run evs1 s; run evs2 s'.
Proof.
  revert s. induction evs1 as [|e evs1 IH]; intros s; simpl; [done|].
  destruct (on_match _ _ _ _ s); simpl; auto.
Qed.

Lemma add_channel_frame si di i s s' :
  add_channel si di i s = Some s' → same_but_vals s s'.
Proof.
  unfold add_channel. intros H. simplify_option_eq. by repeat split.
Qed.

Lemma channels_frame si di n i s s' :
  for_loop (add_channel si di) i n s = Some s' → same_but_vals s s'.
Proof.
  intros H.
  eapply (for_loop_invariant (λ t, same_but_vals s t)); [| |exact H].
  - intros j t t' Ht Hb. apply add_channel_frame in Hb.
    unfold same_but_vals in *. destruct_and!. repeat split; congruence.
  - by repeat split.
Qed.

(** What one match leaves alone, and what it writes outside the value
    channels. *)
Lemma on_match_cases si di s s' :
  on_match r NumArrays si di s = Some s' →
  ∃ wd ws ms md,
    dst_wgt s !! di = Some wd ∧ src_wgt s !! di = Some ws ∧
    src_mask s !! si = Some ms ∧ dst_mask s !! di = Some md ∧
    is_Some (src_x s !! si) ∧
    same_but_vals
      (mkState (<[si := -1]> (src_x s)) (src_y s) (src_mask s) (src_wgt s)
         (src_vals s) (dst_x s) (dst_y s)
         (<[di := mask_rule r ms md]> (dst_mask s))
         (<[di := (wd + ws)%float]> (dst_wgt s)) (dst_vals s)
         (int32 (num_found s + 1))) s'.
Proof.
  unfold on_match. cbn -[for_loop int32]. intros H.
  destruct (dst_wgt s !! di) as [wd|] eqn:Hwd; [|done].
  destruct (src_wgt s !! di) as [ws|] eqn:Hws; [|done].
  destruct (src_mask s !! si) as [ms|] eqn:Hms; [|done].
  destruct (dst_mask s !! di) as [md|] eqn:Hmd; [|done].
  destruct (src_x s !! si) as [x|] eqn:Hx; [|done].
  cbn -[for_loop int32] in H. apply channels_frame in H.
  exists wd, ws, ms, md. repeat split; eauto; apply H.
Qed.

Lemma on_match_frame si di s s' :
  on_match r NumArrays si di s = Some s' → same_inputs s s'.
Proof.
  intros (?&?&?&?&?&?&?&?&?&H)%on_match_cases.
  unfold same_but_vals in H. cbn in H. destruct_and!. by repeat split.
Qed.

Lemma on_match_effect si di s s' :
  on_match r NumArrays si di s = Some s' →
  ∃ wd ws ms md,
    dst_wgt s !! di = Some wd ∧ src_wgt s !! di = Some ws ∧
    src_mask s !! si = Some ms ∧ dst_mask s !! di = Some md ∧
    src_x s' = <[si := -1]> (src_x s) ∧
    dst_wgt s' = <[di := (wd + ws)%float]> (dst_wgt s) ∧
    dst_mask s' = <[di := mask_rule r ms md]> (dst_mask s) ∧
    num_found s' = int32 (num_found s + 1).
Proof.
  intros (wd&ws&ms&md&?&?&?&?&?&H)%on_match_cases.
  unfold same_but_vals in H. cbn -[int32] in H. destruct_and!.
  exists wd, ws, ms, md. by repeat split.
Qed.

Lemma same_inputs_refl s : same_inputs s s.
Proof. by repeat split. Qed.

Lemma same_inputs_trans s1 s2 s3 :
  same_inputs s1 s2 → same_inputs s2 s3 → same_inputs s1 s3.
Proof. unfold same_inputs. intros. destruct_and!. repeat split; congruence. Qed.

Lemma run_events_frame evs s s' : run evs s = Some s' → same_inputs s s'.
Proof.
  revert s. induction evs as [|e evs IH]; intros s H; simpl in H.
  - simplify_eq. apply same_inputs_refl.
  - destruct (on_match _ _ _ _ s) as [s1|] eqn:Hm; simpl in H; [|done].
    eapply same_inputs_trans; [by eapply on_match_frame|by apply IH].
Qed.

Lemma is_hit_frame s s' fx fy di :
  dst_x s' = dst_x s → dst_y s' = dst_y s → is_hit s' fx fy di = is_hit s fx fy di.
Proof. unfold is_hit. by intros -> ->. Qed.

Lemma dst_hits_frame s s' fx fy i n :
  dst_x s' = dst_x s → dst_y s' = dst_y s →
  dst_hits r s' fx fy i n = dst_hits r s fx fy i n.
Proof.
  intros Hx Hy. unfold dst_hits.
  by rewrite (filter_ext _ _ (λ di, is_hit_frame s s' fx fy di Hx Hy)).
Qed.

(** One turn of the scan either skips the destination point or performs
    the match, according to [is_hit]. *)
Lemma scan_body_hit si fx fy di s :
  is_Some (dst_x s !! di) → is_Some (dst_y s !! di) →
  scan_body r NumArrays si fx fy di s
  = if is_hit s fx fy di
    then s' ← on_match r NumArrays si di s;
         Some (s', if r =? 1 then Break else Next)
    else Some (s, Next).
Proof.
  intros [dx Hdx] [dy Hdy]. unfold scan_body, is_hit. rewrite Hdx, Hdy. simpl.
  destruct (Z.ltb_spec dx 0), (Z.leb_spec 0 dx); try lia; simpl; [done|].
  destruct (fx =? dx); simpl; [|done]. by destruct (fy =? dy).
Qed.

(** The scan of the destination for one fine coordinate performs exactly
    the matches listed by [dst_hits], in that order. *)
Lemma scan_refines si x_off y_off fx fy n : ∀ i s,
  (i + n ≤ length (dst_x s))%nat → (i + n ≤ length (dst_y s))%nat →
  for_break (scan_body r NumArrays si fx fy) i n s
  = run (mkEvent si x_off y_off <$> dst_hits r s fx fy i n) s.
Proof.
  induction n as [|n IH]; intros i s Hlx Hly.
  - unfold dst_hits. simpl. by destruct (r =? 1).
  - cbn [for_break]. rewrite scan_body_hit by (apply lookup_lt_is_Some_2; lia).
    unfold dst_hits. cbn [seq List.filter].
    destruct (is_hit s fx fy i) eqn:Hh; cbn [mbind option_bind fst snd].
    2:{ rewrite IH by lia. done. }
    destruct (on_match r NumArrays si i s) as [s1|] eqn:Hm.
    2:{ destruct (r =? 1); simpl; by rewrite Hm. }
    pose proof (on_match_frame _ _ _ _ Hm) as (_&_&_&_&Hdx1&Hdy1).
    destruct (r =? 1) eqn:Hr; simpl; rewrite Hm; simpl.
    + by rewrite ?take_0.
    + rewrite IH by (rewrite ?Hdx1, ?Hdy1; lia).
      unfold dst_hits. rewrite Hr.
      by rewrite (filter_ext _ _ (λ di, is_hit_frame s s1 fx fy di Hdx1 Hdy1)).
Qed.

(** A loop whose turns each perform a list of events performs their
    concatenation, provided a turn does not disturb the events of the
    turns to come. *)
Lemma loop_refines (Inv : state → Prop) (bound : nat)
  (body : nat → state → option state) (evf : state → nat → list event) :
  (∀ k s, Inv s → (k < bound)%nat → body k s = run (evf s k) s) →
  (∀ k s s', Inv s → run (evf s k) s = Some s' →
     Inv s' ∧ ∀ k', (k < k')%nat → evf s' k' = evf s k') →
  ∀ n i s, (i + n ≤ bound)%nat → Inv s →
    for_loop body i n s = run (k ← seq i n; evf s k) s.
Proof.
  intros Hbody Hkeep n. induction n as [|n IH]; intros i s Hin HI; [done|].
  cbn [for_loop seq]. rewrite bind_cons, run_events_app, Hbody by (done || lia).
  destruct (run (evf s i) s) as [s1|] eqn:Hrun; [|done].
  destruct (Hkeep i s s1 HI Hrun) as [HI1 Hev].
  cbn [mbind option_bind]. rewrite IH by (done || lia). f_equal.
  apply Forall_bind_ext, Forall_forall. intros k Hk. apply Hev.
  apply elem_of_seq in Hk. lia.
Qed.

Lemma offset_events_frame dst_len s s' si x y x_off y_off :
  same_inputs s s' →
  offset_events r dst_len s' si x y x_off y_off
  = offset_events r dst_len s si x y x_off y_off.
Proof.
  intros (_&_&_&_&Hx&Hy). unfold offset_events. by rewrite (dst_hits_frame s s').
Qed.

Lemma src_events_frame dst_len s s' si :
  same_inputs s s' → src_x s' !! si = src_x s !! si →
  src_events r dst_len s' si = src_events r dst_len s si.
Proof.
  intros Hs Hx. pose proof Hs as (Hy&_). unfold src_events. rewrite Hx, Hy.
  destruct (src_x s !! si) as [x|]; [|done].
  destruct (src_y s !! si) as [y|]; [|done].
  destruct (x <? 0); [done|].
  apply list_bind_ext; [|done]. intros x_off.
  apply list_bind_ext; [|done]. intros y_off.
  by apply offset_events_frame.
Qed.

(** Events touch the consumed marker of their own source point only. *)
Lemma run_events_src_x evs s s' j :
  run evs s = Some s' → Forall (λ e, ev_si e ≠ j) evs →
  src_x s' !! j = src_x s !! j.
Proof.
  revert s. induction evs as [|e evs IH]; intros s H Hall; simpl in H.
  - by simplify_eq.
  - destruct (on_match _ _ _ _ s) as [s1|] eqn:Hm; simpl in H; [|done].
    apply Forall_cons in Hall as [Hne Hall].
    rewrite (IH s1) by done.
    apply on_match_effect in Hm as (?&?&?&?&?&?&?&?&->&?).
    by rewrite list_lookup_insert_ne.
Qed.

Lemma src_events_si dst_len s si :
  Forall (λ e, ev_si e = si) (src_events r dst_len s si).
Proof.
  unfold src_events.
  destruct (src_x s !! si) as [x|]; [|done].
  destruct (src_y s !! si) as [y|]; [|done].
  destruct (x <? 0); [done|].
  apply Forall_forall. intros e He.
  apply list_elem_of_bind in He as (x_off & He & _).
  apply list_elem_of_bind in He as (y_off & He & _).
  unfold offset_events in He. apply list_elem_of_fmap in He as (di & -> & _).
  done.
Qed.

Lemma dst_readable_frame dst_len s s' :
  same_inputs s s' → dst_readable dst_len s → dst_readable dst_len s'.
Proof. intros (_&_&_&_&Hx&Hy). unfold dst_readable. by rewrite Hx, Hy. Qed.

Lemma src_body_refines dst_len si s :
  dst_readable dst_len s → is_Some (src_x s !! si) → is_Some (src_y s !! si) →
  src_body r NumArrays dst_len si s = run (src_events r dst_len s si) s.
Proof.
  intros Hd [x Hx] [y Hy]. unfold src_body, src_events. rewrite Hx, Hy.
  cbn [mbind option_bind]. destruct (x <? 0); [done|].
  apply (loop_refines (dst_readable dst_len) (Z.to_nat r)
           (λ x_off, for_loop (offset_body r NumArrays dst_len si
              (int64 (r * x)) (int64 (r * y)) x_off) 0 (Z.to_nat r))
           (λ s x_off, y_off ← seq 0 (Z.to_nat r);
              offset_events r dst_len s si x y x_off y_off)); [| |done|done].
  - intros x_off t Ht _.
    apply (loop_refines (dst_readable dst_len) (Z.to_nat r)
             (offset_body r NumArrays dst_len si
                (int64 (r * x)) (int64 (r * y)) x_off)
             (λ s y_off, offset_events r dst_len s si x y x_off y_off));
      [| |done|done].
    + intros y_off u [Hux Huy] _. unfold offset_body, offset_events.
      by apply scan_refines.
    + intros y_off u u' Hu Hrun. apply run_events_frame in Hrun. split.
      * by eapply dst_readable_frame.
      * intros y_off' _. by apply offset_events_frame.
  - intros x_off t t' Ht Hrun. apply run_events_frame in Hrun. split.
    + by eapply dst_readable_frame.
    + intros x_off' _. apply list_bind_ext; [|done]. intros y_off.
      by apply offset_events_frame.
Qed.

Lemma run_events_src_len evs s s' :
  run evs s = Some s' → length (src_x s') = length (src_x s).
Proof.
  revert s. induction evs as [|e evs IH]; intros s H; simpl in H.
  - by simplify_eq.
  - destruct (on_match _ _ _ _ s) as [s1|] eqn:Hm; simpl in H; [|done].
    rewrite (IH s1) by done.
    apply on_match_effect in Hm as (?&?&?&?&?&?&?&?&->&?).
    apply length_insert.
Qed.

(** The nested loops perform exactly the match events of the input. *)
Lemma src_loop_refines src_len dst_len n i s :
  (i + n ≤ src_len)%nat → scan_ready src_len dst_len s →
  for_loop (src_body r NumArrays dst_len) i n s
  = run (si ← seq i n; src_events r dst_len s si) s.
Proof.
  apply (loop_refines (scan_ready src_len dst_len) src_len).
  - intros k t (Hd & Hx & Hy) Hk.
    apply src_body_refines; [done| |]; apply lookup_lt_is_Some_2; lia.
  - intros k t t' (Hd & Hx & Hy) Hrun.
    pose proof (run_events_frame _ _ _ Hrun) as Hfr. split.
    + split; [by eapply dst_readable_frame|]. split.
      * by rewrite (run_events_src_len _ _ _ Hrun).
      * destruct Hfr as (-> & _). done.
    + intros k' Hk'. apply src_events_frame; [done|].
      eapply run_events_src_x; [done|].
      eapply Forall_impl; [apply src_events_si|]. simpl. intros e ->. lia.
Qed.

Theorem kernel_refines s :
  length (src_y s) = length (src_x s) → length (dst_y s) = length (dst_x s) →
  kernel r NumArrays (length (src_x s)) (length (dst_x s)) s
  = run (match_events r s) (set_num_found s 0).
Proof.
  intros Hy Hdy. unfold kernel.
  rewrite (src_loop_refines (length (src_x s)) (length (dst_x s))); [done|lia|].
  repeat split; simpl; lia.
Qed.

(** *** Definedness: on well-formed point sets the merge reads and writes
    inside its arrays, except that the weight addend [src_wgt[di]] needs
    the matched destination index to exist in the source. *)

Local Abbreviation sized := (CombineGrids.sized NumArrays).

Lemma add_channel_defined src_len dst_len si di i s :
  sized src_len dst_len s →
  (si < src_len)%nat → (di < dst_len)%nat → (i < NumArrays)%nat →
  ∃ s', add_channel si di i s = Some s' ∧ sized src_len dst_len s'.
Proof.
  intros ([] & Hsl & Hdl & HN) Hsi Hdi Hi. unfold add_channel.
  destruct (lookup_lt_is_Some_2 (src_vals s) i) as [sv Hsv]; [lia|].
  destruct (lookup_lt_is_Some_2 (dst_vals s) i) as [dv Hdv]; [lia|].
  pose proof (Forall_lookup_1 _ _ _ _ wf_src_vals0 Hsv) as Hlsv.
  pose proof (Forall_lookup_1 _ _ _ _ wf_dst_vals0 Hdv) as Hldv.
  simpl in Hlsv, Hldv.
  destruct (lookup_lt_is_Some_2 sv si) as [v Hv]; [lia|].
  destruct (lookup_lt_is_Some_2 dv di) as [d Hd]; [lia|].
  rewrite Hsv. cbn [mbind option_bind]. rewrite Hv. cbn [mbind option_bind].
  rewrite Hdv. cbn [mbind option_bind]. rewrite Hd. cbn [mbind option_bind].
  eexists. split; [done|].
  repeat split; simpl; try done.
  - apply Forall_insert; [done|]. by rewrite length_insert.
  - by rewrite length_insert.
Qed.

Lemma on_match_defined src_len dst_len si di s :
  sized src_len dst_len s →
  (si < src_len)%nat → (di < dst_len)%nat → (di < src_len)%nat →
  ∃ s', on_match r NumArrays si di s = Some s' ∧ sized src_len dst_len s'.
Proof.
  intros Hs Hsi Hdi Hds. pose proof Hs as ([] & Hsl & Hdl & HN).
  unfold on_match. cbn -[for_loop int32].
  destruct (lookup_lt_is_Some_2 (dst_wgt s) di) as [wd ->]; [lia|].
  destruct (lookup_lt_is_Some_2 (src_wgt s) di) as [ws ->]; [lia|].
  destruct (lookup_lt_is_Some_2 (src_mask s) si) as [ms ->]; [lia|].
  destruct (lookup_lt_is_Some_2 (dst_mask s) di) as [md ->]; [lia|].
  destruct (lookup_lt_is_Some_2 (src_x s) si) as [x ->]; [lia|].
  cbn -[for_loop int32].
  apply (for_loop_defined (sized src_len dst_len) NumArrays); [|lia|].
  - intros i t Ht Hi. by apply add_channel_defined.
  - repeat split; simpl; rewrite ?length_insert; try done.
Qed.

Lemma run_events_defined src_len dst_len evs : ∀ s,
  sized src_len dst_len s → Forall (in_bounds src_len dst_len) evs →
  ∃ s', run evs s = Some s' ∧ sized src_len dst_len s'.
Proof.
  induction evs as [|e evs IH]; intros s Hs Hall; simpl; [eauto|].
  apply Forall_cons in Hall as [(Hsi & Hdi & Hds) Hall].
  destruct (on_match_defined src_len dst_len (ev_si e) (ev_di e) s)
    as (s1 & -> & Hs1); try done.
  simpl. by apply IH.
Qed.

(** Every event names a source and a destination point of the input. *)
Lemma match_events_range s e :
  e ∈ match_events r s →
  (ev_si e < length (src_x s))%nat ∧ (ev_di e < length (dst_x s))%nat.
Proof.
  unfold match_events. intros (si & He & Hsi)%list_elem_of_bind.
  apply elem_of_seq in Hsi.
  pose proof (src_events_si (length (dst_x s)) s si) as Hall.
  rewrite Forall_forall in Hall. rewrite (Hall e He). split; [lia|].
  unfold src_events in He.
  destruct (src_x s !! si) as [x|]; [|by apply elem_of_nil in He].
  destruct (src_y s !! si) as [y|]; [|by apply elem_of_nil in He].
  destruct (x <? 0); [by apply elem_of_nil in He|].
  apply list_elem_of_bind in He as (x_off & He & _).
  apply list_elem_of_bind in He as (y_off & He & _).
  unfold offset_events in He. apply list_elem_of_fmap in He as (di & -> & Hdi).
  simpl. unfold dst_hits in Hdi.
  assert (di ∈ List.filter (is_hit s
            (int64 (int64 (r * x) + Z.of_nat x_off))
            (int64 (int64 (r * y) + Z.of_nat y_off))) (seq 0 (length (dst_x s))))
    as Hin.
  { destruct (r =? 1); [|done]. by eapply subseteq_take. }
  apply list_elem_of_In, filter_In in Hin as [Hin _].
  apply in_seq in Hin. lia.
Qed.

(** *** What a run of events leaves in each array *)

Lemma int32_add_l a b : int32 (int32 a + b) = int32 (a + b).
Proof.
  unfold int32, wrap.
  change (2 ^ (32 - 1)) with 2147483648. change (2 ^ 32) with 4294967296.
  replace ((a + 2147483648) mod 4294967296 - 2147483648 + b + 2147483648)
    with ((a + 2147483648) mod 4294967296 + b) by lia.
  rewrite Zplus_mod_idemp_l. do 2 f_equal. lia.
Qed.

Lemma int32_idem a : int32 (int32 a) = int32 a.
Proof. pose proof (int32_add_l a 0) as H. by rewrite !Z.add_0_r in H. Qed.

Lemma int32_small a : INT_MIN ≤ a ≤ INT_MAX → int32 a = a.
Proof.
  unfold int32, wrap, INT_MIN, INT_MAX.
  change (2 ^ (32 - 1)) with 2147483648. change (2 ^ 32) with 4294967296.
  change (2 ^ 31) with 2147483648.
  intros H. rewrite Z.mod_small; lia.
Qed.

(** The counter is incremented once per event, in C [int] arithmetic. *)
Lemma run_events_num_found evs : ∀ s s',
  run evs s = Some s' → int32 (num_found s) = num_found s →
  num_found s' = int32 (num_found s + Z.of_nat (length evs)).
Proof.
  induction evs as [|e evs IH]; intros s s' H H0; simpl in H.
  - simplify_eq. simpl. by rewrite Z.add_0_r.
  - destruct (on_match _ _ _ _ s) as [s1|] eqn:Hm; simpl in H; [|done].
    apply on_match_effect in Hm as (?&?&?&?&?&?&?&?&?&?&?&Hn).
    rewrite (IH s1 s'), Hn; [|done|].
    + rewrite int32_add_l. f_equal. cbn [length]. lia.
    + rewrite Hn. apply int32_idem.
Qed.

(** The weight of destination point [j] receives [src_wgt[j]] once per
    event that lands on [j]. *)
Lemma run_events_dst_wgt j ws evs : ∀ s s' w0,
  run evs s = Some s' →
  src_wgt s !! j = Some ws → dst_wgt s !! j = Some w0 →
  dst_wgt s' !! j
  = Some (Nat.iter (length (events_at j evs)) (λ w, (w + ws)%float) w0).
Proof.
  induction evs as [|e evs IH]; intros s s' w0 H Hws Hw0; simpl in H.
  - by simplify_eq.
  - destruct (on_match _ _ _ _ s) as [s1|] eqn:Hm; simpl in H; [|done].
    pose proof (on_match_frame _ _ _ _ Hm) as (_&_&Hsw&_).
    apply on_match_effect in Hm as (wd&ws'&?&?&Hwd&Hws'&?&?&?&Hdw&?&?).
    unfold events_at. cbn [List.filter].
    destruct (Nat.eqb_spec (ev_di e) j) as [Heq|Hne].
    + rewrite Heq in *. simplify_eq. cbn [length]. rewrite Nat.iter_succ_r.
      apply (IH s1); [done|congruence|].
      rewrite Hdw. apply list_lookup_insert_eq. by eapply lookup_lt_Some.
    + apply (IH s1); [done|congruence|].
      rewrite Hdw. by rewrite list_lookup_insert_ne.
Qed.

Lemma run_events_dst_wgt_untouched j evs : ∀ s s',
  run evs s = Some s' → events_at j evs = [] →
  dst_wgt s' !! j = dst_wgt s !! j.
Proof.
  induction evs as [|e evs IH]; intros s s' H Hno; simpl in H.
  - by simplify_eq.
  - destruct (on_match _ _ _ _ s) as [s1|] eqn:Hm; simpl in H; [|done].
    unfold events_at in Hno. cbn [List.filter] in Hno.
    destruct (Nat.eqb_spec (ev_di e) j) as [Heq|Hne]; [done|].
    rewrite (IH s1) by done.
    apply on_match_effect in Hm as (?&?&?&?&?&?&?&?&?&->&?&?).
    by rewrite list_lookup_insert_ne.
Qed.

(** The mask of destination point [j] goes through [mask_rule] once per
    event that lands on [j], with the mask of the event's source point. *)
Lemma run_events_dst_mask j evs : ∀ s s' md0,
  run evs s = Some s' → dst_mask s !! j = Some md0 →
  dst_mask s' !! j
  = Some (fold_left (λ md ms, mask_rule r ms md)
            (source_masks s (events_at j evs)) md0).
Proof.
  induction evs as [|e evs IH]; intros s s' md0 H Hmd0; simpl in H.
  - by simplify_eq.
  - destruct (on_match _ _ _ _ s) as [s1|] eqn:Hm; simpl in H; [|done].
    pose proof (on_match_frame _ _ _ _ Hm) as (_&Hsm&_).
    apply on_match_effect in Hm as (?&?&ms&md&?&?&Hms&Hmd&?&?&Hdm&?).
    unfold events_at, source_masks. cbn [List.filter].
    destruct (Nat.eqb_spec (ev_di e) j) as [Heq|Hne].
    + rewrite Heq in *. assert (md = md0) as -> by congruence.
      cbn [omap list_omap]. rewrite Hms.
      cbn [fold_left]. rewrite (IH s1 s' (mask_rule r ms md0)); [|done|].
      * unfold source_masks, events_at. by rewrite Hsm.
      * rewrite Hdm. apply list_lookup_insert_eq. by eapply lookup_lt_Some.
    + rewrite (IH s1 s' md0); [|done|].
      * unfold source_masks, events_at. by rewrite Hsm.
      * rewrite Hdm. by rewrite list_lookup_insert_ne.
Qed.

Lemma mask_rule_same_level ms md :
  mask_rule 1 ms md = b2z (truthy ms && truthy md).
Proof. unfold mask_rule. simpl. by rewrite orb_false_r. Qed.

Lemma fold_mask_same_level masks : ∀ md0,
  fold_left (λ md ms, mask_rule 1 ms md) masks md0
  = fold_left (λ md ms, b2z (truthy ms && truthy md)) masks md0.
Proof.
  induction masks as [|ms masks IH]; intros md0; [done|]. cbn [fold_left].
  by rewrite IH, mask_rule_same_level.
Qed.

Lemma mask_rule_refined ms md : r ≠ 1 → mask_rule r ms md = b2z (truthy md).
Proof.
  intros Hr. unfold mask_rule. apply Z.eqb_neq in Hr. rewrite Hr. simpl.
  by destruct (truthy ms), (truthy md).
Qed.

Lemma truthy_b2z b : truthy (b2z b) = b.
Proof. by destruct b. Qed.

Lemma fold_mask_refined masks md0 :
  r ≠ 1 →
  fold_left (λ md ms, mask_rule r ms md) masks md0
  = match masks with [] => md0 | _ => b2z (truthy md0) end.
Proof.
  intros Hr. destruct masks as [|ms masks]; [done|]. cbn [fold_left].
  rewrite mask_rule_refined by done. generalize (truthy md0). intros b.
  induction masks as [|ms' masks IH]; [done|]. cbn [fold_left].
  rewrite mask_rule_refined by done. by rewrite truthy_b2z.
Qed.

(** *** The consumed marker *)

Lemma on_match_src_x si di s s' :
  on_match r NumArrays si di s = Some s' →
  src_x s' !! si = Some (-1) ∧ ∀ j, j ≠ si → src_x s' !! j = src_x s !! j.
Proof.
  intros (?&?&?&?&?&?&?&?&Hx&H)%on_match_cases.
  destruct H as (Hsx & _). cbn in Hsx. rewrite Hsx. split.
  - apply list_lookup_insert_eq. by apply lookup_lt_is_Some_1.
  - intros j Hj. by rewrite list_lookup_insert_ne.
Qed.

Lemma run_events_marker_stays evs : ∀ s s' i,
  run evs s = Some s' → src_x s !! i = Some (-1) → src_x s' !! i = Some (-1).
Proof.
  induction evs as [|e evs IH]; intros s s' i H Hi; simpl in H.
  - by simplify_eq.
  - destruct (on_match _ _ _ _ s) as [s1|] eqn:Hm; simpl in H; [|done].
    apply (IH s1); [done|].
    apply on_match_src_x in Hm as [Hsi Hother].
    destruct (decide (i = ev_si e)) as [->|Hne]; [done|].
    by rewrite Hother.
Qed.

Lemma run_events_consumed evs : ∀ s s' i,
  run evs s = Some s' → Exists (λ e, ev_si e = i) evs →
  src_x s' !! i = Some (-1).
Proof.
  induction evs as [|e evs IH]; intros s s' i H Hex; simpl in H.
  - by apply Exists_nil in Hex.
  - destruct (on_match _ _ _ _ s) as [s1|] eqn:Hm; simpl in H; [|done].
    apply Exists_cons in Hex as [<-|Hex].
    + eapply run_events_marker_stays; [done|].
      by apply on_match_src_x in Hm as [Hsi _].
    + by apply (IH s1).
Qed.

Lemma bind_all_nil {A B} (f : A → list B) (l : list A) :
  (∀ x, x ∈ l → f x = []) → l ≫= f = [].
Proof.
  induction l as [|x l IH]; intros H; [done|].
  rewrite bind_cons, H, IH; [done| |left].
  intros y Hy. apply H. by right.
Qed.

Lemma match_events_elem s e :
  e ∈ match_events r s ↔
  (ev_si e < length (src_x s))%nat ∧
  e ∈ src_events r (length (dst_x s)) s (ev_si e).
Proof.
  unfold match_events. rewrite list_elem_of_bind. split.
  - intros (si & He & Hsi). apply elem_of_seq in Hsi.
    pose proof (src_events_si (length (dst_x s)) s si) as Hall.
    rewrite Forall_forall in Hall. rewrite (Hall e He). split; [lia|done].
  - intros [Hsi He]. exists (ev_si e). split; [done|].
    apply elem_of_seq. lia.
Qed.

(** After a call no source point matches any more: the matched ones are
    marked consumed, the others found nothing and nothing they read has
    changed. *)
Lemma rerun_finds_nothing s s' :
  run (match_events r s) (set_num_found s 0) = Some s' →
  match_events r s' = [].
Proof.
  intros Hrun. pose proof (run_events_frame _ _ _ Hrun) as Hfr.
  pose proof Hfr as (_&_&_&_&Hdx&_). cbn in Hdx.
  unfold match_events. rewrite Hdx. apply bind_all_nil. intros si _.
  destruct (src_events r (length (dst_x s)) s si) as [|e l] eqn:Hev.
  - rewrite (src_events_frame (length (dst_x s)) (set_num_found s 0) s' si);
      [exact Hev|done|].
    eapply run_events_src_x; [done|].
    apply Forall_forall. intros e [_ He]%match_events_elem Heq.
    rewrite Heq, Hev in He. by apply elem_of_nil in He.
  - assert (e ∈ src_events r (length (dst_x s)) s si) as He
      by (rewrite Hev; left).
    assert (ev_si e = si) as Hsi.
    { pose proof (src_events_si (length (dst_x s)) s si) as Hall.
      rewrite Forall_forall in Hall. by apply Hall. }
    assert (src_x s' !! si = Some (-1)) as Hx.
    { eapply run_events_consumed; [done|].
      apply Exists_exists. exists e. split; [|done].
      apply match_events_elem. rewrite Hsi. split; [|done].
      unfold src_events in He.
      destruct (src_x s !! si) eqn:Hl; [|by apply elem_of_nil in He].
      by eapply lookup_lt_Some. }
    unfold src_events. rewrite Hx. by destruct (src_y s' !! si).
Qed.

End merge.

(** On well-formed point sets whose matched destination indices exist in
    the source weight array, a call runs the match events of its input and
    returns the counter. *)
Lemma Py_CombineGrids_accepts r s :
  well_formed s →
  Py_CombineGrids r s
  = s' ← kernel r (length (src_vals s)) (length (src_x s)) (length (dst_x s)) s;
    Some (s', Ok (num_found s')).
Proof.
  intros []. unfold Py_CombineGrids.
  rewrite wf_src_y0, wf_src_mask0, wf_src_wgt0, wf_dst_y0, wf_dst_mask0,
    wf_dst_wgt0, wf_channels0, !Nat.eqb_refl. cbn [negb].
  destruct (Nat.ltb_spec (length (src_vals s)) 1); [lia|done].
Qed.

Lemma merge_runs r s :
  well_formed s → weights_readable r s →
  ∃ s', Py_CombineGrids r s = Some (s', Ok (num_found s')) ∧
    run_events r (length (src_vals s)) (match_events r s) (set_num_found s 0)
    = Some s' ∧
    well_formed s'.
Proof.
  intros Hwf Hread. rewrite Py_CombineGrids_accepts by done.
  pose proof Hwf as [].
  rewrite kernel_refines by done.
  destruct (run_events_defined r (length (src_vals s)) (length (src_x s))
              (length (dst_x s)) (match_events r s) (set_num_found s 0))
    as (s' & Hrun & Hs').
  - split; [|done]. by split.
  - unfold weights_readable in Hread. rewrite Forall_forall in Hread.
    apply Forall_forall. intros e He.
    destruct (match_events_range r s e He). split; [done|]. split; [done|].
    by apply Hread.
  - exists s'. rewrite Hrun. split; [done|]. split; [done|]. apply Hs'.
Qed.

(** *** The fan-out of one source point *)

Lemma filter_at_most_one {A} (f : A → bool) (l : list A) :
  List.NoDup l →
  (∀ x y, In x l → In y l → f x = true → f y = true → x = y) →
  (length (List.filter f l) ≤ 1)%nat.
Proof.
  intros Hnd Hone. pose proof (List.NoDup_filter f Hnd) as Hndf.
  destruct (List.filter f l) as [|x [|y rest]] eqn:E; cbn; [lia|lia|].
  exfalso.
  assert (In x (List.filter f l)) as Hx by (rewrite E; by left).
  assert (In y (List.filter f l)) as Hy by (rewrite E; right; by left).
  apply filter_In in Hx as [Hxl Hfx]. apply filter_In in Hy as [Hyl Hfy].
  assert (x = y) as -> by (by apply Hone).
  inversion Hndf as [|? ? Hnin _]. apply Hnin. by left.
Qed.

Lemma dst_hits_at_most_one r s fx fy i n :
  distinct_destinations s → (length (dst_hits r s fx fy i n) ≤ 1)%nat.
Proof.
  intros Hdist.
  assert (length (List.filter (is_hit s fx fy) (seq i n)) ≤ 1)%nat as Hle.
  { apply filter_at_most_one; [apply List.seq_NoDup|].
    intros di dj _ _ Hdi Hdj. unfold is_hit in Hdi, Hdj.
    destruct (dst_x s !! di) as [xi|] eqn:Hxi; [|done].
    destruct (dst_y s !! di) as [yi|] eqn:Hyi; [|done].
    destruct (dst_x s !! dj) as [xj|] eqn:Hxj; [|done].
    destruct (dst_y s !! dj) as [yj|] eqn:Hyj; [|done].
    apply andb_true_iff in Hdi as [[H0i Hfxi]%andb_true_iff Hfyi].
    apply andb_true_iff in Hdj as [[H0j Hfxj]%andb_true_iff Hfyj].
    apply Z.eqb_eq in Hfxi, Hfyi, Hfxj, Hfyj. apply Z.leb_le in H0i.
    subst. by apply (Hdist di dj xj yj). }
  unfold dst_hits. destruct (r =? 1); [|done].
  rewrite length_take. lia.
Qed.

Lemma bind_length_le {A B} (f : A → list B) (k : nat) (l : list A) :
  (∀ x, length (f x) ≤ k)%nat → (length (l ≫= f) ≤ length l * k)%nat.
Proof.
  intros Hf. induction l as [|x l IH]; [done|].
  rewrite bind_cons, length_app. cbn [length]. specialize (Hf x). lia.
Qed.

Lemma src_events_at_most r dst_len s si :
  distinct_destinations s →
  (length (src_events r dst_len s si) ≤ Z.to_nat r * Z.to_nat r)%nat.
Proof.
  intros Hdist. unfold src_events.
  destruct (src_x s !! si) as [x|]; [|cbn; lia].
  destruct (src_y s !! si) as [y|]; [|cbn; lia].
  destruct (x <? 0); [cbn; lia|].
  etrans; [apply (bind_length_le _ (Z.to_nat r * 1))|].
  - intros x_off. etrans; [apply (bind_length_le _ 1)|].
    + intros y_off. unfold offset_events. rewrite length_fmap.
      by apply dst_hits_at_most_one.
    + by rewrite length_seq.
  - rewrite length_seq. lia.
Qed.

Lemma events_of_own i (l : list event) :
  Forall (λ e, ev_si e = i) l → events_of i l = l.
Proof.
  induction l as [|e l IH]; intros Hl; [done|].
  apply Forall_cons in Hl as [He Hl]. unfold events_of in *. cbn.
  rewrite He, Nat.eqb_refl. f_equal. by apply IH.
Qed.

Lemma events_of_other i j (l : list event) :
  j ≠ i → Forall (λ e, ev_si e = j) l → events_of i l = [].
Proof.
  intros Hne. induction l as [|e l IH]; intros Hl; [done|].
  apply Forall_cons in Hl as [He Hl]. unfold events_of in *. cbn.
  rewrite He. destruct (Nat.eqb_spec j i); [done|]. by apply IH.
Qed.

Lemma events_of_bind i (f : nat → list event) n : ∀ a,
  (∀ j, Forall (λ e, ev_si e = j) (f j)) →
  events_of i (seq a n ≫= f)
  = if bool_decide (a ≤ i < a + n)%nat then f i else [].
Proof.
  induction n as [|n IH]; intros a Hf.
  - cbn. case_bool_decide; [lia|done].
  - cbn [seq]. rewrite bind_cons.
    assert (events_of i (f a ++ seq (S a) n ≫= f)
            = events_of i (f a) ++ events_of i (seq (S a) n ≫= f)) as ->
      by apply List.filter_app.
    rewrite (IH (S a)) by done.
    destruct (decide (a = i)) as [->|Hne].
    + rewrite events_of_own by done.
      rewrite (bool_decide_eq_false_2 (S i ≤ i < S i + n)%nat) by lia.
      rewrite (bool_decide_eq_true_2 (i ≤ i < i + S n)%nat) by lia.
      by rewrite app_nil_r.
    + rewrite (events_of_other i a) by done.
      cbn [app]. repeat case_bool_decide; (done || lia).
Qed.

(** The events of one source point are those of its turn of the scan. *)
Lemma events_of_match_events r s i :
  events_of i (match_events r s)
  = if bool_decide (i < length (src_x s))%nat
    then src_events r (length (dst_x s)) s i else [].
Proof.
  unfold match_events. rewrite events_of_bind by (intros; apply src_events_si).
  repeat case_bool_decide; (done || lia).
Qed.

(** C1: every match recorded by the merge adds to the weight of
    destination point [j] the entry of the SOURCE weight array at the
    destination's own index [j] ([dst_wgt[di] += src_wgt[di]]): after a
    call the weight at [j] is its old value with [src_wgt[j]] added once
    per match event that landed on [j], a destination point without a match
    keeps its weight, and the source weights are not written.  The addend
    is neither the weight of the matching source point nor the
    destination's own weight. *)
Theorem C1_weight_addend r s :
  well_formed s → weights_readable r s →
  ∃ s', Py_CombineGrids r s = Some (s', Ok (num_found s')) ∧
    (∀ j w0 ws, dst_wgt s !! j = Some w0 → src_wgt s !! j = Some ws →
       dst_wgt s' !! j
       = Some (Nat.iter (length (events_at j (match_events r s)))
                 (λ w, (w + ws)%float) w0)) ∧
    (∀ j, events_at j (match_events r s) = [] →
       dst_wgt s' !! j = dst_wgt s !! j) ∧
    src_wgt s' = src_wgt s.
Proof.
  intros Hwf Hread.
  destruct (merge_runs r s Hwf Hread) as (s' & Hcall & Hrun & _).
  exists s'. split; [done|]. split; [|split].
  - intros j w0 ws Hw0 Hws.
    by apply (run_events_dst_wgt r (length (src_vals s)) j ws _
                (set_num_found s 0)).
  - intros j Hno.
    by apply (run_events_dst_wgt_untouched r (length (src_vals s)) j
                (match_events r s) (set_num_found s 0)).
  - by apply run_events_frame in Hrun as (_&_&->&_).
Qed.

(** The second source point (weight 20) matches the only destination point
    (weight 1, index 0): the new weight is 1 + [src_wgt[0]] = 11, not
    1 + 20 and not 1 + 1. *)
Lemma C1_weight_addend_witness :
  ∃ s', Py_CombineGrids 1 weight_input = Some (s', Ok (num_found s')) ∧
    dst_wgt s' !! 0%nat = Some 11%float.
Proof.
  destruct (C1_weight_addend 1 weight_input) as (s' & Hcall & Hw & _).
  - split; simpl; repeat constructor.
  - unfold weights_readable. vm_compute. repeat constructor.
  - exists s'. split; [exact Hcall|].
    exact (Hw 0%nat 1%float 10%float eq_refl eq_refl).
Defined.

(** C4: the merge returns the number of match events of the call, one per
    (sub-offset, destination point) pair whose fine coordinates agree,
    counted in a C [int], not the number of source points that matched.
    With factor 2 one source point reaches four distinct destination
    points, one under each sub-offset, and the call returns 4 although a
    single source point matched; when no two destination points share
    their coordinates a source point has at most one match per sub-offset,
    [r * r] in all. *)
Theorem C4_match_count :
  (∀ r s, well_formed s → weights_readable r s →
     ∃ s' n, Py_CombineGrids r s = Some (s', Ok n) ∧
       n = int32 (Z.of_nat (length (match_events r s))) ∧
       (Z.of_nat (length (match_events r s)) ≤ INT_MAX →
        n = Z.of_nat (length (match_events r s)))) ∧
  (∃ s', Py_CombineGrids 2 fan_out_input = Some (s', Ok 4) ∧
     match_events 2 fan_out_input
     = [mkEvent 0 0 0 0; mkEvent 0 0 1 1; mkEvent 0 1 0 2; mkEvent 0 1 1 3] ∧
     src_x s' = [-1; 7; 8; 9]) ∧
  (∀ r s i, distinct_destinations s →
     (length (events_of i (match_events r s)) ≤ Z.to_nat r * Z.to_nat r)%nat).
Proof.
  split; [|split].
  - intros r s Hwf Hread.
    destruct (merge_runs r s Hwf Hread) as (s' & Hcall & Hrun & _).
    exists s', (num_found s'). split; [done|].
    apply run_events_num_found in Hrun; [|done].
    cbn [num_found set_num_found] in Hrun. rewrite Z.add_0_l in Hrun.
    split; [done|]. intros Hle. rewrite Hrun. apply int32_small.
    unfold INT_MIN. lia.
  - eexists. split; [vm_compute; reflexivity|]. split; reflexivity.
  - intros r s i Hdist. rewrite events_of_match_events.
    case_bool_decide; [by apply src_events_at_most|cbn; lia].
Qed.

Lemma C4_match_count_witness :
  ∃ s' n, Py_CombineGrids 2 fan_out_input = Some (s', Ok n) ∧ n = 4.
Proof.
  destruct (proj1 C4_match_count 2 fan_out_input) as (s' & n & Hcall & Hn & _).
  - split; simpl; repeat constructor.
  - unfold weights_readable. vm_compute. repeat constructor.
  - exists s', n. split; [exact Hcall|]. exact Hn.
Defined.

(** After a call the mask of destination point [j] is its old value
    passed through [mask_rule] once per match event on [j].  With factor 1
    the rule is the logical AND of the two masks; with another factor it
    yields the truth value of the destination mask, so that a matched mask
    that was 0 or 1 is as before. *)
Lemma merged_mask r s :
  well_formed s → weights_readable r s →
  ∃ s', Py_CombineGrids r s = Some (s', Ok (num_found s')) ∧
    ∀ j md0, dst_mask s !! j = Some md0 →
      let masks := source_masks s (events_at j (match_events r s)) in
      dst_mask s' !! j
      = Some (fold_left (λ md ms, mask_rule r ms md) masks md0) ∧
      (r = 1 →
       dst_mask s' !! j
       = Some (fold_left (λ md ms, b2z (truthy ms && truthy md)) masks md0)) ∧
      (r ≠ 1 →
       dst_mask s' !! j
       = Some (match masks with [] => md0 | _ => b2z (truthy md0) end)) ∧
      (r ≠ 1 → md0 = 0 ∨ md0 = 1 → dst_mask s' !! j = Some md0).
Proof.
  intros Hwf Hread.
  destruct (merge_runs r s Hwf Hread) as (s' & Hcall & Hrun & _).
  exists s'. split; [done|]. intros j md0 Hmd0 masks.
  pose proof (run_events_dst_mask r (length (src_vals s)) j _
                (set_num_found s 0) s' md0 Hrun Hmd0) as Hfold.
  change (source_masks (set_num_found s 0)) with (source_masks s) in Hfold.
  fold masks in Hfold. split; [done|]. split; [|split].
  - intros ->. by rewrite Hfold, fold_mask_same_level.
  - intros Hr. by rewrite Hfold, fold_mask_refined.
  - intros Hr Hbit. rewrite Hfold, fold_mask_refined by done.
    destruct masks; [done|]. by destruct Hbit as [-> | ->].
Qed.


(** C5, as stated, fails: marking a source point consumed does not stop
    the matching of that point within the call.  Were it so, a call would
    record at most one match per consumed source point; the factor-2 call
    on [fan_out_input] records four matches and consumes one point. *)
Lemma C5_marker_does_not_stop_the_scan :
  ¬ (∀ r s s' n, well_formed s → Py_CombineGrids r s = Some (s', Ok n) →
       n ≤ Z.of_nat (length (List.filter (λ x, x =? -1) (src_x s')))).
Proof.
  intros H.
  specialize (H 2 fan_out_input
    (mkState [-1; 7; 8; 9] [0; 7; 8; 9] [1; 1; 1; 1]
       [10%float; 20%float; 30%float; 40%float]
       [[100%float; 200%float; 300%float; 400%float]]
       [0; 0; 1; 1] [0; 1; 0; 1] [1; 1; 1; 1]
       [11%float; 22%float; 33%float; 44%float]
       [[100%float; 100%float; 100%float; 100%float]] 4) 4).
  simpl in H. enough (4 ≤ 1) by lia.
  apply H; [split; simpl; repeat constructor | reflexivity].
Qed.

(** C5 (amended): a source point with at least one match event has its
    [x] overwritten with -1 by the end of the call and a source point with
    none keeps its [x]; in a repeated call on the same buffers the marked
    points are skipped, so that the repeated call finds no match at all,
    returns 0 and writes nothing.  Within the call the marker does not end
    the scan of the point that set it. *)
Theorem C5_consumed_marker r s :
  well_formed s → weights_readable r s →
  ∃ s', Py_CombineGrids r s = Some (s', Ok (num_found s')) ∧
    (∀ i, Exists (λ e, ev_si e = i) (match_events r s) →
       src_x s' !! i = Some (-1)) ∧
    (∀ i, Forall (λ e, ev_si e ≠ i) (match_events r s) →
       src_x s' !! i = src_x s !! i) ∧
    match_events r s' = [] ∧
    Py_CombineGrids r s' = Some (set_num_found s' 0, Ok 0).
Proof.
  intros Hwf Hread.
  destruct (merge_runs r s Hwf Hread) as (s' & Hcall & Hrun & Hwf').
  exists s'. split; [done|].
  pose proof (rerun_finds_nothing r _ s s' Hrun) as Hnone.
  split; [|split; [|split; [done|]]].
  - intros i Hex. by eapply run_events_consumed.
  - intros i Hall.
    by apply (run_events_src_x r (length (src_vals s)) (match_events r s)
                (set_num_found s 0)).
  - destruct (merge_runs r s' Hwf') as (s'' & Hcall' & Hrun' & _).
    + unfold weights_readable. by rewrite Hnone.
    + rewrite Hnone in Hrun'. cbn in Hrun'. by simplify_eq.
Qed.

Lemma C5_consumed_marker_witness :
  ∃ s', Py_CombineGrids 2 fan_out_input = Some (s', Ok (num_found s')) ∧
    src_x s' !! 0%nat = Some (-1) ∧ src_x s' !! 1%nat = Some 7 ∧
    Py_CombineGrids 2 s' = Some (set_num_found s' 0, Ok 0).
Proof.
  destruct (C5_consumed_marker 2 fan_out_input)
    as (s' & Hcall & Hhit & Hmiss & _ & Hagain).
  - split; simpl; repeat constructor.
  - unfold weights_readable. vm_compute. repeat constructor.
  - exists s'. split; [exact Hcall|]. split; [|split; [|exact Hagain]].
    + apply Hhit. vm_compute. by left.
    + rewrite Hmiss; [reflexivity|]. vm_compute. by repeat constructor.
Defined.

(** ** The cube mapper *)

Section cube.
Import NumPy DataCube.
Variable to_call : float * float → float * float.

Lemma getptr3_offset {A} (arr : ndarray A) d0 d1 d2 x y z :
  dimensions arr = [d0; d1; d2] →
  PyArray_GETPTR3 arr (Z.of_nat x) (Z.of_nat y) (Z.of_nat z)
  = Some (Z.of_nat ((x * d1 + y) * d2 + z)).
Proof.
  intros Hd. unfold PyArray_GETPTR3. rewrite Hd. cbn. f_equal. lia.
Qed.

Lemma load_nat {A} (arr : ndarray A) o : load arr (Z.of_nat o) = data arr !! o.
Proof.
  unfold load. destruct (Z.ltb_spec (Z.of_nat o) 0); [lia|].
  by rewrite Nat2Z.id.
Qed.

Lemma store_nat {A} (arr : ndarray A) o v :
  (o < length (data arr))%nat →
  store arr (Z.of_nat o) v
  = Some (mkArray (dimensions arr) (<[o := v]> (data arr))).
Proof.
  intros Ho. unfold store.
  destruct (Z.leb_spec 0 (Z.of_nat o)); [|lia].
  destruct (Z.ltb_spec (Z.of_nat o) (Z.of_nat (length (data arr)))); [|lia].
  by rewrite Nat2Z.id.
Qed.

Lemma for_range_one {St} (body : Z → St → option St) i s :
  for_range body (Z.of_nat i) (Z.of_nat i + 1) s = body (Z.of_nat i) s.
Proof.
  unfold for_range. rewrite Nat2Z.id.
  replace (Z.to_nat (Z.of_nat i + 1 - Z.of_nat i)) with 1%nat by lia.
  simpl. by destruct (body (Z.of_nat i) s).
Qed.

Lemma for_range_from_0 {St} (body : Z → St → option St) n s :
  for_range body 0 (Z.of_nat n) s = for_loop (λ i, body (Z.of_nat i)) 0 n s.
Proof.
  unfold for_range. rewrite Z.sub_0_r, Nat2Z.id. done.
Qed.

Lemma offset_in_range d0 d1 d2 x y z :
  (x < d0)%nat → (y < d1)%nat → (z < d2)%nat →
  ((x * d1 + y) * d2 + z < d0 * d1 * d2)%nat.
Proof.
  intros Hx Hy Hz.
  assert (x * d1 + y + 1 ≤ d0 * d1)%nat as Hxy by nia.
  assert ((x * d1 + y + 1) * d2 ≤ d0 * d1 * d2)%nat
    by (by apply Nat.mul_le_mono_r).
  lia.
Qed.

(** A pair of cells with the same index is the cell at one offset of both
    buffers. *)
Lemma visit_same_cell d0 d1 d2 x y z s :
  buffers_shaped d0 d1 d2 s →
  (x < d0)%nat → (y < d1)%nat → (z < d2)%nat →
  visit to_call (Z.of_nat x) (Z.of_nat y) (Z.of_nat z)
    (Z.of_nat x) (Z.of_nat y) (Z.of_nat z) s
  = let o := ((x * d1 + y) * d2 + z)%nat in
    v1 ← data (ac_data s) !! o;
    v2 ← data (ag_data s) !! o;
    let v := to_call (v1, v2) in
    Some (mkState
            (mkArray (dimensions (ag_data s)) (<[o := v.2]> (data (ag_data s))))
            (mkArray (dimensions (ac_data s)) (<[o := v.1]> (data (ac_data s))))
            (int64 (total s + 1))).
Proof.
  intros (Hg & Hc & Hlg & Hlc) Hx Hy Hz.
  pose proof (offset_in_range d0 d1 d2 x y z Hx Hy Hz) as Ho.
  unfold visit.
  rewrite (getptr3_offset _ d0 d1 d2) by done.
  rewrite (getptr3_offset _ d0 d1 d2) by done.
  cbn [mbind option_bind]. rewrite !load_nat.
  destruct (data (ac_data s) !! _) as [v1|]; [|done].
  destruct (data (ag_data s) !! _) as [v2|]; [|done].
  cbn [mbind option_bind]. rewrite !store_nat by lia. done.
Qed.

Lemma cell_step_shaped d0 d1 d2 a o s s' :
  buffers_shaped d0 d1 d2 s → cell_step to_call a o s = Some s' →
  buffers_shaped d0 d1 d2 s'.
Proof.
  intros (Hg & Hc & Hlg & Hlc). unfold cell_step. intros H.
  destruct (data (g_cm a) !! o) as [cm|]; [|done]. cbn in H.
  destruct ((ll a =? 0) && (cm =? 0)); [by simplify_eq|].
  destruct (data (ac_data s) !! o) as [v1|]; [|done].
  destruct (data (ag_data s) !! o) as [v2|]; [|done].
  cbn in H. simplify_eq. repeat split; cbn; by rewrite ?length_insert.
Qed.

Section exact_grid.
Variable a : args.
Variables d0 d1 d2 : nat.
Hypothesis Hshape : shaped a d0 d1 d2.
Hypothesis Hexact : exact a.

Local Abbreviation step := (cell_step to_call a).
Local Abbreviation Inv := (buffers_shaped d0 d1 d2).

Lemma steps_shaped n i s s' : Inv s → for_loop step i n s = Some s' → Inv s'.
Proof.
  apply (for_loop_invariant Inv). intros k t t'. apply cell_step_shaped.
Qed.

Lemma zg_body_exact x y z s :
  Inv s → (x < d0)%nat → (y < d1)%nat → (z < d2)%nat →
  zg_body to_call a (Z.of_nat x) (Z.of_nat y)
    (Z.of_nat x, Z.of_nat x + 1) (Z.of_nat y, Z.of_nat y + 1) (Z.of_nat z) s
  = step ((x * d1 + y) * d2 + z)%nat s.
Proof.
  intros HI Hx Hy Hz. destruct Hshape as (Hgd & Hcd & Hcm & _).
  unfold zg_body, cell_step.
  rewrite (getptr3_offset _ d0 d1 d2) by done.
  cbn [mbind option_bind]. rewrite load_nat.
  destruct (data (g_cm a) !! _) as [cm|]; [|done]. cbn [mbind option_bind].
  destruct ((ll a =? 0) && (cm =? 0)); [done|].
  rewrite (Hexact 2%nat d2 z) by (by rewrite ?Hgd). cbn [mbind option_bind fst snd].
  rewrite !for_range_one. by rewrite (visit_same_cell d0 d1 d2).
Qed.

Lemma yg_body_exact x y s :
  Inv s → (x < d0)%nat → (y < d1)%nat →
  yg_body to_call a [d0; d1; d2] (Z.of_nat x) (Z.of_nat x, Z.of_nat x + 1)
    (Z.of_nat y) s
  = for_loop step ((x * d1 + y) * d2)%nat d2 s.
Proof.
  intros HI Hx Hy. destruct Hshape as (Hgd & _).
  unfold yg_body. rewrite (Hexact 1%nat d1 y) by (by rewrite ?Hgd).
  cbn [mbind option_bind lookup list_lookup]. rewrite for_range_from_0.
  rewrite (for_loop_ext_inv Inv 0%nat d2 _
             (λ k, step ((x * d1 + y) * d2 + k)%nat)); try done; try lia.
  - rewrite (for_loop_shift step). by rewrite Nat.add_0_r.
  - intros k t Ht Hk. apply zg_body_exact; (done || lia).
  - intros k t t' Ht _. apply cell_step_shaped. done.
Qed.

Lemma xg_body_exact x s :
  Inv s → (x < d0)%nat →
  xg_body to_call a [d0; d1; d2] (Z.of_nat x) s
  = for_loop step (x * (d1 * d2))%nat (d1 * d2)%nat s.
Proof.
  intros HI Hx. destruct Hshape as (Hgd & _).
  unfold xg_body. rewrite (Hexact 0%nat d0 x) by (by rewrite ?Hgd).
  cbn [mbind option_bind lookup list_lookup]. rewrite for_range_from_0.
  rewrite (for_loop_ext_inv Inv 0%nat d1 _
             (λ k, for_loop step (x * (d1 * d2) + k * d2)%nat d2));
    try done; try lia.
  - rewrite (for_loop_blocks step). f_equal. lia.
  - intros k t Ht Hk. rewrite yg_body_exact by (done || lia). f_equal. lia.
  - intros k t t' Ht _. by apply steps_shaped.
Qed.

(** On an exact grid the six nested loops are one pass over the cells. *)
Lemma kernel_exact :
  kernel to_call a
  = for_loop step 0 (d0 * d1 * d2)%nat (mkState (g_data a) (c_data a) 0).
Proof.
  pose proof Hshape as (Hgd & Hcd & Hcm & Hgok & Hcok & _).
  assert (Inv (mkState (g_data a) (c_data a) 0)) as HI.
  { unfold array_ok, PyArray_SIZE in Hgok, Hcok.
    rewrite Hgd in Hgok. rewrite Hcd in Hcok. cbn in Hgok, Hcok.
    repeat split; cbn; (done || lia). }
  unfold kernel. rewrite Hgd. cbn [mbind option_bind lookup list_lookup].
  rewrite for_range_from_0.
  rewrite (for_loop_ext_inv Inv 0%nat d0 _
             (λ k, for_loop step (0 + k * (d1 * d2))%nat (d1 * d2)%nat));
    try done; try lia.
  - rewrite (for_loop_blocks step). f_equal. lia.
  - intros k t Ht Hk. rewrite xg_body_exact by (done || lia). f_equal.
  - intros k t t' Ht _. by apply steps_shaped.
Qed.

End exact_grid.

(** One turn of the flat pass rewrites the pair of cells at its offset with
    the combine rule, unless the source cell is left out. *)
Lemma cell_step_spec a d0 d1 d2 o s :
  buffers_shaped d0 d1 d2 s → (o < d0 * d1 * d2)%nat →
  (o < length (data (g_cm a)))%nat →
  ∃ s', cell_step to_call a o s = Some s' ∧ buffers_shaped d0 d1 d2 s' ∧
    ∀ o' vc vg,
      data (ac_data s) !! o' = Some vc → data (ag_data s) !! o' = Some vg →
      let hit := (o' =? o)%nat && negb (skipped a o) in
      data (ac_data s') !! o' = Some (if hit then (to_call (vc, vg)).1 else vc) ∧
      data (ag_data s') !! o' = Some (if hit then (to_call (vc, vg)).2 else vg).
Proof.
  intros HI Ho Hcm. pose proof HI as (Hg & Hc & Hlg & Hlc).
  destruct (lookup_lt_is_Some_2 (data (g_cm a)) o) as [cm Hcmo]; [lia|].
  destruct (lookup_lt_is_Some_2 (data (ac_data s)) o) as [v1 Hv1]; [lia|].
  destruct (lookup_lt_is_Some_2 (data (ag_data s)) o) as [v2 Hv2]; [lia|].
  destruct (cell_step to_call a o s) as [s'|] eqn:Hstep.
  2:{ unfold cell_step in Hstep. rewrite Hcmo, Hv1, Hv2 in Hstep. cbn in Hstep.
      by destruct ((ll a =? 0) && (cm =? 0)). }
  exists s'. split; [done|]. split; [by eapply cell_step_shaped|].
  intros o' vc vg Hvc Hvg. unfold skipped. rewrite Hcmo.
  unfold cell_step in Hstep. rewrite Hcmo, Hv1, Hv2 in Hstep. cbn in Hstep.
  destruct ((ll a =? 0) && (cm =? 0)); simplify_eq; cbn.
  - by rewrite andb_false_r.
  - rewrite andb_true_r. destruct (Nat.eqb_spec o' o) as [->|Hne].
    + simplify_eq. rewrite !list_lookup_insert_eq by lia. done.
    + rewrite !list_lookup_insert_ne by done. done.
Qed.

Lemma touched_step a i n o :
  touched a i (S n) o
  = if (o =? i)%nat then negb (skipped a i) else touched a (S i) n o.
Proof.
  unfold touched. destruct (Nat.eqb_spec o i) as [->|Hne].
  - replace (i <=? i)%nat with true by (symmetry; apply Nat.leb_le; lia).
    replace (i <? i + S n)%nat with true by (symmetry; apply Nat.ltb_lt; lia).
    done.
  - f_equal. replace (i + S n)%nat with (S i + n)%nat by lia. f_equal.
    destruct (Nat.leb_spec i o), (Nat.leb_spec (S i) o); (done || lia).
Qed.

Lemma touched_before a i n o : (o < i)%nat → touched a i n o = false.
Proof.
  intros H. unfold touched.
  by replace (i <=? o)%nat with false by (symmetry; apply Nat.leb_gt; lia).
Qed.

(** The flat pass rewrites every pair of cells it meets with the combine
    rule, each from the values the call started with, and nothing else. *)
Lemma flat_pass_spec a d0 d1 d2 n : ∀ i s,
  buffers_shaped d0 d1 d2 s → (i + n ≤ d0 * d1 * d2)%nat →
  (i + n ≤ length (data (g_cm a)))%nat →
  ∃ s', for_loop (cell_step to_call a) i n s = Some s' ∧
    buffers_shaped d0 d1 d2 s' ∧
    ∀ o vc vg,
      data (ac_data s) !! o = Some vc → data (ag_data s) !! o = Some vg →
      data (ac_data s') !! o
      = Some (if touched a i n o then (to_call (vc, vg)).1 else vc) ∧
      data (ag_data s') !! o
      = Some (if touched a i n o then (to_call (vc, vg)).2 else vg).
Proof.
  induction n as [|n IH]; intros i s HI Hn Hcm.
  - exists s. split; [done|]. split; [done|]. intros o vc vg Hvc Hvg.
    unfold touched.
    destruct (Nat.leb_spec i o), (Nat.ltb_spec o (i + 0)); (done || lia).
  - destruct (cell_step_spec a d0 d1 d2 i s) as (s1 & Hs1 & HI1 & Hp1);
      [done|lia|lia|].
    destruct (IH (S i) s1) as (s' & Hs' & HI' & Hp'); [done|lia|lia|].
    exists s'. cbn [for_loop]. rewrite Hs1. cbn [mbind option_bind].
    split; [done|]. split; [done|]. intros o vc vg Hvc Hvg.
    destruct (Hp1 o vc vg Hvc Hvg) as [Hc1 Hg1]. cbn zeta in Hc1, Hg1.
    destruct (Hp' o _ _ Hc1 Hg1) as [Hc' Hg'].
    rewrite Hc', Hg', touched_step.
    destruct (Nat.eqb_spec o i) as [->|Hne]; cbn [andb].
    + rewrite touched_before by lia. done.
    + done.
Qed.

(** Whatever every visited pair keeps, the call keeps. *)
Section kernel_invariant.
Variable P : state → Prop.
Hypothesis Hvisit : ∀ xg yg zg xc yc zc s s',
  P s → visit to_call xg yg zg xc yc zc s = Some s' → P s'.

Lemma for_range_invariant (body : Z → state → option state) lo hi s s' :
  (∀ i t t', P t → body i t = Some t' → P t') →
  P s → for_range body lo hi s = Some s' → P s'.
Proof.
  intros Hbody HP. unfold for_range.
  apply (for_loop_invariant P); [|done]. intros i t t'. apply Hbody.
Qed.

Lemma zg_body_invariant a xg yg cx cy zg s s' :
  P s → zg_body to_call a xg yg cx cy zg s = Some s' → P s'.
Proof.
  intros HP. unfold zg_body.
  destruct (PyArray_GETPTR3 (g_cm a) xg yg zg) as [p|]; [|done]. cbn.
  destruct (load (g_cm a) p) as [cm|]; [|done]. cbn.
  destruct ((ll a =? 0) && (cm =? 0)); [by intros; simplify_eq|].
  destruct (axis_range a 2 zg) as [[cz|]|]; cbn; [|by intros; simplify_eq|done].
  apply for_range_invariant; [|done]. intros xc t t' Ht.
  apply for_range_invariant; [|done]. intros yc u u' Hu.
  apply for_range_invariant; [|done]. intros zc v v'. apply Hvisit.
Qed.

Lemma yg_body_invariant a dims xg cx yg s s' :
  P s → yg_body to_call a dims xg cx yg s = Some s' → P s'.
Proof.
  intros HP. unfold yg_body.
  destruct (axis_range a 1 yg) as [[cy|]|]; cbn; [|by intros; simplify_eq|done].
  destruct (dims !! 2%nat) as [n2|]; [|done]. cbn.
  apply for_range_invariant; [|done]. intros zg t t'. apply zg_body_invariant.
Qed.

Lemma xg_body_invariant a dims xg s s' :
  P s → xg_body to_call a dims xg s = Some s' → P s'.
Proof.
  intros HP. unfold xg_body.
  destruct (axis_range a 0 xg) as [[cx|]|]; cbn; [|by intros; simplify_eq|done].
  destruct (dims !! 1%nat) as [n1|]; [|done]. cbn.
  apply for_range_invariant; [|done]. intros yg t t'. apply yg_body_invariant.
Qed.

Lemma kernel_invariant a s' :
  P (mkState (g_data a) (c_data a) 0) → kernel to_call a = Some s' → P s'.
Proof.
  intros HP. unfold kernel.
  destruct (dimensions (g_data a) !! 0%nat) as [n0|]; [|done]. cbn.
  apply for_range_invariant; [|done]. intros xg t t'. apply xg_body_invariant.
Qed.

End kernel_invariant.

Lemma DataCubeGeneric_accepts a d0 d1 d2 :
  shaped a d0 d1 d2 →
  DataCubeGeneric a to_call
  = s ← kernel to_call a;
    Some (set_data a (ag_data s) (ac_data s), Ok (total s)).
Proof.
  intros (Hg & Hc & Hcm & _ & _ & _ & H1 & H2 & H3 & H4 & H5).
  unfold DataCubeGeneric, three_dimensions, nd.
  by rewrite H1, H2, H3, H4, H5, Hg, Hc, Hcm.
Qed.

Lemma DataCubeGeneric_returns a a' n :
  DataCubeGeneric a to_call = Some (a', Ok n) →
  ∃ s, kernel to_call a = Some s ∧
    a' = set_data a (ag_data s) (ac_data s) ∧ n = total s.
Proof.
  unfold DataCubeGeneric. intros H.
  repeat (match type of H with
          | (if ?b then _ else _) = _ => destruct b; [done|]
          end).
  destruct (kernel to_call a) as [s|]; [|done]. cbn in H. simplify_eq.
  by exists s.
Qed.

End cube.

Section cube_claims.
Import NumPy DataCube.

Lemma ndarray_eta {A} (arr : ndarray A) :
  mkArray (dimensions arr) (data arr) = arr.
Proof. by destruct arr. Qed.

Lemma store_over {A} (arr : ndarray A) p v0 v :
  load arr p = Some v0 →
  store arr p v = Some (mkArray (dimensions arr) (<[Z.to_nat p := v]> (data arr))).
Proof.
  unfold load, store. destruct (Z.ltb_spec p 0); [done|]. intros Hl.
  apply lookup_lt_Some in Hl.
  destruct (Z.leb_spec 0 p); [|lia].
  destruct (Z.ltb_spec p (Z.of_nat (length (data arr)))); [done|lia].
Qed.

Lemma store_same {A} (arr : ndarray A) p v :
  load arr p = Some v → store arr p v = Some arr.
Proof.
  intros Hl. rewrite (store_over arr p v v Hl). unfold load in Hl.
  destruct (p <? 0); [done|]. by rewrite list_insert_id, ndarray_eta.
Qed.

(** The refine rule writes the cube cell and the replace rule the source
    cell. *)
Lemma visit_rules s xg yg zg xc yc zc val1 val2 v1 v2 :
  PyArray_GETPTR3 (ac_data s) xc yc zc = Some val1 →
  PyArray_GETPTR3 (ag_data s) xg yg zg = Some val2 →
  load (ac_data s) val1 = Some v1 → load (ag_data s) val2 = Some v2 →
  visit dcRefine xg yg zg xc yc zc s
  = Some (mkState (ag_data s)
            (mkArray (dimensions (ac_data s))
               (<[Z.to_nat val1 := v2]> (data (ac_data s))))
            (int64 (total s + 1))) ∧
  visit dcReplace xg yg zg xc yc zc s
  = Some (mkState
            (mkArray (dimensions (ag_data s))
               (<[Z.to_nat val2 := v1]> (data (ag_data s))))
            (ac_data s) (int64 (total s + 1))).
Proof.
  intros Hp1 Hp2 Hl1 Hl2. unfold visit, dcRefine, dcReplace.
  rewrite Hp1, Hp2. cbn [mbind option_bind]. rewrite Hl1, Hl2.
  cbn [mbind option_bind fst snd].
  rewrite (store_over _ _ v1 v2 Hl1), (store_same _ _ v2 Hl2).
  rewrite (store_same _ _ v1 Hl1), (store_over _ _ v2 v1 Hl2). done.
Qed.

Lemma visit_refine_keeps_grid xg yg zg xc yc zc s s' :
  visit dcRefine xg yg zg xc yc zc s = Some s' → ag_data s' = ag_data s.
Proof.
  intros H. pose proof H as H'. unfold visit in H'.
  destruct (PyArray_GETPTR3 (ac_data s) xc yc zc) as [p1|] eqn:Hp1; [|done].
  destruct (PyArray_GETPTR3 (ag_data s) xg yg zg) as [p2|] eqn:Hp2; [|done].
  cbn in H'.
  destruct (load (ac_data s) p1) as [v1|] eqn:Hl1; [|done].
  destruct (load (ag_data s) p2) as [v2|] eqn:Hl2; [|done].
  destruct (visit_rules s xg yg zg xc yc zc p1 p2 v1 v2) as [Hr _]; try done.
  rewrite Hr in H. by simplify_eq.
Qed.

Lemma visit_replace_keeps_cube xg yg zg xc yc zc s s' :
  visit dcReplace xg yg zg xc yc zc s = Some s' → ac_data s' = ac_data s.
Proof.
  intros H. pose proof H as H'. unfold visit in H'.
  destruct (PyArray_GETPTR3 (ac_data s) xc yc zc) as [p1|] eqn:Hp1; [|done].
  destruct (PyArray_GETPTR3 (ag_data s) xg yg zg) as [p2|] eqn:Hp2; [|done].
  cbn in H'.
  destruct (load (ac_data s) p1) as [v1|] eqn:Hl1; [|done].
  destruct (load (ag_data s) p2) as [v2|] eqn:Hl2; [|done].
  destruct (visit_rules s xg yg zg xc yc zc p1 p2 v1 v2) as [_ Hr]; try done.
  rewrite Hr in H. by simplify_eq.
Qed.

Lemma shaped_set_data a d0 d1 d2 s :
  shaped a d0 d1 d2 → buffers_shaped d0 d1 d2 s →
  shaped (set_data a (ag_data s) (ac_data s)) d0 d1 d2.
Proof.
  intros (Hg & Hc & Hcm & Hgok & Hcok & Hcmok & H1 & H2 & H3 & H4 & H5)
    (Hsg & Hsc & Hlg & Hlc).
  unfold shaped, array_ok, PyArray_SIZE. cbn. rewrite Hsg, Hsc. cbn.
  repeat split; try done; lia.
Qed.

Lemma exact_set_data a g c :
  dimensions g = dimensions (g_data a) → dimensions c = dimensions (c_data a) →
  exact a → exact (set_data a g c).
Proof.
  intros Hg Hc Hex axis d i Hd Hi. cbn in Hd. rewrite Hg in Hd.
  rewrite <- (Hex axis d i Hd Hi). unfold axis_range. cbn. by rewrite Hc.
Qed.

(** A pass over an exact grid, from the entry point. *)
Lemma exact_pass to_call a d0 d1 d2 :
  shaped a d0 d1 d2 → exact a →
  ∃ s, DataCubeGeneric a to_call
       = Some (set_data a (ag_data s) (ac_data s), Ok (total s)) ∧
    buffers_shaped d0 d1 d2 s ∧
    ∀ o vc vg,
      data (c_data a) !! o = Some vc → data (g_data a) !! o = Some vg →
      data (ac_data s) !! o
      = Some (if touched a 0 (d0 * d1 * d2) o then (to_call (vc, vg)).1 else vc) ∧
      data (ag_data s) !! o
      = Some (if touched a 0 (d0 * d1 * d2) o then (to_call (vc, vg)).2 else vg).
Proof.
  intros Hsh Hex. pose proof Hsh as (Hg & Hc & Hcm & Hgok & Hcok & Hcmok & _).
  unfold array_ok, PyArray_SIZE in Hgok, Hcok, Hcmok.
  rewrite Hg in Hgok. rewrite Hc in Hcok. rewrite Hcm in Hcmok.
  cbn in Hgok, Hcok, Hcmok.
  destruct (flat_pass_spec to_call a d0 d1 d2 (d0 * d1 * d2) 0
              (mkState (g_data a) (c_data a) 0))
    as (s & Hrun & HI & Hp).
  - repeat split; cbn; (done || lia).
  - lia.
  - lia.
  - exists s. rewrite (DataCubeGeneric_accepts to_call a d0 d1 d2 Hsh).
    rewrite (kernel_exact to_call a d0 d1 d2 Hsh Hex), Hrun. done.
Qed.

(** C2, as stated, fails: on a grid and a cube of one cell each (source
    value 7, cube value 3) the refine rule leaves the source cell at 7 and
    puts 7 into the cube cell, and the replace rule leaves the cube cell at
    3 and puts 3 into the source cell: the directions are the other way
    round. *)
Lemma C2_directions_are_swapped :
  ∃ a1 a2,
    Py_DataCubeRefine unit_cell = Some (a1, Ok 1) ∧
    Py_DataCubeReplace unit_cell = Some (a2, Ok 1) ∧
    data (g_data a1) ≠ data (c_data unit_cell) ∧
    data (c_data a1) = data (g_data unit_cell) ∧
    data (c_data a2) ≠ data (g_data unit_cell) ∧
    data (g_data a2) = data (c_data unit_cell).
Proof.
  do 2 eexists. split; [vm_compute; reflexivity|].
  split; [vm_compute; reflexivity|]. cbn.
  split; [|split; [reflexivity|split; [|reflexivity]]].
  - intros H. apply (f_equal (fmap Prim2SF)) in H. discriminate H.
  - intros H. apply (f_equal (fmap Prim2SF)) in H. discriminate H.
Qed.

(** C2 (amended): for every (source cell, cube cell) pair visited, the
    refine rule copies the source grid cell's value into the cube cell and
    the replace rule copies the cube cell's value into the source grid
    cell; both overwrite the target scalar unconditionally, without
    accumulation, and count the pair.  A refine call therefore never
    changes the source grid data and a replace call never changes the cube
    data; on a grid where every source cell meets the cube cell of its own
    index, refine leaves in each cube cell it meets the value of the source
    cell, and replace leaves in each source cell it meets the value of the
    cube cell. *)
Theorem C2_rule_directions :
  (∀ s xg yg zg xc yc zc val1 val2 v1 v2,
     PyArray_GETPTR3 (ac_data s) xc yc zc = Some val1 →
     PyArray_GETPTR3 (ag_data s) xg yg zg = Some val2 →
     load (ac_data s) val1 = Some v1 → load (ag_data s) val2 = Some v2 →
     visit dcRefine xg yg zg xc yc zc s
     = Some (mkState (ag_data s)
               (mkArray (dimensions (ac_data s))
                  (<[Z.to_nat val1 := v2]> (data (ac_data s))))
               (int64 (total s + 1))) ∧
     visit dcReplace xg yg zg xc yc zc s
     = Some (mkState
               (mkArray (dimensions (ag_data s))
                  (<[Z.to_nat val2 := v1]> (data (ag_data s))))
               (ac_data s) (int64 (total s + 1)))) ∧
  (∀ a a' n, Py_DataCubeRefine a = Some (a', Ok n) → g_data a' = g_data a) ∧
  (∀ a a' n, Py_DataCubeReplace a = Some (a', Ok n) → c_data a' = c_data a) ∧
  (∀ a d0 d1 d2, shaped a d0 d1 d2 → exact a →
     ∃ a1 n1 a2 n2,
       Py_DataCubeRefine a = Some (a1, Ok n1) ∧
       Py_DataCubeReplace a = Some (a2, Ok n2) ∧
       ∀ o vc vg,
         data (c_data a) !! o = Some vc → data (g_data a) !! o = Some vg →
         data (c_data a1) !! o
         = Some (if touched a 0 (d0 * d1 * d2) o then vg else vc) ∧
         data (g_data a2) !! o
         = Some (if touched a 0 (d0 * d1 * d2) o then vc else vg)).
Proof.
  split; [exact visit_rules|]. split; [|split].
  - intros a a' n (s & Hk & -> & _)%DataCubeGeneric_returns. cbn.
    refine (kernel_invariant dcRefine (λ t, ag_data t = g_data a) _ a s
              eq_refl Hk).
    intros xg yg zg xc yc zc t t' Ht Hv.
    by rewrite (visit_refine_keeps_grid _ _ _ _ _ _ _ _ Hv).
  - intros a a' n (s & Hk & -> & _)%DataCubeGeneric_returns. cbn.
    refine (kernel_invariant dcReplace (λ t, ac_data t = c_data a) _ a s
              eq_refl Hk).
    intros xg yg zg xc yc zc t t' Ht Hv.
    by rewrite (visit_replace_keeps_cube _ _ _ _ _ _ _ _ Hv).
  - intros a d0 d1 d2 Hsh Hex.
    destruct (exact_pass dcRefine a d0 d1 d2 Hsh Hex) as (s1 & Hrun1 & _ & Hp1).
    destruct (exact_pass dcReplace a d0 d1 d2 Hsh Hex) as (s2 & Hrun2 & _ & Hp2).
    eexists _, _, _, _. split; [exact Hrun1|]. split; [exact Hrun2|].
    intros o vc vg Hvc Hvg.
    destruct (Hp1 o vc vg Hvc Hvg) as [Hc1 _].
    destruct (Hp2 o vc vg Hvc Hvg) as [_ Hg2]. by split.
Qed.

(** The pair of [unit_cell]: source value 7, cube value 3. *)
Lemma C2_rule_directions_witness :
  let s := mkState (g_data unit_cell) (c_data unit_cell) 0 in
  visit dcRefine 0 0 0 0 0 0 s
  = Some (mkState (g_data unit_cell) (mkArray [1; 1; 1]%nat [7%float]) 1) ∧
  visit dcReplace 0 0 0 0 0 0 s
  = Some (mkState (mkArray [1; 1; 1]%nat [3%float]) (c_data unit_cell) 1).
Proof.
  exact (proj1 C2_rule_directions
           (mkState (g_data unit_cell) (c_data unit_cell) 0)
           0 0 0 0 0 0 0 0 3%float 7%float eq_refl eq_refl eq_refl eq_refl).
Defined.

(** C7, as stated, fails in double arithmetic: [tenths] is a pair of
    coincident grids of 4 x 1 x 1 cells with spacing 0.1 and right edge
    0.4.  The upper bound of the third source cell is
    [ceill((0 + 0.1 * 3 - 0) / 0.1) = ceill(3.0000000000000004) = 4], so
    that cell covers cube cells 2 and 3; replace followed by refine leaves
    the cube at 1, 2, 4, 4 instead of 1, 2, 3, 4. *)
Lemma C7_round_trip_fails_on_tenths :
  shaped tenths 4 1 1 ∧ coincident tenths ∧
  axis_range tenths 0 2 = Some (Some (2, 4)) ∧
  ∃ a1 a2,
    Py_DataCubeReplace tenths = Some (a1, Ok 5) ∧
    Py_DataCubeRefine a1 = Some (a2, Ok 5) ∧
    data (c_data tenths) = [1%float; 2%float; 3%float; 4%float] ∧
    data (c_data a2) = [1%float; 2%float; 4%float; 4%float] ∧
    data (c_data a2) ≠ data (c_data tenths).
Proof.
  split; [by repeat split|]. split.
  { repeat split. intros [|[|[|axis]]] le dx d; cbn; intros; by simplify_eq. }
  split; [reflexivity|].
  do 2 eexists. split; [vm_compute; reflexivity|].
  split; [vm_compute; reflexivity|]. cbn.
  split; [reflexivity|]. split; [reflexivity|].
  intros H. apply (f_equal (fmap Prim2SF)) in H. discriminate H.
Qed.

(** C7 (amended): if the source grid and the cube grid are coincident and
    the index arithmetic of the kernel is exact on them, that is, along
    every axis the cube cells computed for source cell [i] in double
    precision are the cell [i] alone, then replace followed by refine over
    the whole domain leaves every cube data value exactly as it was before
    the two calls. *)
Theorem C7_round_trip a d0 d1 d2 :
  shaped a d0 d1 d2 → coincident a → exact a →
  ∃ a1 n1 a2 n2,
    Py_DataCubeReplace a = Some (a1, Ok n1) ∧
    Py_DataCubeRefine a1 = Some (a2, Ok n2) ∧
    c_data a2 = c_data a.
Proof.
  intros Hsh _ Hex. pose proof Hsh as (Hg & Hc & _).
  destruct (exact_pass dcReplace a d0 d1 d2 Hsh Hex) as (s1 & Hrun1 & HI1 & Hp1).
  pose proof HI1 as (Hg1 & Hc1 & Hlg1 & Hlc1).
  set (a1 := set_data a (ag_data s1) (ac_data s1)) in *.
  assert (shaped a1 d0 d1 d2) as Hsh1 by (by apply shaped_set_data).
  assert (exact a1) as Hex1 by (apply exact_set_data; [congruence..|done]).
  destruct (exact_pass dcRefine a1 d0 d1 d2 Hsh1 Hex1)
    as (s2 & Hrun2 & HI2 & Hp2).
  pose proof HI2 as (Hg2 & Hc2 & Hlg2 & Hlc2).
  exists a1, (total s1), (set_data a1 (ag_data s2) (ac_data s2)), (total s2).
  split; [exact Hrun1|]. split; [exact Hrun2|]. cbn.
  rewrite <- (ndarray_eta (ac_data s2)), <- (ndarray_eta (c_data a)).
  rewrite Hc2, Hc. f_equal. apply list_eq. intros o.
  destruct (data (c_data a) !! o) as [vc|] eqn:Hvc.
  - assert (o < d0 * d1 * d2)%nat as Ho.
    { apply lookup_lt_Some in Hvc. destruct Hsh as (_&_&_&_&Hok&_).
      unfold array_ok, PyArray_SIZE in Hok. rewrite Hc in Hok. cbn in Hok. lia. }
    destruct (lookup_lt_is_Some_2 (data (g_data a)) o) as [vg Hvg].
    { destruct Hsh as (_&_&_&Hok&_).
      unfold array_ok, PyArray_SIZE in Hok. rewrite Hg in Hok. cbn in Hok. lia. }
    destruct (Hp1 o vc vg Hvc Hvg) as [Hc1o Hg1o].
    destruct (Hp2 o _ _ Hc1o Hg1o) as [Hc2o _].
    rewrite Hc2o. change (touched a1) with (touched a).
    by destruct (touched a 0 (d0 * d1 * d2) o).
  - apply lookup_ge_None in Hvc. apply lookup_ge_None.
    destruct Hsh as (_&_&_&_&Hok&_).
    unfold array_ok, PyArray_SIZE in Hok. rewrite Hc in Hok. cbn in Hok. lia.
Qed.

(** The 2 x 2 x 2 grids of [halves], spacing 0.5, one source cell left
    out. *)
Lemma C7_round_trip_witness :
  ∃ a1 n1 a2 n2,
    Py_DataCubeReplace halves = Some (a1, Ok n1) ∧
    Py_DataCubeRefine a1 = Some (a2, Ok n2) ∧
    c_data a2 = c_data halves.
Proof.
  apply (C7_round_trip halves 2 2 2).
  - by repeat split.
  - repeat split. intros [|[|[|axis]]] le dx d; cbn; intros; by simplify_eq.
  - intros [|[|[|axis]]] d i Hd Hi; cbn in Hd; simplify_eq;
      (destruct i as [|[|i]]; [reflexivity|reflexivity|lia]).
Defined.

End cube_claims.

(** ** The table interpolator *)

Section interpolate.
Import NumPy Interpolate.
Local Open Scope R_scope.

Lemma ln_10_pos : 0 < ln 10.
Proof. rewrite <- ln_1. apply ln_increasing; lra. Qed.



Lemma log10_1 : Rlog10 1 = 0.
Proof. unfold Rlog10. rewrite ln_1. lra. Qed.

Lemma log10_10 : Rlog10 10 = 1.
Proof. unfold Rlog10. pose proof ln_10_pos. by field_simplify; [|lra]. Qed.

Lemma log10_mult x y : 0 < x → 0 < y → Rlog10 (x * y) = Rlog10 x + Rlog10 y.
Proof.
  intros Hx Hy. unfold Rlog10. rewrite ln_mult by done.
  pose proof ln_10_pos. field. lra.
Qed.


Lemma log10_100 : Rlog10 100 = 2.
Proof.
  replace 100 with (10 * 10) by lra.
  rewrite log10_mult by lra. rewrite log10_10. lra.
Qed.


Lemma Int_part_le x : IZR (Int_part x) <= x.
Proof.
  unfold Int_part. rewrite minus_IZR. destruct (archimed x). lra.
Qed.

Lemma Int_part_lt x : x < IZR (Int_part x) + 1.
Proof.
  unfold Int_part. rewrite minus_IZR. destruct (archimed x). lra.
Qed.

Lemma Int_part_IZR z : Int_part (IZR z) = z.
Proof.
  pose proof (Int_part_le (IZR z)) as Hle.
  pose proof (Int_part_lt (IZR z)) as Hlt.
  rewrite <- plus_IZR in Hlt. apply le_IZR in Hle. apply lt_IZR in Hlt. lia.
Qed.

Lemma Int_part_unit x : 0 <= x → x < 1 → Int_part x = 0%Z.
Proof.
  intros H0 H1. pose proof (Int_part_le x) as Hle.
  pose proof (Int_part_lt x) as Hlt.
  assert (IZR (Int_part x) < 1) as Hup by lra.
  assert (-1 < IZR (Int_part x)) as Hlo by lra.
  apply lt_IZR in Hup, Hlo. lia.
Qed.

Lemma trunc_IZR z : (0 ≤ z)%Z → trunc (IZR z) = z.
Proof.
  intros Hz. unfold trunc. destruct (Rle_dec 0 (IZR z)) as [_|Hn].
  - apply Int_part_IZR.
  - exfalso. apply Hn. by apply IZR_le.
Qed.

(** Truncation of a nonnegative real lies within one below it. *)
Lemma trunc_bounds x :
  0 <= x → IZR (trunc x) <= x ∧ x < IZR (trunc x) + 1.
Proof.
  intros Hx. unfold trunc. destruct (Rle_dec 0 x); [|done].
  split; [apply Int_part_le|apply Int_part_lt].
Qed.

(** The cast of a double strictly between -1 and 0 is 0. *)
Lemma trunc_just_below x : -1 < x → x < 0 → trunc x = 0%Z.
Proof.
  intros Hlo Hhi. unfold trunc. destruct (Rle_dec 0 x); [lra|].
  rewrite Int_part_unit by lra. done.
Qed.

(** The cast of a double at most -1 is at most -1. *)
Lemma trunc_far_below x : x <= -1 → (trunc x ≤ -1)%Z.
Proof.
  intros Hx. unfold trunc. destruct (Rle_dec 0 x); [lra|].
  pose proof (Int_part_lt (- x)) as Hlt.
  assert (0 < IZR (Int_part (- x))) as Hpos by lra.
  apply lt_IZR in Hpos. lia.
Qed.


(** *** Where the arithmetic stays within the reals *)

(** On a positive number [log10] is the logarithm of the reals. *)
Lemma log10_Fin t : 0 < t → log10 (Fin t) = Fin (Rlog10 t).
Proof. intros Ht. unfold log10. by destruct (Rlt_dec 0 t). Qed.

(** The quotient of line 614 for real logarithms and a step that is not
    zero. *)
Lemma quotient_Fin d l0 dl :
  dl ≠ 0 → ((Fin d - Fin l0) / Fin dl)%D = Fin ((d - l0) / dl).
Proof.
  intros Hdl. cbn [sub add neg div]. by destruct (Req_dec_T dl 0).
Qed.

(** The step of a positive axis of at least two points. *)
Lemma dlogtem_Fin (m : nat) axis_0 axis_9 :
  (2 ≤ m)%nat → 0 < axis_0 → 0 < axis_9 →
  ((log10 (Fin axis_9) - log10 (Fin axis_0)) / of_int (Z.of_nat m - 1))%D
  = Fin ((Rlog10 axis_9 - Rlog10 axis_0) / IZR (Z.of_nat m - 1)).
Proof.
  intros Hm H0 H9. rewrite !log10_Fin by done. unfold of_int.
  apply quotient_Fin. apply not_0_IZR. lia.
Qed.

(** The value of line 623 for real logarithms and a step that is not
    zero. *)
Lemma written_Fin l0 dl d axis_ind ki kip :
  dl ≠ 0 →
  (Fin ki
   + (Fin d - (Fin l0 + of_int (axis_ind - 1) * Fin dl))
     * (Fin kip - Fin ki)
     / ((Fin l0 + of_int (axis_ind + 0) * Fin dl)
        - (Fin l0 + of_int (axis_ind - 1) * Fin dl)))%D
  = Fin (interpolant l0 dl d axis_ind ki kip).
Proof.
  intros Hdl. cbn [sub add neg mul div of_int].
  destruct (Req_dec_T _ 0) as [Hz|_]; [|done].
  exfalso. apply Hdl. rewrite plus_IZR, minus_IZR in Hz. lra.
Qed.

(** A bracket is defined for positive queries and steps other than zero
    only: the logarithm of a query that is not positive is minus infinity
    or a NaN, a quotient by zero is an infinity or a NaN, and the cast of
    such a value to [int] is undefined. *)
Lemma bracket_defined num_axis_points l0 dl t z :
  bracket num_axis_points (Fin l0) (Fin dl) (log10 (Fin t)) = Some z →
  0 < t ∧ dl ≠ 0.
Proof.
  unfold bracket, log10. intros H.
  destruct (Rlt_dec 0 t) as [Ht|Ht].
  - split; [done|]. intros ->. cbn [sub add neg div] in H.
    destruct (Req_dec_T 0 0); [|done]. by destruct (Req_dec_T _ 0).
  - by destruct (Req_dec_T t 0).
Qed.

(** *** Brackets *)

(** The bracket of a query that sits on node [i] of a log-uniform axis is
    the pair of rows [i] and [i + 1]. *)
Lemma bracket_at_node m l0 d i :
  d ≠ 0 → (i < m - 1)%nat → (Z.of_nat m ≤ INT_MAX)%Z →
  bracket (Z.of_nat m) (Fin l0) (Fin d) (Fin (l0 + IZR (Z.of_nat i) * d))
  = Some (Z.of_nat (i + 1)).
Proof.
  intros Hd Hi Hm. unfold bracket. rewrite quotient_Fin by done.
  replace ((l0 + IZR (Z.of_nat i) * d - l0) / d) with (IZR (Z.of_nat i))
    by (field; done).
  unfold int_of_double. rewrite trunc_IZR by lia.
  unfold INT_MIN, INT_MAX in *.
  destruct (Z.leb_spec (- 2 ^ 31) (Z.of_nat i)); [|lia].
  destruct (Z.leb_spec (Z.of_nat i) (2 ^ 31 - 1)); [|lia].
  cbn [andb mbind option_bind]. unfold int_succ, INT_MAX.
  destruct (Z.leb_spec (Z.of_nat i + 1) (2 ^ 31 - 1)); [|lia].
  cbn [mbind option_bind]. f_equal. lia.
Qed.

(** The rows of a query lie inside the table exactly when the query is
    positive, the step is not zero and the quotient that is cast to [int]
    lies strictly between -1 and [INT_MAX]. *)
Lemma in_table_bracket m l0 dl t :
  (2 ≤ m)%nat →
  in_table l0 dl t ↔
  ∃ b : nat,
    bracket (Z.of_nat m) (Fin l0) (Fin dl) (log10 (Fin t))
    = Some (Z.of_nat b) ∧ (1 ≤ b ≤ m - 1)%nat.
Proof.
  intros Hm. split.
  - intros (Ht & Hdl & Hlo & Hhi). rewrite log10_Fin by done.
    unfold bracket. rewrite quotient_Fin by done.
    unfold int_of_double, int_succ.
    set (q := (Rlog10 t - l0) / dl) in *.
    assert (0 ≤ trunc q ∧ trunc q < INT_MAX)%Z as [Ht0 Ht1].
    { destruct (Rlt_dec q 0) as [Hneg|Hpos].
      - rewrite trunc_just_below by done. unfold INT_MAX. lia.
      - apply Rnot_lt_le in Hpos. destruct (trunc_bounds q Hpos) as [Htlo Hthi].
        split.
        + assert (-1 < IZR (trunc q)) as H by lra. apply lt_IZR in H. lia.
        + apply lt_IZR. lra. }
    exists (Z.to_nat (Z.min (Z.of_nat m - 1) (Z.max 0 (trunc q + 1)))).
    unfold INT_MIN, INT_MAX in *.
    destruct (Z.leb_spec (- 2 ^ 31) (trunc q)); [|lia].
    destruct (Z.leb_spec (trunc q) (2 ^ 31 - 1)); [|lia].
    cbn [andb mbind option_bind].
    destruct (Z.leb_spec (trunc q + 1) (2 ^ 31 - 1)); [|lia].
    cbn [mbind option_bind]. split; [f_equal; lia|lia].
  - intros (b & Hb & Hb1).
    destruct (bracket_defined _ _ _ _ _ Hb) as [Ht Hdl].
    split; [done|]. split; [done|].
    rewrite log10_Fin in Hb by done. unfold bracket in Hb.
    rewrite quotient_Fin in Hb by done.
    unfold int_of_double, int_succ in Hb.
    set (q := (Rlog10 t - l0) / dl) in *.
    destruct (Rle_dec q (-1)) as [Hlow|Hlow].
    { pose proof (trunc_far_below q Hlow) as Htr.
      destruct ((INT_MIN <=? trunc q)%Z && (trunc q <=? INT_MAX)%Z); [|done].
      cbn [mbind option_bind] in Hb.
      destruct (trunc q + 1 <=? INT_MAX)%Z; [|done].
      cbn [mbind option_bind] in Hb. simplify_eq. lia. }
    split; [lra|].
    destruct (Rlt_dec q (IZR INT_MAX)) as [|Hhigh]; [done|]. exfalso.
    assert (0 <= q) as Hq0.
    { apply Rnot_lt_le in Hhigh. etrans; [|exact Hhigh].
      apply IZR_le. unfold INT_MAX. lia. }
    destruct (trunc_bounds q Hq0) as [_ Hthi].
    assert (INT_MAX - 1 < trunc q)%Z as Htr.
    { apply lt_IZR. rewrite minus_IZR. lra. }
    destruct (Z.leb_spec (trunc q) INT_MAX);
      [|by rewrite andb_false_r in Hb].
    destruct ((INT_MIN <=? trunc q)%Z); [|done]. cbn in Hb.
    by destruct (Z.leb_spec (trunc q + 1) INT_MAX); [lia|].
Qed.

(** A query on a node below the last one can be taken. *)
Lemma node_in_table (m : nat) l0 d (i : nat) t :
  0 < t → d ≠ 0 → (i < m - 1)%nat → (Z.of_nat m ≤ INT_MAX)%Z →
  Rlog10 t = l0 + IZR (Z.of_nat i) * d → in_table l0 d t.
Proof.
  intros Ht Hd Hi Hm Hlog. split; [done|]. split; [done|]. rewrite Hlog.
  replace ((l0 + IZR (Z.of_nat i) * d - l0) / d) with (IZR (Z.of_nat i))
    by (field; done).
  split.
  - apply Rlt_le_trans with 0; [lra|]. apply IZR_le. lia.
  - apply IZR_lt. lia.
Qed.







Local Close Scope R_scope.

(** *** The cells of a call *)

Lemma getptr2_offset {A} (arr : ndarray A) d0 d1 i j :
  dimensions arr = [d0; d1] →
  PyArray_GETPTR2 arr (Z.of_nat i) (Z.of_nat j)
  = Some (Z.of_nat (i * d1 + j)).
Proof.
  intros Hd. unfold PyArray_GETPTR2. rewrite Hd. cbn. f_equal. lia.
Qed.

Lemma getptr2_Z {A} (arr : ndarray A) d0 d1 i j :
  dimensions arr = [d0; d1] → 0 ≤ i → 0 ≤ j →
  PyArray_GETPTR2 arr i j = Some (Z.of_nat (Z.to_nat i * d1 + Z.to_nat j)).
Proof.
  intros Hd Hi Hj. unfold PyArray_GETPTR2. rewrite Hd. cbn. f_equal. lia.
Qed.

Section cells.
Variable a : args.
Variables m c K p : nat.
Hypothesis Hsh : shapes a m c K p.
Variables axis_0 axis_9 : R.
Hypothesis Haxis_0 : data (axis a) !! 0%nat = Some axis_0.
Hypothesis Haxis_9 : data (axis a) !! (m - 1)%nat = Some axis_9.
Hypothesis Hpos_0 : (0 < axis_0)%R.
Hypothesis Hpos_9 : (0 < axis_9)%R.

Local Abbreviation logtem0 := (Rlog10 axis_0).
Local Abbreviation dlogtem :=
  ((Rlog10 axis_9 - Rlog10 axis_0) / IZR (Z.of_nat m - 1))%R.

(** The rows a query is interpolated between. *)
Variable B : nat → nat.
Hypothesis Hbracket : ∀ q t,
  data (desiredvals a) !! q = Some t →
  bracket (Z.of_nat m) (Fin logtem0) (Fin dlogtem) (log10 (Fin t))
  = Some (Z.of_nat (B q)) ∧
  (1 ≤ B q ≤ m - 1)%nat.

Local Abbreviation cell_written :=
  (Interpolate.cell_written a c p logtem0 dlogtem B).
Local Abbreviation out_shaped := (Interpolate.out_shaped K p).

Lemma column_body_writes q t j out :
  out_shaped out → (q < K)%nat → (j < p)%nat →
  data (desiredvals a) !! q = Some t →
  ∃ out' col ki kip,
    data (columns a) !! j = Some col ∧
    data (table a) !! ((B q - 1) * c + Z.to_nat col)%nat = Some ki ∧
    data (table a) !! (B q * c + Z.to_nat col)%nat = Some kip ∧
    column_body a (log10 (Fin t))
      (Fin logtem0 + of_int (Z.of_nat (B q) - 1) * Fin dlogtem)%D
      ((Fin logtem0 + of_int (Z.of_nat (B q) + 0) * Fin dlogtem)
       - (Fin logtem0 + of_int (Z.of_nat (B q) - 1) * Fin dlogtem))%D
      (Z.of_nat (B q)) q j out = Some out' ∧
    out' = mkArray (dimensions out)
             (<[(q * p + j)%nat :=
                  Fin (interpolant logtem0 dlogtem (Rlog10 t)
                         (Z.of_nat (B q)) ki kip)]>
                (data out)).
Proof.
  intros [Hod Hol] Hq Hj Ht. destruct Hsh as [_ [Htd Htl] _ [_ Hcl] Hcr _ _].
  destruct (Hbracket q t Ht) as [Hb HB].
  destruct (bracket_defined _ _ _ _ _ Hb) as [Hpos Hdl].
  destruct (lookup_lt_is_Some_2 (data (columns a)) j) as [col Hcol]; [lia|].
  pose proof (Hcr j col Hcol) as Hcolr.
  assert ((B q - 1) * c + Z.to_nat col < m * c)%nat as Hlo by nia.
  assert (B q * c + Z.to_nat col < m * c)%nat as Hhi by nia.
  destruct (lookup_lt_is_Some_2 (data (table a)) _ ltac:(rewrite Htl; exact Hlo))
    as [ki Hki].
  destruct (lookup_lt_is_Some_2 (data (table a)) _ ltac:(rewrite Htl; exact Hhi))
    as [kip Hkip].
  exists (mkArray (dimensions out)
            (<[(q * p + j)%nat :=
                 Fin (interpolant logtem0 dlogtem (Rlog10 t)
                        (Z.of_nat (B q)) ki kip)]>
               (data out))), col, ki, kip.
  split; [done|]. split; [done|]. split; [done|]. split; [|done].
  unfold column_body. rewrite Hcol. cbn [mbind option_bind].
  rewrite (getptr2_Z (table a) m c (Z.of_nat (B q) - 1) col) by (done || lia).
  cbn [mbind option_bind].
  replace (Z.to_nat (Z.of_nat (B q) - 1)) with (B q - 1)%nat by lia.
  rewrite load_nat, Hki. cbn [mbind option_bind].
  rewrite (getptr2_Z (table a) m c (Z.of_nat (B q)) col) by (done || lia).
  cbn [mbind option_bind].
  rewrite Nat2Z.id, load_nat, Hkip. cbn [mbind option_bind].
  rewrite (getptr2_offset _ K p) by done. cbn [mbind option_bind].
  rewrite log10_Fin, written_Fin by done.
  rewrite store_nat by nia. done.
Qed.

Lemma cell_written_ext out1 out2 q j :
  data out2 !! (q * p + j)%nat = data out1 !! (q * p + j)%nat →
  cell_written out1 q j → cell_written out2 q j.
Proof.
  intros Heq Hc t col Ht Hcol.
  destruct (Hc t col Ht Hcol) as (ki & kip & ? & ? & ?).
  exists ki, kip. by rewrite Heq.
Qed.

(** The loop over the requested columns fills the row of its query. *)
Lemma columns_loop q t out :
  out_shaped out → (q < K)%nat → data (desiredvals a) !! q = Some t →
  ∃ out',
    for_loop
      (column_body a (log10 (Fin t))
         (Fin logtem0 + of_int (Z.of_nat (B q) - 1) * Fin dlogtem)%D
         ((Fin logtem0 + of_int (Z.of_nat (B q) + 0) * Fin dlogtem)
          - (Fin logtem0 + of_int (Z.of_nat (B q) - 1) * Fin dlogtem))%D
         (Z.of_nat (B q)) q) 0 p out = Some out' ∧
    out_shaped out' ∧
    (∀ j, (j < p)%nat → cell_written out' q j) ∧
    (∀ o, (o < q * p)%nat → data out' !! o = data out !! o).
Proof.
  intros Hos Hq Ht.
  destruct (for_loop_steps
    (λ j o', out_shaped o' ∧
       (∀ j', (j' < j)%nat → cell_written o' q j') ∧
       (∀ o, (o < q * p)%nat → data o' !! o = data out !! o))
    (column_body a (log10 (Fin t))
       (Fin logtem0 + of_int (Z.of_nat (B q) - 1) * Fin dlogtem)%D
       ((Fin logtem0 + of_int (Z.of_nat (B q) + 0) * Fin dlogtem)
        - (Fin logtem0 + of_int (Z.of_nat (B q) - 1) * Fin dlogtem))%D
       (Z.of_nat (B q)) q) p 0%nat out) as (out' & Hrun & Hs' & Hc' & Hk').
  - split; [done|]. split; [intros; lia|done].
  - intros j o' Hj (Hso' & Hco' & Hko').
    destruct (column_body_writes q t j o' Hso') as
      (o'' & col & ki & kip & Hcol & Hki & Hkip & Hbody & ->); [lia|lia|done|].
    exists (mkArray (dimensions o')
              (<[(q * p + j)%nat :=
                   Fin (interpolant logtem0 dlogtem (Rlog10 t)
                          (Z.of_nat (B q)) ki kip)]>
                 (data o'))).
    split; [done|]. destruct Hso' as [Hd Hl].
    split; [split; cbn; [done|by rewrite length_insert]|]. split.
    + intros j' Hj'. destruct (decide (j' = j)) as [->|Hne].
      * intros t' col' Ht' Hcol'. simplify_eq. exists ki, kip.
        split; [done|]. split; [done|]. cbn.
        apply list_lookup_insert_eq. rewrite Hl. nia.
      * apply (cell_written_ext o'); [|apply Hco'; lia].
        cbn. apply list_lookup_insert_ne. lia.
    + intros o Ho. cbn. rewrite list_lookup_insert_ne by lia. by apply Hko'.
  - exists out'. split; [done|]. split; [done|]. split; [|done].
    intros j Hj. apply Hc'. lia.
Qed.

(** Every output cell holds the interpolant of its query and column. *)
Lemma Interpolate_cells :
  ∃ out,
    Py_Interpolate a = Some (set_outputvals a out, None_returned) ∧
    out_shaped out ∧
    ∀ q j, (q < K)%nat → (j < p)%nat → cell_written out q j.
Proof.
  pose proof Hsh as [[Had Hal] _ [Hdd Hdl] [Hcd _] _ [Hod Hol] Hm].
  destruct (for_loop_steps
    (λ q o', out_shaped o' ∧
       ∀ q' j, (q' < q)%nat → (j < p)%nat → cell_written o' q' j)
    (desired_body a (Z.of_nat m) p (Fin logtem0) (Fin dlogtem)) K 0%nat
    (outputvals a))
    as (out & Hrun & Hs & Hc).
  - split; [done|]. intros; lia.
  - intros q o' Hq (Hso' & Hco').
    destruct (lookup_lt_is_Some_2 (data (desiredvals a)) q) as [t Ht]; [lia|].
    destruct (Hbracket q t Ht) as [Hb _].
    destruct (columns_loop q t o' Hso') as (o'' & Hrun & Hso'' & Hrow & Hkeep);
      [lia|done|].
    exists o''. unfold desired_body. rewrite Ht. cbn [mbind option_bind].
    rewrite Hb. cbn [mbind option_bind]. split; [done|]. split; [done|].
    intros q' j Hq' Hj. destruct (decide (q' = q)) as [->|Hne].
    + by apply Hrow.
    + apply (cell_written_ext o'); [|apply Hco'; lia]. apply Hkeep. nia.
  - exists out. split; [|split; [done|]].
    + unfold Py_Interpolate, Interpolate. rewrite Hcd, Hod, Had, Hdd.
      cbn [lookup list_lookup mbind option_bind]. rewrite Nat.eqb_refl.
      cbn [negb]. rewrite Haxis_0. cbn [mbind option_bind].
      replace (Z.of_nat m - 1) with (Z.of_nat (m - 1)) at 1 by lia.
      rewrite load_nat, Haxis_9. cbn [mbind option_bind].
      rewrite dlogtem_Fin, log10_Fin by done.
      rewrite Hrun. done.
    + intros q j Hq Hj. apply Hc; lia.
Qed.

End cells.

Local Open Scope R_scope.

(** When every query of a call on a positive axis can be taken, the call
    returns and every output cell holds the interpolant of its query and
    column. *)
Lemma defined_cells a m c K p axis_0 axis_9 :
  shapes a m c K p →
  data (axis a) !! 0%nat = Some axis_0 →
  data (axis a) !! (m - 1)%nat = Some axis_9 →
  0 < axis_0 → 0 < axis_9 →
  let logtem0 := Rlog10 axis_0 in
  let dlogtem := (Rlog10 axis_9 - Rlog10 axis_0) / IZR (Z.of_nat m - 1) in
  (∀ q t, data (desiredvals a) !! q = Some t → in_table logtem0 dlogtem t) →
  ∃ out,
    Py_Interpolate a = Some (set_outputvals a out, None_returned) ∧
    ∀ q j, (q < K)%nat → (j < p)%nat →
      cell_written a c p logtem0 dlogtem (bracket_of a m logtem0 dlogtem)
        out q j.
Proof.
  intros Hsh H0 H9 Hp0 Hp9 logtem0 dlogtem Hin.
  pose proof Hsh as [_ _ _ _ _ _ Hm].
  destruct (Interpolate_cells a m c K p Hsh axis_0 axis_9 H0 H9 Hp0 Hp9
              (bracket_of a m logtem0 dlogtem)) as (out & Hcall & _ & Hcells).
  - intros q t Ht.
    destruct (proj1 (in_table_bracket m _ _ _ Hm) (Hin q t Ht))
      as (b & Hb & Hr).
    unfold bracket_of. rewrite Ht. fold logtem0 dlogtem.
    rewrite Hb, Nat2Z.id. done.
  - by exists out.
Qed.

Lemma decades_shapes x : shapes (decades x) 3 1 1 1.
Proof.
  split; cbn; try (split; reflexivity); try lia.
  intros [|j] col Hcol; cbn in Hcol; simplify_eq. lia.
Defined.

Lemma decades_axis t i x :
  data (axis (decades t)) !! i = Some x →
  0 < x ∧ Rlog10 x = 0 + IZR (Z.of_nat i) * 1.
Proof.
  destruct i as [|[|[|i]]]; intros H; cbn in H; simplify_eq.
  - rewrite log10_1. change (Z.of_nat 0) with 0%Z. lra.
  - rewrite log10_10. change (Z.of_nat 1) with 1%Z. lra.
  - rewrite log10_100. change (Z.of_nat 2) with 2%Z. lra.
Defined.

(** C6: on a strictly positive, log-uniformly spaced axis of at least two
    points, a query equal to the axis value of a node [i] below the last
    one writes exactly the table value of row [i] into the result, for
    every requested column (in exact arithmetic).  This holds in every
    call whose other queries, if any, are ones the index computation can
    take; a call all of whose queries sit on such nodes returns.  With
    axis 1, 10, 100, table 5, 50, 500, query 10 and column 0 the result
    is 50. *)
Theorem C6_exact_at_nodes :
  (∀ a m c K p l0 d,
     shapes a m c K p → (Z.of_nat m ≤ INT_MAX)%Z → d ≠ 0 →
     (∀ i x, data (axis a) !! i = Some x →
             0 < x ∧ Rlog10 x = l0 + IZR (Z.of_nat i) * d) →
     (∀ q t, data (desiredvals a) !! q = Some t →
             (∃ i, (i < m - 1)%nat ∧ data (axis a) !! i = Some t) ∨
             in_table l0 d t) →
     ∃ out,
       Py_Interpolate a = Some (set_outputvals a out, None_returned) ∧
       ∀ q j i t col,
         data (desiredvals a) !! q = Some t →
         data (axis a) !! i = Some t → (i < m - 1)%nat →
         data (columns a) !! j = Some col →
         ∃ k,
           data (table a) !! (i * c + Z.to_nat col)%nat = Some k ∧
           data out !! (q * p + j)%nat = Some (Fin k)) ∧
  (∃ out,
     Py_Interpolate (decades 10)
     = Some (set_outputvals (decades 10) out, None_returned) ∧
     data out !! 0%nat = Some (Fin 50)).
Proof.
  assert (∀ a m c K p l0 d,
     shapes a m c K p → (Z.of_nat m ≤ INT_MAX)%Z → d ≠ 0 →
     (∀ i x, data (axis a) !! i = Some x →
             0 < x ∧ Rlog10 x = l0 + IZR (Z.of_nat i) * d) →
     (∀ q t, data (desiredvals a) !! q = Some t →
             (∃ i, (i < m - 1)%nat ∧ data (axis a) !! i = Some t) ∨
             in_table l0 d t) →
     ∃ out,
       Py_Interpolate a = Some (set_outputvals a out, None_returned) ∧
       ∀ q j i t col,
         data (desiredvals a) !! q = Some t →
         data (axis a) !! i = Some t → (i < m - 1)%nat →
         data (columns a) !! j = Some col →
         ∃ k,
           data (table a) !! (i * c + Z.to_nat col)%nat = Some k ∧
           data out !! (q * p + j)%nat = Some (Fin k)) as Hnodes.
  { intros a m c K p l0 d Hsh Hm Hd Haxis Hqueries.
    pose proof Hsh as [[_ Hal] _ [_ Hdl] [_ Hcl] _ _ Hm2].
    destruct (lookup_lt_is_Some_2 (data (axis a)) 0) as [axis_0 H0]; [lia|].
    destruct (lookup_lt_is_Some_2 (data (axis a)) (m - 1)) as [axis_9 H9];
      [lia|].
    destruct (Haxis _ _ H0) as [Hp0 Hl0]. destruct (Haxis _ _ H9) as [Hp9 Hl9].
    assert (Rlog10 axis_0 = l0) as El0
      by (rewrite Hl0; change (Z.of_nat 0) with 0%Z; lra).
    assert ((Rlog10 axis_9 - Rlog10 axis_0) / IZR (Z.of_nat m - 1) = d) as Edl.
    { rewrite Hl9, El0.
      replace (Z.of_nat (m - 1)) with (Z.of_nat m - 1)%Z by lia.
      field. apply not_0_IZR. lia. }
    assert (∀ q t, data (desiredvals a) !! q = Some t → in_table l0 d t)
      as Hin.
    { intros q t Ht. destruct (Hqueries q t Ht) as [(i & Hi & Hax)|]; [|done].
      destruct (Haxis _ _ Hax) as [Hpos Hlog].
      by apply (node_in_table m l0 d i). }
    destruct (defined_cells a m c K p axis_0 axis_9 Hsh H0 H9 Hp0 Hp9)
      as (out & Hcall & Hcells).
    { cbn zeta. rewrite Edl, El0. exact Hin. }
    cbn zeta in Hcells. rewrite Edl, El0 in Hcells.
    exists out. split; [done|]. intros q j i t col Ht Hax Hi Hcol.
    destruct (Haxis _ _ Hax) as [Hpos Hlt].
    assert (q < K)%nat as Hq by (apply lookup_lt_Some in Ht; lia).
    assert (j < p)%nat as Hj by (apply lookup_lt_Some in Hcol; lia).
    destruct (Hcells q j Hq Hj t col Ht Hcol) as (ki & kip & Hki & Hkip & Hout).
    assert (bracket_of a m l0 d q = (i + 1)%nat) as EB.
    { unfold bracket_of. rewrite Ht, log10_Fin, Hlt, bracket_at_node by done.
      apply Nat2Z.id. }
    rewrite EB in Hki, Hkip, Hout.
    replace (i + 1 - 1)%nat with i in Hki by lia.
    exists ki. split; [done|]. rewrite Hout. do 2 f_equal.
    unfold interpolant. rewrite Hlt.
    replace (Z.of_nat (i + 1) - 1)%Z with (Z.of_nat i) by lia.
    unfold Rdiv. ring. }
  split; [exact Hnodes|].
  destruct (Hnodes (decades 10) 3%nat 1%nat 1%nat 1%nat 0 1)
    as (out & Hcall & Hcells).
  - apply decades_shapes.
  - unfold INT_MAX. lia.
  - lra.
  - apply decades_axis.
  - intros [|q] t Ht; cbn in Ht; simplify_eq.
    left. exists 1%nat. split; [lia|reflexivity].
  - exists out. split; [done|].
    destruct (Hcells 0%nat 0%nat 1%nat 10 0%Z) as (k & Hk & Hout);
      [reflexivity|reflexivity|lia|reflexivity|].
    cbn in Hk. injection Hk as <-. exact Hout.
Qed.

(** The query 1, on the first node of the axis 1, 10, 100: the rows are
    0 and 1 and the value written is 5. *)
Lemma C6_exact_at_nodes_witness :
  ∃ out,
    Py_Interpolate (decades 1)
    = Some (set_outputvals (decades 1) out, None_returned) ∧
    data out !! 0%nat = Some (Fin 5).
Proof.
  destruct (proj1 C6_exact_at_nodes (decades 1) 3%nat 1%nat 1%nat 1%nat 0 1)
    as (out & Hcall & Hcells).
  - apply decades_shapes.
  - unfold INT_MAX. lia.
  - lra.
  - apply decades_axis.
  - intros [|q] t Ht; cbn in Ht; simplify_eq.
    left. exists 0%nat. split; [lia|reflexivity].
  - exists out. split; [exact Hcall|].
    destruct (Hcells 0%nat 0%nat 0%nat 1 0%Z) as (k & Hk & Hout);
      [reflexivity|reflexivity|lia|reflexivity|].
    cbn in Hk. injection Hk as <-. exact Hout.
Defined.





End interpolate.

(** ** The histogram accumulator *)

(** C8 (code evaluated at the failing input): on two samples in bins
    (0,0) and (1,1), of weight 1 and values 2 and 3, the loop reads
    [bins_x->data[n]], [wsource->data[n]] and the like: single bytes of the
    buffers.  Both samples land in bin (0,0) with weight 0, so the call
    leaves the two sums at zero and flags bin (0,0) only, where the update
    the specification describes puts 1 and 1 on the diagonal of the weight
    sum, 2 and 3 on that of the weighted value sum, and flags both bins.
    The call returns 1. *)
Lemma C8_bytes_not_elements :
  ∃ a' s,
    Bin2DProfile.Py_Bin2DProfile Bin2DProfile.two_samples
    = Some (a', Bin2DProfile.Ok 1) ∧
    NumPy.data (Bin2DProfile.wresult a')
    = [0%float; 0%float; 0%float; 0%float] ∧
    NumPy.data (Bin2DProfile.bresult a')
    = [0%float; 0%float; 0%float; 0%float] ∧
    NumPy.data (Bin2DProfile.used a')
    = [1%float; 0%float; 0%float; 0%float] ∧
    Bin2DProfile.described Bin2DProfile.two_samples = Some s ∧
    NumPy.data (Bin2DProfile.a_wresult s)
    = [1%float; 0%float; 0%float; 1%float] ∧
    NumPy.data (Bin2DProfile.a_bresult s)
    = [2%float; 0%float; 0%float; 3%float] ∧
    NumPy.data (Bin2DProfile.a_used s)
    = [1%float; 0%float; 0%float; 1%float].
Proof.
  do 2 eexists. split; [vm_compute; reflexivity|]. cbn.
  split; [reflexivity|]. split; [reflexivity|]. split; [reflexivity|].
  split; [vm_compute; reflexivity|]. cbn. repeat split.
Qed.

(** ** Rejected calls *)

(** C9 (code evaluated at failing inputs): a failed check sets the
    exception and jumps to [_fail], which releases every array handle of
    the function.  In the merger, the histogram and the cube mapper the
    handles are converted one at a time, each followed by its check, and
    the variables are declared without an initialiser: a check that fails
    before the last conversion reaches [_fail] with handles that were
    never assigned (in the merger also with [NumArrays] unassigned, or
    with the tables of channel handles not yet allocated), and releasing
    them is undefined.  So on a source [y] array shorter than the [x]
    array, on a column-index array shorter than the row-index array and
    on a left edge of two values the call does not report an error in a
    defined way.  A merge without channels is turned down after the last
    conversion, and the interpolator converts its five arrays before its
    only check: these rejected calls return the error with every array as
    it was. *)
Theorem C9_failed_check_releases_unset_handles :
  Py_CombineGrids 1 short_src_y = None ∧
  Bin2DProfile.Py_Bin2DProfile Bin2DProfile.short_bins_y = None ∧
  DataCube.Py_DataCubeRefine DataCube.short_edge = None ∧
  DataCube.Py_DataCubeReplace DataCube.short_edge = None ∧
  (∃ msg, Py_CombineGrids 1 no_channels
          = Some (no_channels, CombineGrids.Error msg)) ∧
  (∃ msg, Interpolate.Py_Interpolate Interpolate.two_columns
          = Some (Interpolate.two_columns, Interpolate.Error msg)).
Proof.
  split; [reflexivity|]. split; [reflexivity|]. split; [reflexivity|].
  split; [reflexivity|]. split; eexists; reflexivity.
Qed.

(** * Further properties *)

(** ** Further properties of the point merger *)

Section merge_values.
Variable r : Z.
Variable NumArrays : nat.

Local Abbreviation run := (run_events r NumArrays).

Lemma add_channel_effect si di i s s' :
  add_channel si di i s = Some s' →
  ∃ sv v dv d,
    src_vals s !! i = Some sv ∧ sv !! si = Some v ∧
    dst_vals s !! i = Some dv ∧ dv !! di = Some d ∧
    dst_vals s' = <[i := <[di := (d + v)%float]> dv]> (dst_vals s).
Proof.
  unfold add_channel. intros H.
  destruct (src_vals s !! i) as [sv|] eqn:Hsv; [|done]. cbn in H.
  destruct (sv !! si) as [v|] eqn:Hv; [|done]. cbn in H.
  destruct (dst_vals s !! i) as [dv|] eqn:Hdv; [|done]. cbn in H.
  destruct (dv !! di) as [d|] eqn:Hd; [|done]. cbn in H. simplify_eq.
  by exists sv, v, dv, d.
Qed.

(** The channel loop of one match adds, in every channel it runs over, the
    value of the source point to that of the destination point. *)
Lemma channels_effect si di n : ∀ k s s',
  for_loop (add_channel si di) k n s = Some s' →
  ∀ i dv, dst_vals s !! i = Some dv →
    if bool_decide (k ≤ i < k + n)%nat
    then ∃ sv v d, src_vals s !! i = Some sv ∧ sv !! si = Some v ∧
           dv !! di = Some d ∧
           dst_vals s' !! i = Some (<[di := (d + v)%float]> dv)
    else dst_vals s' !! i = Some dv.
Proof.
  induction n as [|n IH]; intros k s s' H i dv Hdv.
  - cbn in H. simplify_eq. case_bool_decide; [lia|done].
  - cbn [for_loop] in H.
    destruct (add_channel si di k s) as [s1|] eqn:Hk; [|done]. cbn in H.
    pose proof (add_channel_frame _ _ _ _ _ Hk) as (_&_&_&_&Hsv1&_).
    apply add_channel_effect in Hk as (sv & v & dv0 & d & Hsv & Hv & Hdv0 & Hd & Hd1).
    destruct (decide (i = k)) as [->|Hne].
    + assert (dv0 = dv) as -> by congruence.
      specialize (IH (S k) s1 s' H k (<[di := (d + v)%float]> dv)).
      rewrite Hd1, list_lookup_insert_eq in IH by (by eapply lookup_lt_Some).
      specialize (IH eq_refl).
      rewrite bool_decide_eq_false_2 in IH by lia.
      rewrite bool_decide_eq_true_2 by lia. by exists sv, v, d.
    + specialize (IH (S k) s1 s' H i dv).
      rewrite Hd1, list_lookup_insert_ne in IH by done.
      specialize (IH Hdv). rewrite Hsv1 in IH.
      repeat case_bool_decide; (done || lia).
Qed.

Lemma on_match_dst_vals si di s s' :
  on_match r NumArrays si di s = Some s' →
  ∀ i dv, dst_vals s !! i = Some dv →
    if bool_decide (i < NumArrays)%nat
    then ∃ sv v d, src_vals s !! i = Some sv ∧ sv !! si = Some v ∧
           dv !! di = Some d ∧
           dst_vals s' !! i = Some (<[di := (d + v)%float]> dv)
    else dst_vals s' !! i = Some dv.
Proof.
  unfold on_match. cbn -[for_loop int32]. intros H i dv Hdv.
  destruct (dst_wgt s !! di) as [wd|]; [|done].
  destruct (src_wgt s !! di) as [ws|]; [|done].
  destruct (src_mask s !! si) as [ms|]; [|done].
  destruct (dst_mask s !! di) as [md|]; [|done].
  destruct (src_x s !! si) as [x|]; [|done].
  cbn -[for_loop int32] in H.
  pose proof (channels_effect _ _ _ _ _ _ H i dv Hdv) as Hc. cbn in Hc.
  repeat case_bool_decide; (done || lia).
Qed.

(** In every channel the value of destination point [j] receives the
    values of the source points of the events that land on [j], in the
    order of the scan. *)
Lemma run_events_dst_vals i j sv evs : ∀ s s' dv d0,
  run evs s = Some s' → (i < NumArrays)%nat →
  src_vals s !! i = Some sv → dst_vals s !! i = Some dv → dv !! j = Some d0 →
  ∃ dv', dst_vals s' !! i = Some dv' ∧ length dv' = length dv ∧
    dv' !! j
    = Some (fold_left PrimFloat.add (source_values sv (events_at j evs)) d0).
Proof.
  induction evs as [|e evs IH]; intros s s' dv d0 H Hi Hsv Hdv Hd0; simpl in H.
  - simplify_eq. by exists dv.
  - destruct (on_match _ _ _ _ s) as [s1|] eqn:Hm; simpl in H; [|done].
    pose proof (on_match_frame _ _ _ _ _ _ Hm) as (_&_&_&Hsv1&_).
    pose proof (on_match_dst_vals _ _ _ _ Hm i dv Hdv) as Hv.
    rewrite bool_decide_eq_true_2 in Hv by done.
    destruct Hv as (sv' & v & d & Hsv' & Hv & Hd & Hdv1).
    assert (sv' = sv) as -> by congruence.
    unfold events_at, source_values. cbn [List.filter].
    destruct (Nat.eqb_spec (ev_di e) j) as [Heq|Hne].
    + rewrite Heq in *. assert (d = d0) as -> by congruence.
      cbn [omap list_omap]. rewrite Hv. cbn [fold_left].
      destruct (IH s1 s' (<[j := (d0 + v)%float]> dv) (d0 + v)%float)
        as (dv' & Hdv' & Hlen & Hj); try done; [congruence| |].
      * apply list_lookup_insert_eq. by eapply lookup_lt_Some.
      * exists dv'. rewrite length_insert in Hlen. done.
    + destruct (IH s1 s' (<[ev_di e := (d + v)%float]> dv) d0)
        as (dv' & Hdv' & Hlen & Hj); try done; [congruence| |].
      * by rewrite list_lookup_insert_ne.
      * exists dv'. rewrite length_insert in Hlen. done.
Qed.

End merge_values.

(** X1: on well-formed point sets, every value channel of the destination
    accumulates the source values: after the call the value of channel [i]
    at destination point [j] is its old value with the values of the
    matching source points, [src_vals[i][si]], added one after the other in
    the order of the scan.  The source channels are not written and a
    destination channel keeps its length. *)
Theorem merge_values_accumulate r s :
  well_formed s → weights_readable r s →
  ∃ s', Py_CombineGrids r s = Some (s', Ok (num_found s')) ∧
    src_vals s' = src_vals s ∧
    ∀ i j sv dv d0,
      src_vals s !! i = Some sv → dst_vals s !! i = Some dv →
      dv !! j = Some d0 →
      ∃ dv', dst_vals s' !! i = Some dv' ∧ length dv' = length dv ∧
        dv' !! j
        = Some (fold_left PrimFloat.add
                  (source_values sv (events_at j (match_events r s))) d0).
Proof.
  intros Hwf Hread.
  destruct (merge_runs r s Hwf Hread) as (s' & Hcall & Hrun & _).
  exists s'. split; [done|]. split.
  - by apply run_events_frame in Hrun as (_&_&_&->&_).
  - intros i j sv dv d0 Hsv Hdv Hd0.
    apply (run_events_dst_vals r (length (src_vals s)) i j sv _
             (set_num_found s 0) s' dv d0); try done.
    by eapply lookup_lt_Some.
Qed.

(** Two source points, of values 1.5 and 2.5, on the only destination
    point, of value 0.25: the value becomes 0.25 + 1.5 + 2.5. *)
Lemma merge_values_accumulate_witness :
  ∃ s' dv', Py_CombineGrids 1 gather_input = Some (s', Ok (num_found s')) ∧
    dst_vals s' !! 0%nat = Some dv' ∧ dv' !! 0%nat = Some 4.25%float.
Proof.
  destruct (merge_values_accumulate 1 gather_input) as (s' & Hcall & _ & Hv).
  - split; simpl; repeat constructor.
  - unfold weights_readable. vm_compute. repeat constructor.
  - destruct (Hv 0%nat 0%nat [1.5%float; 2.5%float] [0.25%float] 0.25%float
                eq_refl eq_refl eq_refl) as (dv' & Hdv' & _ & Hj).
    exists s', dv'. split; [exact Hcall|]. split; [exact Hdv'|]. exact Hj.
Defined.

Section merge_more.
Variable r : Z.
Variable NumArrays : nat.

Local Abbreviation run := (run_events r NumArrays).

(** Whatever every match keeps, a run of events keeps. *)
Lemma run_events_invariant (P : state → Prop) :
  (∀ si di s s', P s → on_match r NumArrays si di s = Some s' → P s') →
  ∀ evs s s', P s → run evs s = Some s' → P s'.
Proof.
  intros Hstep evs. induction evs as [|e evs IH]; intros s s' HP H; simpl in H.
  - by simplify_eq.
  - destruct (on_match _ _ _ _ s) as [s1|] eqn:Hm; simpl in H; [|done].
    eapply IH; [|exact H]. by eapply Hstep.
Qed.

(** The arrays a run of events writes keep their lengths; the only value
    written into [src_x] is -1 and the only values written into
    [dst_mask] are 0 and 1. *)
Lemma run_events_writes evs s s' :
  run evs s = Some s' →
  length (src_x s') = length (src_x s) ∧
  length (dst_wgt s') = length (dst_wgt s) ∧
  length (dst_mask s') = length (dst_mask s) ∧
  (∀ i, src_x s' !! i = src_x s !! i ∨ src_x s' !! i = Some (-1)) ∧
  (∀ j, dst_mask s' !! j = dst_mask s !! j ∨
        dst_mask s' !! j = Some 0 ∨ dst_mask s' !! j = Some 1).
Proof.
  apply (run_events_invariant (λ t,
    length (src_x t) = length (src_x s) ∧
    length (dst_wgt t) = length (dst_wgt s) ∧
    length (dst_mask t) = length (dst_mask s) ∧
    (∀ i, src_x t !! i = src_x s !! i ∨ src_x t !! i = Some (-1)) ∧
    (∀ j, dst_mask t !! j = dst_mask s !! j ∨
          dst_mask t !! j = Some 0 ∨ dst_mask t !! j = Some 1))).
  - intros si di t t' (Hlx & Hlw & Hlm & Hx & Hm) Hstep.
    pose proof (on_match_src_x _ _ _ _ _ _ Hstep) as [Hsi Hother].
    apply on_match_effect in Hstep
      as (wd & ws & ms & md & _ & _ & _ & Hmd & Hx' & Hw' & Hm' & _).
    rewrite Hx', Hw', Hm', !length_insert.
    split; [done|]. split; [done|]. split; [done|]. split.
    + intros i. destruct (decide (i = si)) as [->|Hne].
      * right. by rewrite <- Hx'.
      * rewrite list_lookup_insert_ne by done. apply Hx.
    + intros j. destruct (decide (j = di)) as [->|Hne].
      * rewrite list_lookup_insert_eq by (by eapply lookup_lt_Some).
        right. unfold mask_rule.
        destruct (_ || _); [by right|by left].
      * rewrite list_lookup_insert_ne by done. apply Hm.
  - repeat split; by left.
Qed.

(** Every match event is an agreement of coordinates between a live
    source point, shifted by a sub-offset below the factor, and a live
    destination point. *)
Lemma match_events_hit s e :
  e ∈ match_events r s →
  ∃ x y,
    src_x s !! ev_si e = Some x ∧ src_y s !! ev_si e = Some y ∧ 0 ≤ x ∧
    (ev_x_off e < Z.to_nat r)%nat ∧ (ev_y_off e < Z.to_nat r)%nat ∧
    is_hit s (int64 (int64 (r * x) + Z.of_nat (ev_x_off e)))
      (int64 (int64 (r * y) + Z.of_nat (ev_y_off e))) (ev_di e) = true.
Proof.
  intros [_ He]%match_events_elem. unfold src_events in He.
  destruct (src_x s !! ev_si e) as [x|]; [|by apply elem_of_nil in He].
  destruct (src_y s !! ev_si e) as [y|]; [|by apply elem_of_nil in He].
  destruct (Z.ltb_spec x 0); [by apply elem_of_nil in He|].
  apply list_elem_of_bind in He as (x_off & He & Hx%elem_of_seq).
  apply list_elem_of_bind in He as (y_off & He & Hy%elem_of_seq).
  unfold offset_events in He. apply list_elem_of_fmap in He as (di & -> & Hdi).
  exists x, y. cbn. split; [done|]. split; [done|]. split; [done|].
  split; [lia|]. split; [lia|].
  unfold dst_hits in Hdi.
  assert (di ∈ List.filter (is_hit s
            (int64 (int64 (r * x) + Z.of_nat x_off))
            (int64 (int64 (r * y) + Z.of_nat y_off))) (seq 0 (length (dst_x s))))
    as Hin.
  { destruct (r =? 1); [|done]. by eapply subseteq_take. }
  by apply list_elem_of_In, filter_In in Hin as [_ Hin].
Qed.

Lemma events_at_none j (evs : list event) :
  (∀ e, e ∈ evs → ev_di e ≠ j) → events_at j evs = [].
Proof.
  induction evs as [|e evs IH]; intros H; [done|].
  unfold events_at in *. cbn [List.filter].
  destruct (Nat.eqb_spec (ev_di e) j) as [Heq|_].
  - exfalso. by apply (H e); [left|].
  - apply IH. intros e' He'. apply H. by right.
Qed.

(** A destination point that is switched off receives no event. *)
Lemma events_at_switched_off s j x :
  dst_x s !! j = Some x → x < 0 → events_at j (match_events r s) = [].
Proof.
  intros Hx Hneg. apply events_at_none. intros e He Hj. rewrite <- Hj in Hx.
  apply match_events_hit in He as (sx & sy & _ & _ & _ & _ & _ & Hhit).
  unfold is_hit in Hhit. rewrite Hx in Hhit.
  destruct (dst_y s !! ev_di e); [|done].
  destruct (Z.leb_spec 0 x); [lia|done].
Qed.

(** A source point that is switched off yields no event. *)
Lemma src_events_switched_off dst_len s i x :
  src_x s !! i = Some x → x < 0 → src_events r dst_len s i = [].
Proof.
  intros Hx Hneg. unfold src_events. rewrite Hx.
  destruct (src_y s !! i); [|done]. by destruct (Z.ltb_spec x 0); [|lia].
Qed.

Lemma events_of_all_other i (evs : list event) :
  events_of i evs = [] → Forall (λ e, ev_si e ≠ i) evs.
Proof.
  induction evs as [|e evs IH]; intros H; [done|].
  unfold events_of in *. cbn [List.filter] in H.
  destruct (Nat.eqb_spec (ev_si e) i); [done|]. constructor; [done|by apply IH].
Qed.

(** The first event whose weight addend lies outside the source arrays
    makes the run undefined. *)
Lemma run_events_unreadable evs s :
  Exists (λ e, (length (src_wgt s) ≤ ev_di e)%nat) evs → run evs s = None.
Proof.
  revert s. induction evs as [|e evs IH]; intros s Hex.
  - by apply Exists_nil in Hex.
  - simpl. destruct (on_match r NumArrays (ev_si e) (ev_di e) s) as [s1|] eqn:Hm;
      [|done].
    simpl. apply Exists_cons in Hex as [Hbad|Hex].
    + apply on_match_effect in Hm as (?&ws&?&?&_&Hws&_).
      apply lookup_lt_Some in Hws. lia.
    + apply IH. apply on_match_frame in Hm as (_&_&->&_). done.
Qed.

End merge_more.

Lemma match_events_none r s :
  r ≤ 0 ∨ dst_x s = [] ∨ Forall (λ x, x < 0) (src_x s) →
  match_events r s = [].
Proof.
  intros Hcase. unfold match_events. apply bind_all_nil. intros si _.
  unfold src_events.
  destruct (src_x s !! si) as [x|] eqn:Hx; [|done].
  destruct (src_y s !! si) as [y|]; [|done].
  destruct (Z.ltb_spec x 0); [done|].
  destruct Hcase as [Hr|[Hd|Hneg]].
  - by replace (Z.to_nat r) with 0%nat by lia.
  - apply bind_all_nil. intros x_off _. apply bind_all_nil. intros y_off _.
    unfold offset_events, dst_hits. rewrite Hd. cbn. by destruct (r =? 1).
  - rewrite Forall_lookup in Hneg. specialize (Hneg si x Hx). simpl in Hneg. lia.
Qed.

(** X2: points whose [x] is negative take no part in the merge.  A
    destination point with a negative [x] keeps its weight, its mask and
    its value in every channel; a source point with a negative [x] yields
    no match and keeps its [x]. *)
Theorem merge_skips_switched_off r s :
  well_formed s → weights_readable r s →
  ∃ s', Py_CombineGrids r s = Some (s', Ok (num_found s')) ∧
    (∀ j x, dst_x s !! j = Some x → x < 0 →
       dst_wgt s' !! j = dst_wgt s !! j ∧
       dst_mask s' !! j = dst_mask s !! j ∧
       ∀ i dv, dst_vals s !! i = Some dv →
         ∃ dv', dst_vals s' !! i = Some dv' ∧ dv' !! j = dv !! j) ∧
    (∀ i x, src_x s !! i = Some x → x < 0 →
       src_x s' !! i = Some x ∧ events_of i (match_events r s) = []).
Proof.
  intros Hwf Hread.
  destruct (merge_runs r s Hwf Hread) as (s' & Hcall & Hrun & _).
  exists s'. split; [done|]. split.
  - intros j x Hx Hneg.
    pose proof (events_at_switched_off r s j x Hx Hneg) as Hnone.
    pose proof (lookup_lt_Some _ _ _ Hx) as Hj. destruct Hwf.
    split; [|split].
    + by apply (run_events_dst_wgt_untouched r (length (src_vals s)) j
                  (match_events r s) (set_num_found s 0)).
    + destruct (lookup_lt_is_Some_2 (dst_mask s) j) as [md Hmd]; [lia|].
      rewrite (run_events_dst_mask r (length (src_vals s)) j _
                 (set_num_found s 0) s' md Hrun Hmd).
      by rewrite Hnone, Hmd.
    + intros i dv Hdv.
      pose proof (Forall_lookup_1 _ _ _ _ wf_dst_vals0 Hdv) as Hldv.
      simpl in Hldv.
      destruct (lookup_lt_is_Some_2 dv j) as [d0 Hd0]; [lia|].
      destruct (lookup_lt_is_Some_2 (src_vals s) i) as [sv Hsv].
      { apply lookup_lt_Some in Hdv. lia. }
      destruct (run_events_dst_vals r (length (src_vals s)) i j sv _
                  (set_num_found s 0) s' dv d0 Hrun)
        as (dv' & Hdv' & _ & Hj'); try done.
      { by eapply lookup_lt_Some. }
      exists dv'. split; [done|]. by rewrite Hj', Hnone, Hd0.
  - intros i x Hx Hneg.
    assert (events_of i (match_events r s) = []) as Hnone.
    { rewrite events_of_match_events. case_bool_decide; [|done].
      by eapply src_events_switched_off. }
    split; [|done]. rewrite <- Hx.
    apply (run_events_src_x r (length (src_vals s)) (match_events r s)
             (set_num_found s 0)); [done|].
    by apply events_of_all_other.
Qed.

(** The first point of each set is switched off and the second pair is on
    the same coordinates: only the second destination point is written. *)
Lemma merge_skips_switched_off_witness :
  ∃ s', Py_CombineGrids 1 switched_off_input = Some (s', Ok (num_found s')) ∧
    dst_wgt s' !! 0%nat = Some 1%float ∧ dst_mask s' !! 0%nat = Some 1 ∧
    src_x s' !! 0%nat = Some (-1) ∧ num_found s' = 1.
Proof.
  destruct (merge_skips_switched_off 1 switched_off_input)
    as (s' & Hcall & Hdst & Hsrc).
  - split; simpl; repeat constructor.
  - unfold weights_readable. vm_compute. repeat constructor.
  - exists s'. split; [exact Hcall|].
    destruct (Hdst 0%nat (-1) eq_refl ltac:(lia)) as (Hw & Hm & _).
    destruct (Hsrc 0%nat (-1) eq_refl ltac:(lia)) as (Hx & _).
    split; [exact Hw|]. split; [exact Hm|]. split; [exact Hx|].
    vm_compute in Hcall. by injection Hcall as <-.
Defined.

(** X3: whatever its arguments, a call that returns has written nothing
    but the consumed markers, the destination weights, masks and values:
    the source [y], mask, weight and value arrays and the destination
    coordinates are as before, the written arrays have kept their lengths,
    an entry of [src_x] is as before or -1, and an entry of [dst_mask] is
    as before, 0 or 1. *)
Theorem merge_writes_outputs_only r s s' res :
  Py_CombineGrids r s = Some (s', res) →
  src_y s' = src_y s ∧ src_mask s' = src_mask s ∧ src_wgt s' = src_wgt s ∧
  src_vals s' = src_vals s ∧ dst_x s' = dst_x s ∧ dst_y s' = dst_y s ∧
  length (src_x s') = length (src_x s) ∧
  length (dst_wgt s') = length (dst_wgt s) ∧
  length (dst_mask s') = length (dst_mask s) ∧
  (∀ i, src_x s' !! i = src_x s !! i ∨ src_x s' !! i = Some (-1)) ∧
  (∀ j, dst_mask s' !! j = dst_mask s !! j ∨
        dst_mask s' !! j = Some 0 ∨ dst_mask s' !! j = Some 1).
Proof.
  unfold Py_CombineGrids. intros H.
  destruct (negb (length (src_y s) =? length (src_x s))%nat) eqn:H1;
    [by cbn in H|].
  destruct (negb (length (src_mask s) =? length (src_x s))%nat);
    [by cbn in H|].
  destruct (negb (length (src_wgt s) =? length (src_x s))%nat);
    [by cbn in H|].
  destruct (negb (length (dst_y s) =? length (dst_x s))%nat) eqn:H2;
    [by cbn in H|].
  destruct (negb (length (dst_mask s) =? length (dst_x s))%nat);
    [by cbn in H|].
  destruct (negb (length (dst_wgt s) =? length (dst_x s))%nat);
    [by cbn in H|].
  destruct (length (src_vals s)) as [|n] eqn:Hn; cbn [Nat.ltb Nat.leb] in H;
    [cbn in H; simplify_eq; repeat split; by left|].
  destruct (negb (length (dst_vals s) =? S n)%nat); [by cbn in H|].
  apply negb_false_iff, Nat.eqb_eq in H1, H2.
  rewrite kernel_refines in H by done.
  destruct (run_events _ _ _ _) as [t|] eqn:Hrun; [|done].
  cbn in H. simplify_eq.
  pose proof (run_events_frame _ _ _ _ _ Hrun) as (?&?&?&?&?&?).
  pose proof (run_events_writes _ _ _ _ _ Hrun) as (?&?&?&?&?).
  done.
Qed.

Lemma merge_writes_outputs_only_witness :
  ∃ s', Py_CombineGrids 2 fan_out_input = Some (s', Ok 4) ∧
    src_y s' = src_y fan_out_input ∧ src_wgt s' = src_wgt fan_out_input ∧
    dst_x s' = dst_x fan_out_input ∧
    length (src_x s') = 4%nat.
Proof.
  eexists. split; [vm_compute; reflexivity|].
  pose proof (merge_writes_outputs_only 2 fan_out_input _ _
                ltac:(vm_compute; reflexivity)) as (Hy & _ & Hw & _ & Hx & _ & Hl & _).
  split; [exact Hy|]. split; [exact Hw|]. split; [exact Hx|]. exact Hl.
Defined.

(** X5: a call that has nothing to match -- a refinement factor of zero
    or less, no destination point, or no source point that is switched on
    (in particular no source point at all) -- returns 0 and leaves every
    array as it was. *)
Theorem merge_nothing_to_do r s :
  well_formed s →
  r ≤ 0 ∨ dst_x s = [] ∨ Forall (λ x, x < 0) (src_x s) →
  Py_CombineGrids r s = Some (set_num_found s 0, Ok 0).
Proof.
  intros Hwf Hcase. rewrite Py_CombineGrids_accepts by done.
  destruct Hwf. rewrite kernel_refines by done.
  by rewrite (match_events_none r s Hcase).
Qed.

Lemma merge_nothing_to_do_witness :
  Py_CombineGrids 0 fan_out_input = Some (fan_out_input, Ok 0).
Proof.
  apply (merge_nothing_to_do 0 fan_out_input).
  - split; simpl; repeat constructor.
  - left. lia.
Defined.

(** X6: on well-formed point sets a call stays inside its arrays exactly
    when every matched destination index is also an index of the source
    arrays: the weight addend of a match is read at [src_wgt[di]], so a
    match on a destination index beyond the source length reads outside
    the source weights.  A destination that has no more points than the
    source is always safe. *)
Theorem merge_defined_iff r s :
  well_formed s →
  (is_Some (Py_CombineGrids r s) ↔ weights_readable r s) ∧
  ((length (dst_x s) ≤ length (src_x s))%nat →
   is_Some (Py_CombineGrids r s)).
Proof.
  intros Hwf.
  assert (weights_readable r s → is_Some (Py_CombineGrids r s)) as Hok.
  { intros Hread. destruct (merge_runs r s Hwf Hread) as (s' & -> & _). done. }
  split; [split; [|done]|].
  - intros Hdef. unfold weights_readable.
    destruct (decide (Forall (λ e, (ev_di e < length (src_x s))%nat)
                        (match_events r s))) as [|Hbad]; [done|].
    exfalso. apply not_Forall_Exists in Hbad; [|apply _].
    rewrite Py_CombineGrids_accepts in Hdef by done. destruct Hwf.
    rewrite kernel_refines in Hdef by done.
    rewrite (run_events_unreadable r) in Hdef; [by destruct Hdef|].
    eapply Exists_impl; [exact Hbad|]. cbn. intros e He.
    rewrite wf_src_wgt0. lia.
  - intros Hle. apply Hok. apply Forall_forall. intros e He.
    apply match_events_range in He as [_ He]. lia.
Qed.

(** The second source point meets the destination point of index 2; the
    source weights have two entries. *)
Lemma merge_defined_iff_witness :
  Py_CombineGrids 1 long_dst_input = None.
Proof.
  assert (well_formed long_dst_input) as Hwf
    by (split; simpl; repeat constructor).
  apply eq_None_not_Some. intros Hdef.
  apply (proj1 (merge_defined_iff 1 long_dst_input Hwf)) in Hdef.
  unfold weights_readable in Hdef. vm_compute in Hdef.
  apply Forall_cons in Hdef as [_ Hdef].
  apply Forall_cons in Hdef as [Hbad _]. lia.
Defined.

(** *** The merge of two sets of the same level *)

Lemma first_of_filter (f : nat → bool) di n : ∀ i,
  di ∈ take 1 (List.filter f (seq i n)) →
  ∀ j, (i ≤ j < di)%nat → f j = false.
Proof.
  induction n as [|n IH]; intros i Hdi j Hj; cbn in Hdi.
  - by apply elem_of_nil in Hdi.
  - destruct (f i) eqn:Hfi.
    + cbn in Hdi. apply list_elem_of_singleton in Hdi. lia.
    + destruct (decide (j = i)) as [->|Hne]; [done|].
      apply (IH (S i) Hdi). lia.
Qed.

Lemma bind_singleton {A B} (f : A → list B) (x : A) : [x] ≫= f = f x.
Proof. rewrite bind_cons. apply app_nil_r. Qed.

Lemma src_events_same_level dst_len s si :
  (length (src_events 1 dst_len s si) ≤ 1)%nat.
Proof.
  unfold src_events.
  destruct (src_x s !! si) as [x|]; [|cbn; lia].
  destruct (src_y s !! si) as [y|]; [|cbn; lia].
  destruct (x <? 0); [cbn; lia|].
  change (Z.to_nat 1) with 1%nat. cbn [seq]. rewrite !bind_singleton.
  unfold offset_events, dst_hits. cbn [Z.eqb Pos.eqb].
  rewrite length_fmap, length_take. lia.
Qed.

(** With factor 1 the match of a source point lands on the first
    destination point, in index order, that is on its coordinates. *)
Lemma match_events_first_hit s e x y :
  e ∈ match_events 1 s →
  src_x s !! ev_si e = Some x → src_y s !! ev_si e = Some y →
  ∀ j, (j < ev_di e)%nat → is_hit s (fine 1 x 0) (fine 1 y 0) j = false.
Proof.
  intros [_ He]%match_events_elem Hx Hy j Hj. unfold src_events in He.
  rewrite Hx, Hy in He.
  destruct (x <? 0); [by apply elem_of_nil in He|].
  change (Z.to_nat 1) with 1%nat in He. cbn [seq] in He.
  rewrite !bind_singleton in He.
  unfold offset_events, dst_hits in He. cbn [Z.eqb Pos.eqb] in He.
  apply list_elem_of_fmap in He as (di & Heq & Hdi).
  apply (f_equal ev_di) in Heq. cbn in Heq. rewrite Heq in Hj.
  apply (first_of_filter _ di _ 0%nat Hdi). lia.
Qed.

(** A list of blocks of at most one element each has as many elements as
    it has blocks that are not empty. *)
Lemma bind_length_count {A B} (f : A → list B) (l : list A) :
  (∀ x, length (f x) ≤ 1)%nat →
  length (l ≫= f)
  = length (List.filter (λ x, match f x with [] => false | _ => true end) l).
Proof.
  intros Hf. induction l as [|x l IH]; [done|].
  rewrite bind_cons, length_app, IH. cbn [List.filter].
  specialize (Hf x). destruct (f x) as [|b [|b' rest]]; cbn in *; lia.
Qed.

Lemma consumed_iff_matched s s' i :
  run_events 1 (length (src_vals s)) (match_events 1 s) (set_num_found s 0)
  = Some s' →
  (i < length (src_x s))%nat →
  match src_events 1 (length (dst_x s)) s i with [] => false | _ => true end
  = consumed s s' i.
Proof.
  intros Hrun Hi. unfold consumed.
  destruct (lookup_lt_is_Some_2 (src_x s) i Hi) as [x Hx]. rewrite Hx.
  destruct (src_events 1 (length (dst_x s)) s i) as [|e l] eqn:Hev.
  - rewrite (run_events_src_x 1 _ _ _ _ i Hrun); cbn.
    + rewrite Hx. destruct (Z.leb_spec 0 x), (Z.eqb_spec x (-1)); (done || lia).
    + apply events_of_all_other. rewrite events_of_match_events.
      by case_bool_decide.
  - assert (e ∈ match_events 1 s ∧ ev_si e = i) as [He Hsi].
    { pose proof (src_events_si 1 (length (dst_x s)) s i) as Hall.
      rewrite Hev in Hall. apply Forall_cons in Hall as [Hsi _].
      split; [|done]. apply match_events_elem. rewrite Hsi, Hev.
      split; [done|left]. }
    rewrite (run_events_consumed 1 _ _ _ _ i Hrun).
    + apply match_events_hit in He as (x' & y' & Hx' & _ & Hpos & _).
      rewrite Hsi, Hx in Hx'. simplify_eq.
      by destruct (Z.leb_spec 0 x'); [|lia].
    + apply Exists_exists. by exists e.
Qed.

(** X4: between two point sets of the same level (factor 1) a source
    point is matched at most once, with the first destination point in
    index order that lies on its coordinates, and the scan of the
    destination stops there: the number returned is the number of source
    points the call has consumed, at most the number of source points. *)
Theorem merge_same_level_count s :
  well_formed s → weights_readable 1 s →
  ∃ s' n, Py_CombineGrids 1 s = Some (s', Ok n) ∧
    let hits := List.filter (consumed s s') (seq 0 (length (src_x s))) in
    n = int32 (Z.of_nat (length hits)) ∧
    (Z.of_nat (length (src_x s)) ≤ INT_MAX →
     n = Z.of_nat (length hits) ∧ 0 ≤ n ≤ Z.of_nat (length (src_x s))) ∧
    (∀ i, (length (events_of i (match_events 1 s)) ≤ 1)%nat) ∧
    (∀ e x y, e ∈ match_events 1 s →
       src_x s !! ev_si e = Some x → src_y s !! ev_si e = Some y →
       ∀ j, (j < ev_di e)%nat → is_hit s (fine 1 x 0) (fine 1 y 0) j = false).
Proof.
  intros Hwf Hread.
  destruct (merge_runs 1 s Hwf Hread) as (s' & Hcall & Hrun & _).
  exists s', (num_found s'). split; [done|]. cbn zeta.
  assert (length (match_events 1 s)
          = length (List.filter (consumed s s') (seq 0 (length (src_x s)))))
    as Hcount.
  { unfold match_events. rewrite bind_length_count
      by (intros; apply src_events_same_level).
    f_equal. apply List.filter_ext_in. intros i Hi%in_seq.
    apply consumed_iff_matched; [done|lia]. }
  pose proof (run_events_num_found 1 _ _ _ _ Hrun eq_refl) as Hn.
  cbn [num_found set_num_found] in Hn. rewrite Z.add_0_l, Hcount in Hn.
  split; [done|]. split; [|split].
  - intros Hfit.
    assert (length (List.filter (consumed s s') (seq 0 (length (src_x s))))
            ≤ length (src_x s))%nat as Hle.
    { etrans; [apply List.filter_length_le|]. by rewrite length_seq. }
    rewrite Hn, int32_small by (unfold INT_MIN; lia). lia.
  - intros i. rewrite events_of_match_events.
    case_bool_decide; [apply src_events_same_level|cbn; lia].
  - intros e x y. apply match_events_first_hit.
Qed.

(** Both source points of [gather_input] meet the only destination point:
    the call returns 2. *)
Lemma merge_same_level_count_witness :
  ∃ s', Py_CombineGrids 1 gather_input = Some (s', Ok 2) ∧
    src_x s' = [-1; -1].
Proof.
  destruct (merge_same_level_count gather_input)
    as (s' & n & Hcall & Hn & _).
  - split; simpl; repeat constructor.
  - unfold weights_readable. vm_compute. repeat constructor.
  - exists s'. assert (Hcall' := Hcall). vm_compute in Hcall'.
    injection Hcall' as <- <-. split; [exact Hcall|reflexivity].
Defined.

(** ** Further properties of the cube mapper *)

Section cube_pairs.
Import NumPy DataCube.
Variable to_call : float * float → float * float.

Local Abbreviation run := (run_pairs to_call).

Lemma run_pairs_app ps1 ps2 s :
  run (ps1 ++ ps2) s = s' ← run ps1 s; run ps2 s'.
Proof.
  revert s. induction ps1 as [|p ps1 IH]; intros s; simpl; [done|].
  destruct (visit_pair to_call p s); simpl; auto.
Qed.

(** A loop whose turns each visit a list of pairs visits their
    concatenation. *)
Lemma for_loop_run (body : nat → state → option state)
  (f : nat → list pair) n : ∀ i s,
  (∀ k t, body k t = run (f k) t) →
  for_loop body i n s = run (seq i n ≫= f) s.
Proof.
  induction n as [|n IH]; intros i s Hbody; [done|].
  cbn [for_loop seq]. rewrite bind_cons, run_pairs_app, Hbody.
  destruct (run (f i) s) as [s1|]; [|done]. cbn. by apply IH.
Qed.

(** The same when a turn may be undefined before it visits anything. *)
Lemma for_loop_collect (body : nat → state → option state)
  (f : nat → option (list pair)) n : ∀ i s,
  (∀ k t, body k t = ps ← f k; run ps t) →
  for_loop body i n s = ps ← collect f i n; run ps s.
Proof.
  induction n as [|n IH]; intros i s Hbody; [done|].
  cbn [for_loop collect]. rewrite Hbody.
  destruct (f i) as [l|]; [|done]. cbn [mbind option_bind].
  destruct (run l s) as [s1|] eqn:Hl.
  - cbn [mbind option_bind]. rewrite IH by done.
    destruct (collect f (S i) n) as [l'|]; [|done]. cbn [mbind option_bind].
    by rewrite run_pairs_app, Hl.
  - cbn [mbind option_bind].
    destruct (collect f (S i) n) as [l'|]; [|done]. cbn [mbind option_bind].
    by rewrite run_pairs_app, Hl.
Qed.

Lemma for_range_run (body : Z → state → option state) (f : Z → list pair)
  lo hi s :
  (∀ k t, body k t = run (f k) t) →
  for_range body lo hi s = run (range lo hi ≫= f) s.
Proof.
  intros Hbody. unfold for_range, range.
  rewrite (for_loop_run _ (λ i, f (Z.of_nat i))) by (intros; apply Hbody).
  f_equal. generalize (seq (Z.to_nat lo) (Z.to_nat (hi - lo))). intros l.
  induction l as [|x l IH]; [done|]. rewrite fmap_cons, !bind_cons. by f_equal.
Qed.

Lemma for_range_collect (body : Z → state → option state)
  (f : Z → option (list pair)) lo hi s :
  (∀ k t, body k t = ps ← f k; run ps t) →
  for_range body lo hi s = ps ← collect_range f lo hi; run ps s.
Proof.
  intros Hbody. unfold for_range, collect_range.
  apply for_loop_collect. intros. apply Hbody.
Qed.

Lemma zg_body_pairs a xg yg cx cy zg s :
  zg_body to_call a xg yg cx cy zg s
  = ps ← zg_pairs a xg yg cx cy zg; run ps s.
Proof.
  unfold zg_body, zg_pairs.
  destruct (PyArray_GETPTR3 (g_cm a) xg yg zg) as [p|]; [|done].
  cbn [mbind option_bind].
  destruct (load (g_cm a) p) as [cm|]; [|done]. cbn [mbind option_bind].
  destruct ((ll a =? 0) && (cm =? 0)); [done|].
  destruct (axis_range a 2 zg) as [[cz|]|]; [|done|done].
  cbn [mbind option_bind]. unfold cube_cells.
  apply for_range_run. intros xc t.
  apply for_range_run. intros yc u.
  apply for_range_run. intros zc v.
  cbn. unfold visit_pair. cbn. by destruct (visit _ _ _ _ _ _ _ v).
Qed.

Lemma yg_body_pairs a dims xg cx yg s :
  yg_body to_call a dims xg cx yg s
  = ps ← yg_pairs a dims xg cx yg; run ps s.
Proof.
  unfold yg_body, yg_pairs.
  destruct (axis_range a 1 yg) as [[cy|]|]; [|done|done].
  cbn [mbind option_bind].
  destruct (dims !! 2%nat) as [d2|]; [|done]. cbn [mbind option_bind].
  apply for_range_collect. intros. apply zg_body_pairs.
Qed.

Lemma xg_body_pairs a dims xg s :
  xg_body to_call a dims xg s = ps ← xg_pairs a dims xg; run ps s.
Proof.
  unfold xg_body, xg_pairs.
  destruct (axis_range a 0 xg) as [[cx|]|]; [|done|done].
  cbn [mbind option_bind].
  destruct (dims !! 1%nat) as [d1|]; [|done]. cbn [mbind option_bind].
  apply for_range_collect. intros. apply yg_body_pairs.
Qed.

(** The six nested loops visit exactly the pairs listed on the arguments,
    in that order. *)
Lemma kernel_pairs a :
  kernel to_call a
  = ps ← pairs a; run ps (mkState (g_data a) (c_data a) 0).
Proof.
  unfold kernel, pairs.
  destruct (dimensions (g_data a) !! 0%nat) as [d0|]; [|done].
  cbn [mbind option_bind].
  apply for_range_collect. intros. apply xg_body_pairs.
Qed.

End cube_pairs.

Section cube_bounds.
Import NumPy DataCube.

Lemma collect_Forall {A} (P : A → Prop) (f : nat → option (list A)) n :
  ∀ i l,
  (∀ k l', (i ≤ k < i + n)%nat → f k = Some l' → Forall P l') →
  collect f i n = Some l → Forall P l.
Proof.
  induction n as [|n IH]; intros i l Hf H; cbn in H.
  - by simplify_eq.
  - destruct (f i) as [l1|] eqn:H1; [|done]. cbn in H.
    destruct (collect f (S i) n) as [l2|] eqn:H2; [|done]. cbn in H.
    simplify_eq. apply Forall_app. split.
    + apply (Hf i); [lia|done].
    + apply (IH (S i)); [|done]. intros k l' Hk. apply Hf. lia.
Qed.

Lemma collect_range_Forall {A} (P : A → Prop) (f : Z → option (list A)) d l :
  (∀ k l', 0 ≤ k < Z.of_nat d → f k = Some l' → Forall P l') →
  collect_range f 0 (Z.of_nat d) = Some l → Forall P l.
Proof.
  intros Hf. unfold collect_range. apply collect_Forall.
  intros k l' Hk. apply Hf. lia.
Qed.

Lemma elem_of_range lo hi x : 0 ≤ lo → x ∈ range lo hi → lo ≤ x < hi.
Proof.
  intros Hlo (k & -> & Hk%elem_of_seq)%list_elem_of_fmap. lia.
Qed.

(** The lower bound of the cube cells of a source cell is clamped at 0
    and the upper bound at the size of the cube. *)
Lemma to_int64_max_0 A z :
  Double.to_int64 (Double.max A (Double.ld_int 0)) = Some z → 0 ≤ z.
Proof.
  destruct A as [|[|]|x]; unfold Double.max; cbn.
  - destruct (_ && _); intros; simplify_eq; lia.
  - destruct (_ && _); intros; simplify_eq; lia.
  - done.
  - destruct (Z.ltb_spec 0 x); cbn; destruct (_ && _); intros; simplify_eq; lia.
Qed.

Lemma to_int64_min_d A d z :
  Double.to_int64 (Double.min A (Double.ld_int (Z.of_nat d))) = Some z →
  z ≤ Z.of_nat d.
Proof.
  destruct A as [|[|]|x]; unfold Double.min; cbn.
  - destruct (_ && _); intros; simplify_eq; lia.
  - done.
  - destruct (_ && _); intros; simplify_eq; lia.
  - destruct (Z.ltb_spec x (Z.of_nat d)); cbn;
      destruct (_ && _); intros; simplify_eq; lia.
Qed.

Lemma axis_range_bounds a axis ig lo hi :
  axis_range a axis ig = Some (Some (lo, hi)) →
  ∃ d, dimensions (c_data a) !! axis = Some d ∧ 0 ≤ lo ∧ hi ≤ Z.of_nat d.
Proof.
  unfold axis_range. intros H.
  destruct (data (g_le a) !! axis) as [ag_le|]; [|done].
  destruct (data (g_dx a) !! axis) as [ag_dx|]; [|done].
  destruct (data (c_le a) !! axis) as [ac_le|]; [|done].
  destruct (data (c_re a) !! axis) as [ac_re|]; [|done].
  destruct (data (c_dx a) !! axis) as [ac_dx|]; [|done].
  destruct (dimensions (c_data a) !! axis) as [d|]; [|done].
  cbn [mbind option_bind] in H.
  destruct (_ <? _)%float; [done|]. destruct (_ <? _)%float; [done|].
  destruct (Double.to_int64 (Double.max _ _)) as [cmin|] eqn:Hmin; [|done].
  cbn [mbind option_bind] in H.
  destruct (Double.to_int64 (Double.min _ _)) as [cmax|] eqn:Hmax; [|done].
  cbn [mbind option_bind] in H. simplify_eq.
  exists d. split; [done|]. split.
  - by eapply to_int64_max_0.
  - by eapply to_int64_min_d.
Qed.

Lemma cube_cells_bounds a xg yg zg ix iy iz cx cy cz p :
  axis_range a 0 ix = Some (Some cx) →
  axis_range a 1 iy = Some (Some cy) →
  axis_range a 2 iz = Some (Some cz) →
  nd (c_data a) = 3%nat →
  p ∈ cube_cells xg yg zg cx cy cz →
  p_xg p = xg ∧ p_yg p = yg ∧ p_zg p = zg ∧
  index_ok (dimensions (c_data a)) (p_xc p) (p_yc p) (p_zc p).
Proof.
  destruct cx as [x0 x1], cy as [y0 y1], cz as [z0 z1].
  intros (c0 & Hc0 & Hx0 & Hx1)%axis_range_bounds
         (c1 & Hc1 & Hy0 & Hy1)%axis_range_bounds
         (c2 & Hc2 & Hz0 & Hz1)%axis_range_bounds Hnd Hp.
  unfold cube_cells in Hp. cbn [fst snd] in Hp.
  apply list_elem_of_bind in Hp as (xc & Hp & Hxc%elem_of_range); [|done].
  apply list_elem_of_bind in Hp as (yc & Hp & Hyc%elem_of_range); [|done].
  apply list_elem_of_bind in Hp as (zc & Hp & Hzc%elem_of_range); [|done].
  apply list_elem_of_singleton in Hp as ->. cbn.
  split; [done|]. split; [done|]. split; [done|].
  unfold nd in Hnd.
  destruct (dimensions (c_data a)) as [|d0 [|d1 [|d2 [|]]]]; try done.
  cbn in Hc0, Hc1, Hc2. simplify_eq. exists c0, c1, c2. split; [done|]. lia.
Qed.

(** Every pair a call visits names a source cell that exists and is not
    left out, and a cube cell that exists. *)
Lemma pairs_visited a ps :
  nd (g_data a) = 3%nat → nd (c_data a) = 3%nat →
  pairs a = Some ps → Forall (visited a) ps.
Proof.
  intros Hg Hc. unfold pairs, nd in *.
  destruct (dimensions (g_data a)) as [|g0 [|g1 [|g2 [|]]]] eqn:Hgd; try done.
  cbn [lookup list_lookup mbind option_bind].
  apply collect_range_Forall. intros xg lx Hxg. unfold xg_pairs.
  destruct (axis_range a 0 xg) as [[cx|]|] eqn:Hcx; cbn [mbind option_bind];
    [|by intros; simplify_eq|done].
  cbn [lookup list_lookup mbind option_bind].
  apply collect_range_Forall. intros yg ly Hyg. unfold yg_pairs.
  destruct (axis_range a 1 yg) as [[cy|]|] eqn:Hcy; cbn [mbind option_bind];
    [|by intros; simplify_eq|done].
  cbn [lookup list_lookup mbind option_bind].
  apply collect_range_Forall. intros zg lz Hzg. unfold zg_pairs.
  destruct (PyArray_GETPTR3 (g_cm a) xg yg zg) as [o|] eqn:Ho; [|done].
  cbn [mbind option_bind].
  destruct (load (g_cm a) o) as [cm|] eqn:Hcm; [|done].
  cbn [mbind option_bind].
  destruct ((ll a =? 0) && (cm =? 0)) eqn:Hguard; [by intros; simplify_eq|].
  destruct (axis_range a 2 zg) as [[cz|]|] eqn:Hcz; cbn [mbind option_bind];
    [|by intros; simplify_eq|done].
  intros ?; simplify_eq. apply Forall_forall. intros p Hp.
  destruct (cube_cells_bounds a xg yg zg xg yg zg cx cy cz p)
    as (Hx & Hy & Hz & Hok); try done.
  unfold visited. rewrite Hx, Hy, Hz. split; [|split; [done|]].
  - exists g0, g1, g2. by rewrite Hgd.
  - by exists o, cm.
Qed.

Lemma getptr3_Z {A} (arr : ndarray A) d0 d1 d2 x y z :
  dimensions arr = [d0; d1; d2] → 0 ≤ x → 0 ≤ y → 0 ≤ z →
  PyArray_GETPTR3 arr x y z
  = Some (Z.of_nat ((Z.to_nat x * d1 + Z.to_nat y) * d2 + Z.to_nat z)).
Proof.
  intros Hd Hx Hy Hz. unfold PyArray_GETPTR3. rewrite Hd. cbn. f_equal. lia.
Qed.

(** The offset of an index triple inside the array lies inside its
    buffer. *)
Lemma index_ok_offset {A} (arr : ndarray A) x y z :
  array_ok arr → index_ok (dimensions arr) x y z →
  ∃ o, PyArray_GETPTR3 arr x y z = Some (Z.of_nat o) ∧
       (o < length (data arr))%nat.
Proof.
  intros Hok (d0 & d1 & d2 & Hd & Hx & Hy & Hz).
  exists ((Z.to_nat x * d1 + Z.to_nat y) * d2 + Z.to_nat z)%nat.
  split; [apply (getptr3_Z arr d0 d1 d2); (done || lia)|].
  unfold array_ok, PyArray_SIZE in Hok. rewrite Hok, Hd. cbn.
  pose proof (offset_in_range d0 d1 d2 (Z.to_nat x) (Z.to_nat y) (Z.to_nat z)).
  lia.
Qed.

End cube_bounds.

Section cube_runs.
Import NumPy DataCube.

Lemma getptr3_dims {A B} (arr1 : ndarray A) (arr2 : ndarray B) x y z :
  dimensions arr1 = dimensions arr2 →
  PyArray_GETPTR3 arr1 x y z = PyArray_GETPTR3 arr2 x y z.
Proof. unfold PyArray_GETPTR3. by intros ->. Qed.

Lemma load_is_Some {A} (arr : ndarray A) p :
  is_Some (load arr p) ↔ 0 ≤ p < Z.of_nat (length (data arr)).
Proof.
  unfold load. destruct (Z.ltb_spec p 0).
  - split; [by intros []|lia].
  - rewrite lookup_lt_is_Some. lia.
Qed.

(** One visit reads the two cells of its pair and writes both with the
    combine rule. *)
Lemma visit_pair_effect to_call p s s' :
  visit_pair to_call p s = Some s' →
  ∃ val1 val2 v1 v2,
    PyArray_GETPTR3 (ac_data s) (p_xc p) (p_yc p) (p_zc p) = Some val1 ∧
    PyArray_GETPTR3 (ag_data s) (p_xg p) (p_yg p) (p_zg p) = Some val2 ∧
    load (ac_data s) val1 = Some v1 ∧ load (ag_data s) val2 = Some v2 ∧
    s' = mkState
           (mkArray (dimensions (ag_data s))
              (<[Z.to_nat val2 := (to_call (v1, v2)).2]> (data (ag_data s))))
           (mkArray (dimensions (ac_data s))
              (<[Z.to_nat val1 := (to_call (v1, v2)).1]> (data (ac_data s))))
           (int64 (total s + 1)).
Proof.
  unfold visit_pair, visit. intros H.
  destruct (PyArray_GETPTR3 (ac_data s) _ _ _) as [val1|]; [|done].
  destruct (PyArray_GETPTR3 (ag_data s) _ _ _) as [val2|]; [|done].
  cbn [mbind option_bind] in H.
  destruct (load (ac_data s) val1) as [v1|] eqn:Hl1; [|done].
  destruct (load (ag_data s) val2) as [v2|] eqn:Hl2; [|done].
  cbn [mbind option_bind] in H.
  rewrite (store_over _ _ v1 _ Hl1) in H. cbn [mbind option_bind] in H.
  rewrite (store_over _ _ v2 _ Hl2) in H. cbn [mbind option_bind] in H.
  simplify_eq. by exists val1, val2, v1, v2.
Qed.

Lemma visit_pair_defined to_call p s val1 val2 :
  PyArray_GETPTR3 (ac_data s) (p_xc p) (p_yc p) (p_zc p) = Some val1 →
  PyArray_GETPTR3 (ag_data s) (p_xg p) (p_yg p) (p_zg p) = Some val2 →
  is_Some (load (ac_data s) val1) → is_Some (load (ag_data s) val2) →
  is_Some (visit_pair to_call p s).
Proof.
  intros H1 H2 [v1 Hl1] [v2 Hl2]. unfold visit_pair, visit.
  rewrite H1, H2. cbn [mbind option_bind]. rewrite Hl1, Hl2.
  cbn [mbind option_bind].
  rewrite (store_over _ _ v1 _ Hl1). cbn [mbind option_bind].
  rewrite (store_over _ _ v2 _ Hl2). done.
Qed.

(** Whether a visit is defined, and what it does to the shapes and to the
    counter, depends on the shapes and sizes of the buffers only. *)
Lemma visit_pair_same_frame f g p s s' t :
  visit_pair f p s = Some s' → same_frame s t →
  ∃ t', visit_pair g p t = Some t' ∧ same_frame s' t'.
Proof.
  intros (val1 & val2 & v1 & v2 & Hp1 & Hp2 & Hl1 & Hl2 & ->)%visit_pair_effect
    (Hgd & Hgl & Hcd & Hcl & Ht).
  destruct (visit_pair_defined g p t val1 val2) as [t' Ht'].
  - by rewrite (getptr3_dims _ (ac_data s)).
  - by rewrite (getptr3_dims _ (ag_data s)).
  - apply load_is_Some. rewrite Hcl. apply load_is_Some. by eexists.
  - apply load_is_Some. rewrite Hgl. apply load_is_Some. by eexists.
  - exists t'. split; [done|].
    apply visit_pair_effect in Ht' as (?&?&?&?&_&_&_&_&->).
    repeat split; cbn; rewrite ?length_insert; congruence.
Qed.

Lemma same_frame_refl s : same_frame s s.
Proof. by repeat split. Qed.

Lemma same_frame_trans s t u : same_frame s t → same_frame t u → same_frame s u.
Proof. unfold same_frame. intros. destruct_and!. repeat split; congruence. Qed.

Lemma run_pairs_same_frame f g ps : ∀ s s' t,
  run_pairs f ps s = Some s' → same_frame s t →
  ∃ t', run_pairs g ps t = Some t' ∧ same_frame s' t'.
Proof.
  induction ps as [|p ps IH]; intros s s' t H Hst; simpl in H.
  - simplify_eq. by exists t.
  - destruct (visit_pair f p s) as [s1|] eqn:Hv; [|done]. simpl in H.
    destruct (visit_pair_same_frame f g p s s1 t Hv Hst) as (t1 & Ht1 & Hst1).
    destruct (IH s1 s' t1 H Hst1) as (t' & Ht' & Hst').
    exists t'. simpl. rewrite Ht1. done.
Qed.

Lemma int64_add_l a b : int64 (int64 a + b) = int64 (a + b).
Proof.
  unfold int64, wrap.
  change (2 ^ (64 - 1)) with 9223372036854775808.
  change (2 ^ 64) with 18446744073709551616.
  replace ((a + 9223372036854775808) mod 18446744073709551616
           - 9223372036854775808 + b + 9223372036854775808)
    with ((a + 9223372036854775808) mod 18446744073709551616 + b) by lia.
  rewrite Zplus_mod_idemp_l. do 2 f_equal. lia.
Qed.

Lemma int64_small a : INT64_MIN ≤ a ≤ INT64_MAX → int64 a = a.
Proof.
  unfold int64, wrap, INT64_MIN, INT64_MAX.
  change (2 ^ (64 - 1)) with 9223372036854775808.
  change (2 ^ 64) with 18446744073709551616.
  change (2 ^ 63) with 9223372036854775808.
  intros H. rewrite Z.mod_small; lia.
Qed.

Lemma int64_idem a : int64 (int64 a) = int64 a.
Proof. pose proof (int64_add_l a 0) as H. by rewrite !Z.add_0_r in H. Qed.

(** The counter goes up by one per pair, in C [long] arithmetic. *)
Lemma run_pairs_total f ps : ∀ s s',
  run_pairs f ps s = Some s' → int64 (total s) = total s →
  total s' = int64 (total s + Z.of_nat (length ps)).
Proof.
  induction ps as [|p ps IH]; intros s s' H H0; simpl in H.
  - simplify_eq. by rewrite Z.add_0_r.
  - destruct (visit_pair f p s) as [s1|] eqn:Hv; [|done]. simpl in H.
    apply visit_pair_effect in Hv as (?&?&?&?&_&_&_&_&->).
    rewrite (IH _ s' H); cbn [total]; [|apply int64_idem].
    rewrite int64_add_l. f_equal. cbn [length]. lia.
Qed.

(** A visit keeps the shapes and sizes of the two buffers. *)
Lemma visit_pair_framed f a p s s' :
  visit_pair f p s = Some s' → framed a s → framed a s'.
Proof.
  intros (?&?&?&?&_&_&_&_&->)%visit_pair_effect (?&?&?&?).
  repeat split; cbn; rewrite ?length_insert; done.
Qed.

Lemma run_pairs_framed f a ps : ∀ s s',
  run_pairs f ps s = Some s' → framed a s → framed a s'.
Proof.
  induction ps as [|p ps IH]; intros s s' H Hs; simpl in H.
  - by simplify_eq.
  - destruct (visit_pair f p s) as [s1|] eqn:Hv; [|done]. simpl in H.
    eapply IH; [done|]. by eapply visit_pair_framed.
Qed.

(** Whatever every visit of a listed pair keeps, the run keeps. *)
Lemma run_pairs_invariant f (P : state → Prop) ps : ∀ s s',
  (∀ p t t', p ∈ ps → P t → visit_pair f p t = Some t' → P t') →
  P s → run_pairs f ps s = Some s' → P s'.
Proof.
  induction ps as [|p ps IH]; intros s s' Hstep HP H; simpl in H.
  - by simplify_eq.
  - destruct (visit_pair f p s) as [s1|] eqn:Hv; [|done]. simpl in H.
    apply (IH s1 s'); [|by eapply Hstep; [left|..]|done].
    intros q t t' Hq. apply Hstep. by right.
Qed.

(** A visited pair is defined on buffers of the shapes of the call. *)
Lemma visited_defined f a p s :
  array_ok (g_data a) → array_ok (c_data a) →
  visited a p → framed a s → is_Some (visit_pair f p s).
Proof.
  intros Hgok Hcok (Hg & Hc & _) (Hgd & Hgl & Hcd & Hcl).
  destruct (index_ok_offset (g_data a) _ _ _ Hgok Hg) as (og & Hog & Hlg).
  destruct (index_ok_offset (c_data a) _ _ _ Hcok Hc) as (oc & Hoc & Hlc).
  apply (visit_pair_defined f p s (Z.of_nat oc) (Z.of_nat og)).
  - by rewrite (getptr3_dims _ (c_data a)).
  - by rewrite (getptr3_dims _ (g_data a)).
  - apply load_is_Some. lia.
  - apply load_is_Some. lia.
Qed.

Lemma run_pairs_defined f a ps : ∀ s,
  array_ok (g_data a) → array_ok (c_data a) →
  Forall (visited a) ps → framed a s → is_Some (run_pairs f ps s).
Proof.
  induction ps as [|p ps IH]; intros s Hgok Hcok Hall Hs; simpl; [done|].
  apply Forall_cons in Hall as [Hp Hall].
  destruct (visited_defined f a p s Hgok Hcok Hp Hs) as [s1 Hv].
  rewrite Hv. simpl. apply IH; try done. by eapply visit_pair_framed.
Qed.

(** What the checks of the entry point have established when a call
    returns a count. *)
Lemma DataCubeGeneric_checked a f a' n :
  DataCubeGeneric a f = Some (a', Ok n) →
  nd (g_data a) = 3%nat ∧ nd (c_data a) = 3%nat ∧ nd (g_cm a) = 3%nat ∧
  ∀ a2 h,
    g_le a2 = g_le a → g_dx a2 = g_dx a → g_cm a2 = g_cm a →
    c_le a2 = c_le a → c_re a2 = c_re a → c_dx a2 = c_dx a →
    dimensions (g_data a2) = dimensions (g_data a) →
    dimensions (c_data a2) = dimensions (c_data a) →
    DataCubeGeneric a2 h
    = s ← kernel h a2;
      Some (set_data a2 (ag_data s) (ac_data s), Ok (total s)).
Proof.
  unfold DataCubeGeneric, three_dimensions, nd. intros H.
  destruct (negb (three_values (g_le a))) eqn:H1; [done|].
  destruct (negb (three_values (g_dx a))) eqn:H2; [done|].
  destruct (negb (length (dimensions (g_data a)) =? 3)%nat) eqn:H3; [done|].
  destruct (negb (length (dimensions (g_cm a)) =? 3)%nat) eqn:H4; [done|].
  destruct (negb (three_values (c_le a))) eqn:H5; [done|].
  destruct (negb (three_values (c_re a))) eqn:H6; [done|].
  destruct (negb (three_values (c_dx a))) eqn:H7; [done|].
  destruct (negb (length (dimensions (c_data a)) =? 3)%nat) eqn:H8; [done|].
  split; [by apply negb_false_iff, Nat.eqb_eq in H3|].
  split; [by apply negb_false_iff, Nat.eqb_eq in H8|].
  split; [by apply negb_false_iff, Nat.eqb_eq in H4|].
  intros a2 h -> -> -> -> -> -> -> ->.
  by rewrite H1, H2, H3, H4, H5, H6, H7, H8.
Qed.

Lemma args_eta a : set_data a (g_data a) (c_data a) = a.
Proof. by destruct a. Qed.

(** A call that returns a count has visited the pairs listed on its
    arguments. *)
Lemma DataCubeGeneric_pairs a f a' n :
  DataCubeGeneric a f = Some (a', Ok n) →
  ∃ ps s, pairs a = Some ps ∧
    run_pairs f ps (mkState (g_data a) (c_data a) 0) = Some s ∧
    a' = set_data a (ag_data s) (ac_data s) ∧ n = total s.
Proof.
  intros (s & Hk & -> & ->)%DataCubeGeneric_returns.
  rewrite kernel_pairs in Hk.
  destruct (pairs a) as [ps|]; [|done]. cbn in Hk. by exists ps, s.
Qed.

End cube_runs.

Section cube_geometry.
Import NumPy DataCube.

Lemma DataCubeGeneric_well_shaped a f :
  well_shaped a →
  DataCubeGeneric a f
  = s ← kernel f a; Some (set_data a (ag_data s) (ac_data s), Ok (total s)).
Proof.
  intros (Hg & Hc & Hcm & _ & _ & H1 & H2 & H3 & H4 & H5).
  unfold DataCubeGeneric, three_dimensions. unfold nd in *.
  by rewrite H1, H2, H3, H4, H5, Hcm, Hg, Hc.
Qed.

(** X7: on arrays whose buffers fit their shapes a call never reads or
    writes outside a buffer.  The lower cube index of a source cell is
    clamped at 0 and the upper one at the size of the cube, so that every
    pair of cells visited exists; the call is defined exactly when its
    index arithmetic is (the conversions of [floorl] and [ceill] to
    [npy_int64]), it then returns the number of pairs and hands the two
    data buffers back with their shapes and sizes. *)
Theorem cube_stays_in_bounds a f :
  well_shaped a →
  (is_Some (DataCubeGeneric a f) ↔ is_Some (pairs a)) ∧
  ∀ ps, pairs a = Some ps →
    Forall (visited a) ps ∧
    ∃ g c,
      DataCubeGeneric a f
      = Some (set_data a g c, Ok (int64 (Z.of_nat (length ps)))) ∧
      dimensions g = dimensions (g_data a) ∧
      length (data g) = length (data (g_data a)) ∧
      dimensions c = dimensions (c_data a) ∧
      length (data c) = length (data (c_data a)).
Proof.
  intros Hsh. pose proof Hsh as (Hg & Hc & _ & Hgok & Hcok & _).
  assert (∀ ps, pairs a = Some ps →
    Forall (visited a) ps ∧
    ∃ g c,
      DataCubeGeneric a f
      = Some (set_data a g c, Ok (int64 (Z.of_nat (length ps)))) ∧
      dimensions g = dimensions (g_data a) ∧
      length (data g) = length (data (g_data a)) ∧
      dimensions c = dimensions (c_data a) ∧
      length (data c) = length (data (c_data a))) as Hrun.
  { intros ps Hps. pose proof (pairs_visited a ps Hg Hc Hps) as Hall.
    split; [done|].
    assert (framed a (mkState (g_data a) (c_data a) 0)) as Hfr
      by (by repeat split).
    destruct (run_pairs_defined f a ps _ Hgok Hcok Hall Hfr) as [s Hs].
    pose proof (run_pairs_framed f a ps _ _ Hs Hfr) as (?&?&?&?).
    exists (ag_data s), (ac_data s).
    rewrite (DataCubeGeneric_well_shaped a f Hsh), kernel_pairs, Hps.
    cbn [mbind option_bind]. rewrite Hs. cbn [mbind option_bind].
    rewrite (run_pairs_total f ps _ s Hs eq_refl). done. }
  split; [|done]. split.
  - rewrite (DataCubeGeneric_well_shaped a f Hsh), kernel_pairs.
    destruct (pairs a); [done|]. by intros [].
  - intros [ps Hps]. destruct (Hrun ps Hps) as (_ & g & c & -> & _). done.
Qed.

(** Two source cells of half the size of the only cube cell: two pairs,
    both on cube cell 0. *)
Lemma cube_stays_in_bounds_witness :
  ∃ g c, DataCubeGeneric two_on_one dcRefine = Some (set_data two_on_one g c, Ok 2) ∧
    dimensions c = [1; 1; 1]%nat.
Proof.
  assert (well_shaped two_on_one) as Hsh by (by repeat split).
  destruct (proj2 (cube_stays_in_bounds two_on_one dcRefine Hsh)
              [mkPair 0 0 0 0 0 0; mkPair 1 0 0 0 0 0] eq_refl)
    as (_ & g & c & Hcall & _ & _ & Hc & _).
  exists g, c. split; [exact Hcall|exact Hc].
Defined.

(** X8: the number a call returns is the number of pairs of cells it has
    visited, counted in a C [long]; it is fixed by the geometry of the two
    grids and the child mask, so that the refine rule, the replace rule and
    any other rule return the same number on the same arguments, whatever
    the data. *)
Theorem cube_count_is_geometry a f a' n :
  DataCubeGeneric a f = Some (a', Ok n) →
  ∃ ps, pairs a = Some ps ∧
    n = int64 (Z.of_nat (length ps)) ∧
    (Z.of_nat (length ps) ≤ INT64_MAX → n = Z.of_nat (length ps)) ∧
    ∀ g, ∃ a'', DataCubeGeneric a g = Some (a'', Ok n).
Proof.
  intros H. pose proof (DataCubeGeneric_checked a f a' n H) as (_&_&_&Hchk).
  apply DataCubeGeneric_pairs in H as (ps & s & Hps & Hrun & -> & ->).
  pose proof (run_pairs_total f ps _ s Hrun eq_refl) as Ht. cbn in Ht.
  exists ps. split; [done|]. split; [done|]. split.
  - intros Hfit. rewrite Ht. apply int64_small. unfold INT64_MIN. lia.
  - intros g.
    destruct (run_pairs_same_frame f g ps _ s _ Hrun (same_frame_refl _))
      as (t & Hrun' & (_&_&_&_&Htot)).
    exists (set_data a (ag_data t) (ac_data t)).
    rewrite (Hchk a g) by done. rewrite kernel_pairs, Hps.
    cbn [mbind option_bind]. rewrite Hrun'. cbn [mbind option_bind].
    by rewrite Htot.
Qed.

Lemma cube_count_is_geometry_witness :
  ∃ a1 a2,
    Py_DataCubeRefine two_on_one = Some (a1, Ok 2) ∧
    Py_DataCubeReplace two_on_one = Some (a2, Ok 2).
Proof.
  assert (Py_DataCubeRefine two_on_one
          = Some (set_data two_on_one (g_data two_on_one)
                    (mkArray [1; 1; 1]%nat [20%float]), Ok 2)) as H
    by (vm_compute; reflexivity).
  destruct (cube_count_is_geometry two_on_one dcRefine _ 2 H)
    as (ps & _ & _ & _ & Hany).
  destruct (Hany dcReplace) as (a2 & Ha2).
  eexists _, a2. split; [exact H|exact Ha2].
Defined.

End cube_geometry.

Section cube_idempotent.
Import NumPy DataCube.

Lemma collect_ext {A} (f g : nat → option (list A)) n : ∀ i,
  (∀ k, f k = g k) → collect f i n = collect g i n.
Proof.
  induction n as [|n IH]; intros i Hfg; [done|].
  cbn [collect]. rewrite Hfg, (IH (S i) Hfg). done.
Qed.

Lemma axis_range_set_data a g c axis ig :
  dimensions c = dimensions (c_data a) →
  axis_range (set_data a g c) axis ig = axis_range a axis ig.
Proof. intros Hc. unfold axis_range. cbn. by rewrite Hc. Qed.

(** The pairs of a call depend on the shapes of the two data buffers, not
    on what they hold. *)
Lemma pairs_set_data a g c :
  dimensions g = dimensions (g_data a) → dimensions c = dimensions (c_data a) →
  pairs (set_data a g c) = pairs a.
Proof.
  intros Hg Hc. unfold pairs. cbn [g_data set_data]. rewrite Hg.
  destruct (dimensions (g_data a) !! 0%nat) as [d0|]; [|done].
  cbn [mbind option_bind]. unfold collect_range. apply collect_ext.
  intros kx. unfold xg_pairs. rewrite axis_range_set_data by done.
  destruct (axis_range a 0 (Z.of_nat kx)) as [[cx|]|]; [|done|done].
  cbn [mbind option_bind].
  destruct (dimensions (g_data a) !! 1%nat) as [d1|]; [|done].
  cbn [mbind option_bind]. unfold collect_range. apply collect_ext.
  intros ky. unfold yg_pairs. rewrite axis_range_set_data by done.
  destruct (axis_range a 1 (Z.of_nat ky)) as [[cy|]|]; [|done|done].
  cbn [mbind option_bind].
  destruct (dimensions (g_data a) !! 2%nat) as [d2|]; [|done].
  cbn [mbind option_bind]. unfold collect_range. apply collect_ext.
  intros kz. unfold zg_pairs. cbn [g_cm ll set_data].
  destruct (PyArray_GETPTR3 (g_cm a) _ _ _) as [o|]; [|done].
  cbn [mbind option_bind]. destruct (load (g_cm a) o) as [cm|]; [|done].
  cbn [mbind option_bind]. destruct ((ll a =? 0) && (cm =? 0)); [done|].
  by rewrite axis_range_set_data.
Qed.

Lemma load_lookup {A} (arr : ndarray A) p v :
  load arr p = Some v → 0 ≤ p ∧ data arr !! Z.to_nat p = Some v.
Proof. unfold load. destruct (Z.ltb_spec p 0); [done|]. by split. Qed.

(** A refine visit on a state that differs from another in cube cells
    still to be settled leaves the two as close. *)
Lemma refine_visit_settled final p s s' t :
  visit_pair dcRefine p s = Some s' → cube_settled final s t →
  ∃ t', visit_pair dcRefine p t = Some t' ∧ cube_settled final s' t'.
Proof.
  intros Hv (Hg & Ht & Hd & Hl & Hcells). unfold visit_pair in *.
  pose proof Hv as (val1 & val2 & v1 & v2 & Hp1 & Hp2 & Hl1 & Hl2 & _)
    %visit_pair_effect.
  destruct (visit_rules s _ _ _ _ _ _ val1 val2 v1 v2 Hp1 Hp2 Hl1 Hl2)
    as [Hs _]. rewrite Hs in Hv. simplify_eq.
  assert (is_Some (load (ac_data t) val1)) as [w1 Hw1].
  { apply load_is_Some. rewrite Hl. apply load_is_Some. by eexists. }
  destruct (visit_rules t (p_xg p) (p_yg p) (p_zg p) (p_xc p) (p_yc p) (p_zc p)
              val1 val2 w1 v2) as [Hrt _].
  - by rewrite (getptr3_dims _ (ac_data s)).
  - by rewrite Hg.
  - done.
  - by rewrite Hg.
  - eexists. split; [exact Hrt|].
    split; [done|]. split; [cbn; by rewrite Ht|].
    split; [done|]. split; [cbn; by rewrite !length_insert|].
    intros o. cbn. destruct (decide (o = Z.to_nat val1)) as [->|Hne].
    + left. apply load_lookup in Hl1 as [_ Hl1], Hw1 as [_ Hw1].
      rewrite !list_lookup_insert_eq; [done|by eapply lookup_lt_Some..].
    + rewrite !list_lookup_insert_ne by done. apply Hcells.
Qed.

Lemma refine_run_settled final ps : ∀ s s' t,
  run_pairs dcRefine ps s = Some s' → cube_settled final s t →
  ∃ t', run_pairs dcRefine ps t = Some t' ∧ cube_settled final s' t'.
Proof.
  induction ps as [|p ps IH]; intros s s' t H Hst; simpl in H.
  - simplify_eq. by exists t.
  - destruct (visit_pair dcRefine p s) as [s1|] eqn:Hv; [|done]. simpl in H.
    destruct (refine_visit_settled final p s s1 t Hv Hst) as (t1 & Ht1 & Hst1).
    destruct (IH s1 s' t1 H Hst1) as (t' & Ht' & Hst').
    exists t'. simpl. by rewrite Ht1.
Qed.

Lemma replace_visit_settled final p s s' t :
  visit_pair dcReplace p s = Some s' → grid_settled final s t →
  ∃ t', visit_pair dcReplace p t = Some t' ∧ grid_settled final s' t'.
Proof.
  intros Hv (Hc & Ht & Hd & Hl & Hcells). unfold visit_pair in *.
  pose proof Hv as (val1 & val2 & v1 & v2 & Hp1 & Hp2 & Hl1 & Hl2 & _)
    %visit_pair_effect.
  destruct (visit_rules s _ _ _ _ _ _ val1 val2 v1 v2 Hp1 Hp2 Hl1 Hl2)
    as [_ Hs]. rewrite Hs in Hv. simplify_eq.
  assert (is_Some (load (ag_data t) val2)) as [w2 Hw2].
  { apply load_is_Some. rewrite Hl. apply load_is_Some. by eexists. }
  destruct (visit_rules t (p_xg p) (p_yg p) (p_zg p) (p_xc p) (p_yc p) (p_zc p)
              val1 val2 v1 w2) as [_ Hrt].
  - by rewrite Hc.
  - by rewrite (getptr3_dims _ (ag_data s)).
  - by rewrite Hc.
  - done.
  - eexists. split; [exact Hrt|].
    split; [done|]. split; [cbn; by rewrite Ht|].
    split; [done|]. split; [cbn; by rewrite !length_insert|].
    intros o. cbn. destruct (decide (o = Z.to_nat val2)) as [->|Hne].
    + left. apply load_lookup in Hl2 as [_ Hl2], Hw2 as [_ Hw2].
      rewrite !list_lookup_insert_eq; [done|by eapply lookup_lt_Some..].
    + rewrite !list_lookup_insert_ne by done. apply Hcells.
Qed.

Lemma replace_run_settled final ps : ∀ s s' t,
  run_pairs dcReplace ps s = Some s' → grid_settled final s t →
  ∃ t', run_pairs dcReplace ps t = Some t' ∧ grid_settled final s' t'.
Proof.
  induction ps as [|p ps IH]; intros s s' t H Hst; simpl in H.
  - simplify_eq. by exists t.
  - destruct (visit_pair dcReplace p s) as [s1|] eqn:Hv; [|done]. simpl in H.
    destruct (replace_visit_settled final p s s1 t Hv Hst) as (t1 & Ht1 & Hst1).
    destruct (IH s1 s' t1 H Hst1) as (t' & Ht' & Hst').
    exists t'. simpl. by rewrite Ht1.
Qed.

Lemma run_refine_keeps_grid ps : ∀ s s',
  run_pairs dcRefine ps s = Some s' → ag_data s' = ag_data s.
Proof.
  intros s s'. apply (run_pairs_invariant dcRefine (λ t, ag_data t = ag_data s));
    [|done].
  intros p t t' _ Ht Hv. unfold visit_pair in Hv.
  by rewrite (visit_refine_keeps_grid _ _ _ _ _ _ _ _ Hv).
Qed.

Lemma run_replace_keeps_cube ps : ∀ s s',
  run_pairs dcReplace ps s = Some s' → ac_data s' = ac_data s.
Proof.
  intros s s'. apply (run_pairs_invariant dcReplace (λ t, ac_data t = ac_data s));
    [|done].
  intros p t t' _ Ht Hv. unfold visit_pair in Hv.
  by rewrite (visit_replace_keeps_cube _ _ _ _ _ _ _ _ Hv).
Qed.

Lemma ndarray_eq {A} (x y : ndarray A) :
  dimensions x = dimensions y → data x = data y → x = y.
Proof. destruct x, y. cbn. by intros -> ->. Qed.

(** X9: refining twice is refining once.  A second refine call on the
    buffers the first one has left visits the same pairs, returns the same
    number and changes no cell, whatever the geometry (a cube cell that
    several source cells cover holds the value of the last of them after
    either call). *)
Theorem refine_idempotent a a1 n :
  Py_DataCubeRefine a = Some (a1, Ok n) →
  Py_DataCubeRefine a1 = Some (a1, Ok n).
Proof.
  unfold Py_DataCubeRefine. intros H.
  pose proof (DataCubeGeneric_checked a _ a1 n H) as (_&_&_&Hchk).
  apply DataCubeGeneric_pairs in H as (ps & s & Hps & Hrun & -> & ->).
  pose proof (run_refine_keeps_grid ps _ s Hrun) as Hg. cbn in Hg.
  assert (framed a s) as (_ & _ & Hcd & Hcl).
  { apply (run_pairs_framed dcRefine a ps _ s Hrun). by repeat split. }
  destruct (refine_run_settled (data (ac_data s)) ps _ s
              (mkState (ag_data s) (ac_data s) 0) Hrun)
    as (t & Hrun' & (Htg & Htt & Htd & Htl & Hcells)).
  { rewrite Hg. split; [done|]. split; [done|]. split; [done|].
    split; [done|]. intros o. by right. }
  assert (ac_data t = ac_data s) as Htc.
  { apply ndarray_eq; [done|]. apply list_eq. intros o.
    by destruct (Hcells o). }
  rewrite (Hchk (set_data a (ag_data s) (ac_data s)) dcRefine); try done.
  2:{ cbn. by rewrite Hg. }
  rewrite kernel_pairs, pairs_set_data, Hps by (done || by rewrite Hg).
  cbn [mbind option_bind g_data c_data set_data].
  rewrite Hrun'. cbn [mbind option_bind]. by rewrite Htg, Htc, Htt.
Qed.

(** X10: replacing twice is replacing once, in the same way. *)
Theorem replace_idempotent a a1 n :
  Py_DataCubeReplace a = Some (a1, Ok n) →
  Py_DataCubeReplace a1 = Some (a1, Ok n).
Proof.
  unfold Py_DataCubeReplace. intros H.
  pose proof (DataCubeGeneric_checked a _ a1 n H) as (_&_&_&Hchk).
  apply DataCubeGeneric_pairs in H as (ps & s & Hps & Hrun & -> & ->).
  pose proof (run_replace_keeps_cube ps _ s Hrun) as Hc. cbn in Hc.
  assert (framed a s) as (Hgd & Hgl & _ & _).
  { apply (run_pairs_framed dcReplace a ps _ s Hrun). by repeat split. }
  destruct (replace_run_settled (data (ag_data s)) ps _ s
              (mkState (ag_data s) (ac_data s) 0) Hrun)
    as (t & Hrun' & (Htc & Htt & Htd & Htl & Hcells)).
  { rewrite Hc. split; [done|]. split; [done|]. split; [done|].
    split; [done|]. intros o. by right. }
  assert (ag_data t = ag_data s) as Htg.
  { apply ndarray_eq; [done|]. apply list_eq. intros o.
    by destruct (Hcells o). }
  rewrite (Hchk (set_data a (ag_data s) (ac_data s)) dcReplace); try done.
  2:{ cbn. by rewrite Hc. }
  rewrite kernel_pairs, pairs_set_data, Hps by (done || by rewrite Hc).
  cbn [mbind option_bind g_data c_data set_data].
  rewrite Hrun'. cbn [mbind option_bind]. by rewrite Htg, Htc, Htt.
Qed.

End cube_idempotent.

Section cube_painting.
Import NumPy DataCube.

Lemma refine_idempotent_witness :
  ∃ a1,
    Py_DataCubeRefine two_on_one = Some (a1, Ok 2) ∧
    Py_DataCubeRefine a1 = Some (a1, Ok 2) ∧
    data (c_data a1) = [20%float].
Proof.
  eexists. split; [vm_compute; reflexivity|]. split; [|reflexivity].
  apply (refine_idempotent two_on_one). vm_compute. reflexivity.
Defined.

Lemma replace_idempotent_witness :
  ∃ a1,
    Py_DataCubeReplace two_on_one = Some (a1, Ok 2) ∧
    Py_DataCubeReplace a1 = Some (a1, Ok 2) ∧
    data (g_data a1) = [3%float; 3%float].
Proof.
  eexists. split; [vm_compute; reflexivity|]. split; [|reflexivity].
  apply (replace_idempotent two_on_one). vm_compute. reflexivity.
Defined.

(** X11: with [ll] equal to 0 a replace call never writes a source cell
    whose child mask is 0: whatever the geometry, the cell holds after the
    call what it held before. *)
Theorem replace_spares_masked_cells a a' n :
  Py_DataCubeReplace a = Some (a', Ok n) →
  ll a = 0 → dimensions (g_cm a) = dimensions (g_data a) →
  ∀ o, data (g_cm a) !! o = Some 0 →
    data (g_data a') !! o = data (g_data a) !! o.
Proof.
  unfold Py_DataCubeReplace. intros H Hll Hcm o Ho.
  pose proof (DataCubeGeneric_checked a _ a' n H) as (Hg & Hc & _).
  apply DataCubeGeneric_pairs in H as (ps & s & Hps & Hrun & -> & _).
  pose proof (pairs_visited a ps Hg Hc Hps) as Hall.
  rewrite Forall_forall in Hall. cbn.
  refine (proj2 (run_pairs_invariant dcReplace
            (λ t, dimensions (ag_data t) = dimensions (g_data a) ∧
                  data (ag_data t) !! o = data (g_data a) !! o)
            ps _ s _ _ Hrun)); [|done].
  intros p t t' Hp [Hd Hcell] Hv.
  apply visit_pair_effect in Hv
    as (val1 & val2 & v1 & v2 & _ & Hp2 & _ & Hl2 & ->). cbn.
  split; [done|]. rewrite list_lookup_insert_ne; [done|]. intros <-.
  destruct (Hall p Hp) as (_ & _ & o' & cm & Ho' & Hload & Hguard).
  rewrite (getptr3_dims _ (g_cm a)) in Hp2 by congruence.
  assert (o' = val2) as -> by congruence.
  apply load_lookup in Hload as [_ Hload].
  assert (cm = 0) as -> by congruence.
  by rewrite Hll in Hguard.
Qed.

(** The fourth source cell of [halves] has child mask 0. *)
Lemma replace_spares_masked_cells_witness :
  ∃ a', Py_DataCubeReplace halves = Some (a', Ok 7) ∧
    data (g_data a') !! 3%nat = Some 40%float ∧
    data (g_data a') !! 2%nat = Some 3%float.
Proof.
  eexists. split; [vm_compute; reflexivity|]. split; [|reflexivity].
  rewrite (replace_spares_masked_cells halves _ 7); reflexivity.
Defined.

(** What a run of refine visits leaves in a cube cell: the value of the
    source cell of the last pair on that cell, or what the cell held when
    no pair is on it. *)
Lemma refine_run_paints a ps : ∀ s s',
  run_pairs dcRefine ps s = Some s' →
  ag_data s = g_data a → dimensions (ac_data s) = dimensions (c_data a) →
  ∀ o,
    (∃ ps1 p ps2 og v, ps = ps1 ++ p :: ps2 ∧
       cube_offset a p = Some (Z.of_nat o) ∧
       (∀ q, q ∈ ps2 → cube_offset a q ≠ Some (Z.of_nat o)) ∧
       grid_offset a p = Some og ∧ load (g_data a) og = Some v ∧
       data (ac_data s') !! o = Some v)
    ∨ ((∀ q, q ∈ ps → cube_offset a q ≠ Some (Z.of_nat o)) ∧
       data (ac_data s') !! o = data (ac_data s) !! o).
Proof.
  induction ps as [|p ps IH]; intros s s' H Hg Hd o; simpl in H.
  - simplify_eq. right. split; [|done]. intros q Hq. by apply elem_of_nil in Hq.
  - destruct (visit_pair dcRefine p s) as [s1|] eqn:Hv; [|done]. simpl in H.
    pose proof Hv as (val1 & val2 & v1 & v2 & Hp1 & Hp2 & Hl1 & Hl2 & _)
      %visit_pair_effect.
    unfold visit_pair in Hv.
    destruct (visit_rules s _ _ _ _ _ _ val1 val2 v1 v2 Hp1 Hp2 Hl1 Hl2)
      as [Hs _]. rewrite Hs in Hv. simplify_eq.
    rewrite (getptr3_dims _ (c_data a)) in Hp1 by done. rewrite Hg in Hp2, Hl2.
    destruct (IH _ s' H Hg Hd o)
      as [(ps1 & q & ps2 & og & v & -> & Hq & Hlast & Hog & Hv & Hcell)
         |[Hnone Hcell]].
    + left. exists (p :: ps1), q, ps2, og, v. done.
    + cbn in Hcell. apply load_lookup in Hl1 as [Hpos Hl1].
      destruct (decide (val1 = Z.of_nat o)) as [->|Hne].
      * left. exists [], p, ps, val2, v2. split; [done|]. split; [done|].
        split; [done|]. split; [done|]. split; [done|].
        rewrite Hcell, Nat2Z.id. apply list_lookup_insert_eq.
        rewrite Nat2Z.id in Hl1. by eapply lookup_lt_Some.
      * right. split.
        -- intros q [->|Hq]%elem_of_cons; [|by apply Hnone].
           unfold cube_offset. rewrite Hp1. congruence.
        -- rewrite Hcell. apply list_lookup_insert_ne. lia.
Qed.

(** X12: the refine rule paints the cube with the source data.  After a
    refine call a cube cell on which at least one visited pair lies holds
    the value of the source cell of the last such pair, in the order of the
    loops; a cube cell on which no pair lies holds what it held; the source
    data are as before. *)
Theorem refine_paints_the_cube a a1 n :
  Py_DataCubeRefine a = Some (a1, Ok n) →
  ∃ ps, pairs a = Some ps ∧ Forall (visited a) ps ∧ g_data a1 = g_data a ∧
    ∀ o,
      (∃ ps1 p ps2 og v, ps = ps1 ++ p :: ps2 ∧
         cube_offset a p = Some (Z.of_nat o) ∧
         (∀ q, q ∈ ps2 → cube_offset a q ≠ Some (Z.of_nat o)) ∧
         grid_offset a p = Some og ∧ load (g_data a) og = Some v ∧
         data (c_data a1) !! o = Some v)
      ∨ ((∀ q, q ∈ ps → cube_offset a q ≠ Some (Z.of_nat o)) ∧
         data (c_data a1) !! o = data (c_data a) !! o).
Proof.
  unfold Py_DataCubeRefine. intros H.
  pose proof (DataCubeGeneric_checked a _ a1 n H) as (Hg & Hc & _).
  apply DataCubeGeneric_pairs in H as (ps & s & Hps & Hrun & -> & _).
  exists ps. split; [done|]. split; [by apply pairs_visited|]. split.
  - apply (run_refine_keeps_grid ps _ s Hrun).
  - intros o. by apply (refine_run_paints a ps _ s Hrun).
Qed.

(** Both source cells of [two_on_one] lie on the only cube cell: it ends
    with the value 20 of the second. *)
Lemma refine_paints_the_cube_witness :
  ∃ a1, Py_DataCubeRefine two_on_one = Some (a1, Ok 2) ∧
    data (c_data a1) !! 0%nat = Some 20%float.
Proof.
  eexists. split; [vm_compute; reflexivity|].
  destruct (refine_paints_the_cube two_on_one _ 2
              ltac:(vm_compute; reflexivity)) as (ps & Hps & _ & _ & Hcells).
  destruct (Hcells 0%nat)
    as [(ps1 & p & ps2 & og & v & _ & _ & _ & _ & _ & Hcell)|[_ Hcell]];
    cbn in Hcell; cbn; reflexivity.
Defined.

Lemma replace_run_paints a ps : ∀ s s',
  run_pairs dcReplace ps s = Some s' →
  ac_data s = c_data a → dimensions (ag_data s) = dimensions (g_data a) →
  ∀ o,
    (∃ ps1 p ps2 oc v, ps = ps1 ++ p :: ps2 ∧
       grid_offset a p = Some (Z.of_nat o) ∧
       (∀ q, q ∈ ps2 → grid_offset a q ≠ Some (Z.of_nat o)) ∧
       cube_offset a p = Some oc ∧ load (c_data a) oc = Some v ∧
       data (ag_data s') !! o = Some v)
    ∨ ((∀ q, q ∈ ps → grid_offset a q ≠ Some (Z.of_nat o)) ∧
       data (ag_data s') !! o = data (ag_data s) !! o).
Proof.
  induction ps as [|p ps IH]; intros s s' H Hc Hd o; simpl in H.
  - simplify_eq. right. split; [|done]. intros q Hq. by apply elem_of_nil in Hq.
  - destruct (visit_pair dcReplace p s) as [s1|] eqn:Hv; [|done]. simpl in H.
    pose proof Hv as (val1 & val2 & v1 & v2 & Hp1 & Hp2 & Hl1 & Hl2 & _)
      %visit_pair_effect.
    unfold visit_pair in Hv.
    destruct (visit_rules s _ _ _ _ _ _ val1 val2 v1 v2 Hp1 Hp2 Hl1 Hl2)
      as [_ Hs]. rewrite Hs in Hv. simplify_eq.
    rewrite (getptr3_dims _ (g_data a)) in Hp2 by done. rewrite Hc in Hp1, Hl1.
    destruct (IH _ s' H Hc Hd o)
      as [(ps1 & q & ps2 & oc & v & -> & Hq & Hlast & Hoc & Hv & Hcell)
         |[Hnone Hcell]].
    + left. exists (p :: ps1), q, ps2, oc, v. done.
    + cbn in Hcell. apply load_lookup in Hl2 as [Hpos Hl2].
      destruct (decide (val2 = Z.of_nat o)) as [->|Hne].
      * left. exists [], p, ps, val1, v1. split; [done|]. split; [done|].
        split; [done|]. split; [done|]. split; [done|].
        rewrite Hcell, Nat2Z.id. apply list_lookup_insert_eq.
        rewrite Nat2Z.id in Hl2. by eapply lookup_lt_Some.
      * right. split.
        -- intros q [->|Hq]%elem_of_cons; [|by apply Hnone].
           unfold grid_offset. rewrite Hp2. congruence.
        -- rewrite Hcell. apply list_lookup_insert_ne. lia.
Qed.

(** X13: the replace rule writes the cube back onto the source grid.
    After a replace call a source cell that was visited holds the value of
    the cube cell of its last pair; a source cell that was not visited,
    because it is left out by the child mask or lies outside the cube,
    holds what it held; the cube data are as before. *)
Theorem replace_writes_back a a1 n :
  Py_DataCubeReplace a = Some (a1, Ok n) →
  ∃ ps, pairs a = Some ps ∧ Forall (visited a) ps ∧ c_data a1 = c_data a ∧
    ∀ o,
      (∃ ps1 p ps2 oc v, ps = ps1 ++ p :: ps2 ∧
         grid_offset a p = Some (Z.of_nat o) ∧
         (∀ q, q ∈ ps2 → grid_offset a q ≠ Some (Z.of_nat o)) ∧
         cube_offset a p = Some oc ∧ load (c_data a) oc = Some v ∧
         data (g_data a1) !! o = Some v)
      ∨ ((∀ q, q ∈ ps → grid_offset a q ≠ Some (Z.of_nat o)) ∧
         data (g_data a1) !! o = data (g_data a) !! o).
Proof.
  unfold Py_DataCubeReplace. intros H.
  pose proof (DataCubeGeneric_checked a _ a1 n H) as (Hg & Hc & _).
  apply DataCubeGeneric_pairs in H as (ps & s & Hps & Hrun & -> & _).
  exists ps. split; [done|]. split; [by apply pairs_visited|]. split.
  - apply (run_replace_keeps_cube ps _ s Hrun).
  - intros o. by apply (replace_run_paints a ps _ s Hrun).
Qed.

Lemma replace_writes_back_witness :
  ∃ a1, Py_DataCubeReplace two_on_one = Some (a1, Ok 2) ∧
    c_data a1 = c_data two_on_one ∧
    data (g_data a1) = [3%float; 3%float].
Proof.
  eexists. split; [vm_compute; reflexivity|].
  destruct (replace_writes_back two_on_one _ 2
              ltac:(vm_compute; reflexivity)) as (ps & _ & _ & Hc & _).
  split; [exact Hc|reflexivity].
Defined.

End cube_painting.

Section cube_exact.
Import NumPy DataCube.

Lemma shaped_lengths a d0 d1 d2 :
  shaped a d0 d1 d2 →
  length (data (g_data a)) = (d0 * d1 * d2)%nat ∧
  length (data (c_data a)) = (d0 * d1 * d2)%nat.
Proof.
  intros (Hg & Hc & _ & Hgok & Hcok & _).
  unfold array_ok, PyArray_SIZE in Hgok, Hcok.
  rewrite Hg in Hgok. rewrite Hc in Hcok. cbn in Hgok, Hcok. lia.
Qed.

(** X14: on a grid where every source cell meets the cube cell of its own
    index, a replace call that follows a refine call changes nothing: the
    cube cells the refine call has painted hold the values of their source
    cells, which the replace call writes back onto themselves.  The two
    calls return the same number. *)
Theorem exact_replace_after_refine a d0 d1 d2 :
  shaped a d0 d1 d2 → exact a →
  ∃ a1 n,
    Py_DataCubeRefine a = Some (a1, Ok n) ∧
    Py_DataCubeReplace a1 = Some (a1, Ok n) ∧
    g_data a1 = g_data a.
Proof.
  intros Hsh Hex. pose proof Hsh as (Hg & Hc & _).
  destruct (shaped_lengths a d0 d1 d2 Hsh) as [Hlg Hlc].
  destruct (exact_pass dcRefine a d0 d1 d2 Hsh Hex) as (s1 & Hrun1 & HI1 & Hp1).
  pose proof HI1 as (Hg1 & Hc1 & Hlg1 & Hlc1).
  set (a1 := set_data a (ag_data s1) (ac_data s1)) in *.
  assert (shaped a1 d0 d1 d2) as Hsh1 by (by apply shaped_set_data).
  assert (exact a1) as Hex1 by (apply exact_set_data; [congruence..|done]).
  destruct (exact_pass dcReplace a1 d0 d1 d2 Hsh1 Hex1)
    as (s2 & Hrun2 & HI2 & Hp2).
  pose proof HI2 as (Hg2 & Hc2 & Hlg2 & Hlc2).
  assert (ag_data s1 = g_data a) as Hsame.
  { apply ndarray_eq; [congruence|]. apply list_eq. intros o.
    destruct (data (g_data a) !! o) as [vg|] eqn:Hvg.
    - destruct (lookup_lt_is_Some_2 (data (c_data a)) o) as [vc Hvc].
      { apply lookup_lt_Some in Hvg. lia. }
      destruct (Hp1 o vc vg Hvc Hvg) as [_ Hg1o]. rewrite Hg1o.
      by destruct (touched a 0 (d0 * d1 * d2) o).
    - apply lookup_ge_None in Hvg. apply lookup_ge_None. lia. }
  assert (ag_data s2 = ag_data s1 ∧ ac_data s2 = ac_data s1) as [Eg Ec].
  { split; (apply ndarray_eq; [congruence|]); apply list_eq; intros o.
    - destruct (data (g_data a) !! o) as [vg|] eqn:Hvg.
      + destruct (lookup_lt_is_Some_2 (data (c_data a)) o) as [vc Hvc].
        { apply lookup_lt_Some in Hvg. lia. }
        destruct (Hp1 o vc vg Hvc Hvg) as [Hc1o Hg1o].
        destruct (Hp2 o _ _ Hc1o Hg1o) as [_ Hg2o].
        rewrite Hg2o, Hg1o. change (touched a1) with (touched a).
        by destruct (touched a 0 (d0 * d1 * d2) o).
      + apply lookup_ge_None in Hvg.
        rewrite (proj2 (lookup_ge_None _ _)), (proj2 (lookup_ge_None _ _)); [done|lia..].
    - destruct (data (g_data a) !! o) as [vg|] eqn:Hvg.
      + destruct (lookup_lt_is_Some_2 (data (c_data a)) o) as [vc Hvc].
        { apply lookup_lt_Some in Hvg. lia. }
        destruct (Hp1 o vc vg Hvc Hvg) as [Hc1o Hg1o].
        destruct (Hp2 o _ _ Hc1o Hg1o) as [Hc2o _].
        rewrite Hc2o, Hc1o. change (touched a1) with (touched a).
        by destruct (touched a 0 (d0 * d1 * d2) o).
      + apply lookup_ge_None in Hvg.
        rewrite (proj2 (lookup_ge_None _ _)), (proj2 (lookup_ge_None _ _)); [done|lia..]. }
  assert (total s2 = total s1) as Et.
  { unfold Py_DataCubeRefine, Py_DataCubeReplace in *.
    apply DataCubeGeneric_pairs in Hrun1 as (ps1 & t1 & Hps1 & Hr1 & _ & ->).
    apply DataCubeGeneric_pairs in Hrun2 as (ps2 & t2 & Hps2 & Hr2 & _ & ->).
    unfold a1 in Hps2. rewrite pairs_set_data in Hps2 by congruence.
    assert (ps2 = ps1) as -> by congruence.
    rewrite (run_pairs_total _ _ _ _ Hr1 eq_refl).
    by rewrite (run_pairs_total _ _ _ _ Hr2 eq_refl). }
  exists a1, (total s1). split; [exact Hrun1|]. split; [|done].
  unfold Py_DataCubeReplace in *. rewrite Hrun2, Eg, Ec, Et. done.
Qed.

Lemma exact_replace_after_refine_witness :
  ∃ a1 n,
    Py_DataCubeRefine halves = Some (a1, Ok n) ∧
    Py_DataCubeReplace a1 = Some (a1, Ok n) ∧
    g_data a1 = g_data halves.
Proof.
  apply (exact_replace_after_refine halves 2 2 2).
  - by repeat split.
  - intros [|[|[|axis]]] d i Hd Hi; cbn in Hd; simplify_eq;
      (destruct i as [|[|i]]; [reflexivity|reflexivity|lia]).
Defined.

End cube_exact.

(** ** Further properties of the histogram accumulator *)

Section histogram.
Import NumPy Bin2DProfile.

Lemma Py_Bin2DProfile_accepts a :
  accepted a →
  Py_Bin2DProfile a = s ← kernel a; Some (set_results a s, Ok 1).
Proof.
  intros (H1&H2&H3&H4&H5&H6&H7&H8&H9&H10&H11&H12&H13&H14).
  unfold Py_Bin2DProfile.
  rewrite H1, H2, H3, H4, H5, H6, H7, H8, H9, H10, H11, H12, H13, H14.
  rewrite !Nat.eqb_refl, !bool_decide_eq_true_2 by done. done.
Qed.

Lemma args_results_eta a :
  set_results a (mkState (wresult a) (bresult a) (used a)) = a.
Proof. by destruct a. Qed.

(** X15: a call without samples passes the shape checks like any other,
    runs no turn of the loop, hands the three accumulators back as they
    were and returns 1, the constant of line 370. *)
Theorem histogram_without_samples a :
  accepted a → dimensions (bins_x a) = [0%nat] →
  Py_Bin2DProfile a = Some (a, Ok 1).
Proof.
  intros Hacc Hd. rewrite Py_Bin2DProfile_accepts by done.
  unfold kernel. rewrite Hd. cbn. by rewrite args_results_eta.
Qed.

Lemma histogram_without_samples_witness :
  Py_Bin2DProfile no_samples = Some (no_samples, Ok 1).
Proof.
  apply histogram_without_samples; [|reflexivity].
  repeat split; reflexivity.
Defined.

(** *** The bytes of a buffer *)

Lemma length_le_bytes n z : length (Double.le_bytes n z) = n.
Proof. revert z. induction n as [|n IH]; intros z; cbn; [done|]. by rewrite IH. Qed.

(** Byte [n] of a buffer of 8-byte elements is byte [n mod 8] of element
    [n / 8]. *)
Lemma lookup_bind_blocks {A B} (f : A → list B) (l : list A) : ∀ n,
  (∀ x, length (f x) = 8%nat) →
  (l ≫= f) !! n = x ← l !! (n / 8)%nat; f x !! (n mod 8)%nat.
Proof.
  induction l as [|x l IH]; intros n Hf; [done|].
  rewrite bind_cons. destruct (decide (n < 8)%nat) as [Hlt|Hge].
  - rewrite lookup_app_l by (rewrite Hf; lia).
    rewrite Nat.div_small, Nat.mod_small by done. done.
  - rewrite lookup_app_r by (rewrite Hf; lia). rewrite Hf, IH by done.
    assert (n / 8 = S ((n - 8) / 8))%nat as ->.
    { replace n with ((n - 8) + 1 * 8)%nat at 1 by lia.
      rewrite Nat.div_add by lia. lia. }
    assert (n mod 8 = (n - 8) mod 8)%nat as ->.
    { replace n with ((n - 8) + 1 * 8)%nat at 1 by lia.
      by rewrite Nat.Div0.mod_add. }
    done.
Qed.

Lemma data_char_agree {A} (f : A → list Z) (l l' : list A) n N :
  (∀ x, length (f x) = 8%nat) →
  (∀ k, (8 * k < N)%nat → l !! k = l' !! k) → (n < N)%nat →
  data_char (l ≫= f) n = data_char (l' ≫= f) n.
Proof.
  intros Hf Hhead Hn. unfold data_char.
  rewrite !lookup_bind_blocks by done. rewrite Hhead; [done|].
  pose proof (Nat.Div0.mul_div_le n 8). lia.
Qed.

(** A turn of the loop reads its sample from the first bytes of the four
    input buffers. *)
Lemma bin_body_agree a b N n s :
  (n < N)%nat →
  same_head N (bins_x a) (bins_x b) → same_head N (bins_y a) (bins_y b) →
  same_head N (wsource a) (wsource b) → same_head N (bsource a) (bsource b) →
  bin_body a n s = bin_body b n s.
Proof.
  intros Hn [_ Hx] [_ Hy] [_ Hw] [_ Hb]. unfold bin_body.
  unfold Double.bytes_of_int64s, Double.bytes_of_doubles.
  rewrite (data_char_agree _ (data (bins_x a)) (data (bins_x b)) n N);
    [|intros; apply length_le_bytes|done|done].
  rewrite (data_char_agree _ (data (bins_y a)) (data (bins_y b)) n N);
    [|intros; apply length_le_bytes|done|done].
  rewrite (data_char_agree _ (data (wsource a)) (data (wsource b)) n N);
    [|intros; apply length_le_bytes|done|done].
  rewrite (data_char_agree _ (data (bsource a)) (data (bsource b)) n N);
    [|intros; apply length_le_bytes|done|done].
  done.
Qed.

Lemma for_loop_ext_range {St} (f g : nat → St → option St) hi n : ∀ i s,
  (∀ k t, (k < hi)%nat → f k t = g k t) → (i + n ≤ hi)%nat →
  for_loop f i n s = for_loop g i n s.
Proof.
  induction n as [|n IH]; intros i s Hfg Hhi; [done|].
  cbn [for_loop]. rewrite Hfg by lia.
  destruct (g i s) as [s1|]; [|done]. cbn. apply IH; [done|lia].
Qed.

(** X16: the loop takes sample [n] from byte [n] of each input buffer
    ([bins_x->data[n]] and the like index a [char *]), so a call on [N]
    samples reads the first [N] bytes of each input and nothing else: two
    calls whose inputs agree on the elements of index below [N / 8],
    rounded up, and that are given the same accumulators hand back the same
    accumulators and the same result, whatever the other bin indices,
    weights and values are. *)
Theorem histogram_reads_first_bytes a b N :
  dimensions (bins_x a) !! 0%nat = Some N →
  same_head N (bins_x a) (bins_x b) → same_head N (bins_y a) (bins_y b) →
  same_head N (wsource a) (wsource b) → same_head N (bsource a) (bsource b) →
  wresult b = wresult a → bresult b = bresult a → used b = used a →
  outcome (Py_Bin2DProfile b) = outcome (Py_Bin2DProfile a).
Proof.
  intros HN Hx Hy Hw Hb Ewr Ebr Eus.
  pose proof Hx as [Hxd _]. pose proof Hy as [Hyd _].
  pose proof Hw as [Hwd _]. pose proof Hb as [Hbd _].
  assert (kernel b = kernel a) as Hk.
  { unfold kernel. rewrite <- Hxd, HN, Ewr, Ebr, Eus. cbn [mbind option_bind].
    apply (for_loop_ext_range _ _ N); [|lia].
    intros k t Hk. symmetry. by apply bin_body_agree with N. }
  unfold Py_Bin2DProfile, nd, PyArray_SIZE.
  rewrite <- Hxd, <- Hyd, <- Hwd, <- Hbd, Ewr, Ebr, Eus, Hk.
  repeat (match goal with
          | |- context [if ?c then _ else _] =>
              destruct c; [cbn; first [done|by rewrite Ewr, Ebr, Eus]|]
          end).
  by destruct (kernel a) as [s|].
Qed.

(** The second samples of [two_samples] and [two_samples_moved] differ in
    bin, weight and value. *)
Lemma histogram_reads_first_bytes_witness :
  outcome (Py_Bin2DProfile two_samples_moved)
  = outcome (Py_Bin2DProfile two_samples).
Proof.
  apply (histogram_reads_first_bytes two_samples two_samples_moved 2);
    try reflexivity;
    (split; [reflexivity|]; intros [|k] Hk; [reflexivity|lia]).
Defined.

End histogram.

Section histogram_flags.
Import NumPy Bin2DProfile.

Lemma getptr2_dims {A B} (arr1 : ndarray A) (arr2 : ndarray B) i j :
  dimensions arr1 = dimensions arr2 →
  PyArray_GETPTR2 arr1 i j = PyArray_GETPTR2 arr2 i j.
Proof. unfold PyArray_GETPTR2. by intros ->. Qed.

Lemma update2_effect arr i j f arr' :
  update2 arr i j f = Some arr' →
  ∃ p v, PyArray_GETPTR2 arr i j = Some p ∧
    data arr !! Z.to_nat p = Some v ∧
    arr' = mkArray (dimensions arr) (<[Z.to_nat p := f v]> (data arr)).
Proof.
  unfold update2. intros H.
  destruct (PyArray_GETPTR2 arr i j) as [p|]; [|done]. cbn in H.
  destruct (load arr p) as [v|] eqn:Hl; [|done]. cbn in H.
  rewrite (store_over _ _ v _ Hl) in H. simplify_eq.
  apply load_lookup in Hl as [_ Hl]. by exists p, v.
Qed.

(** X17: a call that returns has flagged in [used] every cell of the two
    sums it has added to.  On accumulators of one shape, a cell of [used]
    holds 1.0 after the call, or the cell is as before in all three
    accumulators; the accumulators keep their shapes and sizes and the
    four inputs are not written. *)
Theorem histogram_flags_what_it_adds a a' res :
  Py_Bin2DProfile a = Some (a', res) →
  dimensions (bresult a) = dimensions (wresult a) →
  dimensions (used a) = dimensions (wresult a) →
  bins_x a' = bins_x a ∧ bins_y a' = bins_y a ∧
  wsource a' = wsource a ∧ bsource a' = bsource a ∧
  dimensions (wresult a') = dimensions (wresult a) ∧
  dimensions (bresult a') = dimensions (bresult a) ∧
  dimensions (used a') = dimensions (used a) ∧
  length (data (wresult a')) = length (data (wresult a)) ∧
  length (data (bresult a')) = length (data (bresult a)) ∧
  length (data (used a')) = length (data (used a)) ∧
  ∀ o, data (used a') !! o = Some 1%float ∨
       (data (used a') !! o = data (used a) !! o ∧
        data (wresult a') !! o = data (wresult a) !! o ∧
        data (bresult a') !! o = data (bresult a) !! o).
Proof.
  intros H Hbd Hud. unfold Py_Bin2DProfile in H.
  repeat (match type of H with
          | (if ?c then _ else _) = _ =>
              destruct c; [cbn in H; simplify_eq; repeat split; by right|]
          end).
  destruct (kernel a) as [s|] eqn:Hk; [|done]. cbn in H. simplify_eq. cbn.
  unfold kernel in Hk.
  destruct (dimensions (bins_x a) !! 0%nat) as [N|]; [|done]. cbn in Hk.
  set (P := λ t : state,
    dimensions (a_wresult t) = dimensions (wresult a) ∧
    dimensions (a_bresult t) = dimensions (bresult a) ∧
    dimensions (a_used t) = dimensions (used a) ∧
    length (data (a_wresult t)) = length (data (wresult a)) ∧
    length (data (a_bresult t)) = length (data (bresult a)) ∧
    length (data (a_used t)) = length (data (used a)) ∧
    ∀ o, data (a_used t) !! o = Some 1%float ∨
         (data (a_used t) !! o = data (used a) !! o ∧
          data (a_wresult t) !! o = data (wresult a) !! o ∧
          data (a_bresult t) !! o = data (bresult a) !! o)).
  enough (P s) as (?&?&?&?&?&?&?) by done.
  apply (for_loop_invariant P (bin_body a)) with N 0%nat
    (mkState (wresult a) (bresult a) (used a)); [| |done].
  - intros n t t' (Hwd & Hbd' & Hud' & Hwl & Hbl & Hul & Hcells) Hbody.
    unfold bin_body in Hbody.
    destruct (data_char (Double.bytes_of_int64s (data (bins_x a))) n)
      as [i|]; [|done]. cbn in Hbody.
    destruct (data_char (Double.bytes_of_int64s (data (bins_y a))) n)
      as [j|]; [|done]. cbn in Hbody.
    destruct (data_char (Double.bytes_of_doubles (data (wsource a))) n)
      as [w|]; [|done]. cbn in Hbody.
    destruct (data_char (Double.bytes_of_doubles (data (bsource a))) n)
      as [b|]; [|done]. cbn in Hbody.
    destruct (update2 (a_wresult t) i j _) as [wr|] eqn:Hwr; [|done].
    cbn in Hbody.
    destruct (update2 (a_bresult t) i j _) as [br|] eqn:Hbr; [|done].
    cbn in Hbody.
    destruct (update2 (a_used t) i j _) as [us|] eqn:Hus; [|done].
    cbn in Hbody. simplify_eq.
    apply update2_effect in Hwr as (pw & vw & Hpw & Hvw & ->).
    apply update2_effect in Hbr as (pb & vb & Hpb & Hvb & ->).
    apply update2_effect in Hus as (pu & vu & Hpu & Hvu & ->).
    rewrite (getptr2_dims _ (a_wresult t)) in Hpb by congruence.
    rewrite (getptr2_dims _ (a_wresult t)) in Hpu by congruence.
    assert (pb = pw) as -> by congruence.
    assert (pu = pw) as -> by congruence.
    unfold P. cbn. rewrite !length_insert.
    repeat (split; [done|]). intros o.
    destruct (decide (o = Z.to_nat pw)) as [->|Hne].
    + left. apply list_lookup_insert_eq. by eapply lookup_lt_Some.
    + rewrite !list_lookup_insert_ne by done. apply Hcells.
  - unfold P. cbn. repeat (split; [done|]). intros o. by right.
Qed.

Lemma histogram_flags_what_it_adds_witness :
  ∃ a', Py_Bin2DProfile two_samples = Some (a', Ok 1) ∧
    data (used a') !! 0%nat = Some 1%float ∧
    data (wresult a') !! 3%nat = Some 0%float.
Proof.
  eexists. split; [vm_compute; reflexivity|].
  pose proof (histogram_flags_what_it_adds two_samples _ _
                ltac:(vm_compute; reflexivity) eq_refl eq_refl)
    as (_ & _ & _ & _ & _ & _ & _ & _ & _ & _ & Hcells).
  split; [reflexivity|].
  destruct (Hcells 3%nat) as [Hflag|(_ & Hw & _)]; [discriminate Hflag|].
  exact Hw.
Defined.

End histogram_flags.

(** ** Further properties of the table interpolator *)

Section interpolate_claims.
Import NumPy Interpolate.
Local Open Scope R_scope.




End interpolate_claims.

Section interpolate_edges.
Import NumPy Interpolate.
Local Open Scope R_scope.






End interpolate_edges.

Section interpolate_total.
Import NumPy Interpolate.
Local Open Scope R_scope.











End interpolate_total.

(** ** The module table *)

Section module_table.
Import PointCombine.

(** X22: the initialisation stores the four exception classes one after
    the other under the same name, "error", so the module publishes the
    last one only.  After [initPointCombine] the attribute "error" is
    [Profile2DError] and the five methods are bound to their entry points;
    no name of the module is bound to one of the other three classes
    unless it was before; every other name is as [Py_InitModule] left it.
    Of the five entry points, [Bin2DProfile] alone raises the class that
    "error" names. *)
Theorem module_publishes_last_error base :
  let d := initPointCombine base in
  d !! "error" = Some (Class _profile2DError) ∧
  (∀ name f, (name, f) ∈ _combineMethods → d !! name = Some (Function f)) ∧
  (∀ name e, d !! name = Some (Class e) →
     (name = "error" ∧ e = _profile2DError) ∨ base !! name = Some (Class e)) ∧
  (∀ name, name ≠ "error" → (∀ f, (name, f) ∉ _combineMethods) →
     d !! name = base !! name) ∧
  (∀ f, d !! "error" = Some (Class (raises f)) ↔ f = Bin2DProfile).
Proof.
  cbn zeta. unfold initPointCombine, PyDict_SetItemString, Py_InitModule.
  cbn [foldl _combineMethods fst snd]. unfold dict in *.
  split; [by rewrite lookup_insert_eq|]. split; [|split; [|split]].
  - intros name f Hin. unfold _combineMethods in Hin.
    repeat (apply elem_of_cons in Hin as [Heq|Hin];
            [simplify_eq; by repeat (rewrite lookup_insert_ne by done);
               rewrite lookup_insert_eq|]).
    by apply elem_of_nil in Hin.
  - intros name e Hd.
    destruct (decide (name = "error")) as [->|Hne].
    { rewrite lookup_insert_eq in Hd. simplify_eq. by left. }
    right. repeat (rewrite lookup_insert_ne in Hd by done).
    repeat (match type of Hd with
            | <[?k := _]> _ !! _ = _ =>
                destruct (decide (k = name)) as [<-|];
                [by rewrite lookup_insert_eq in Hd
                |rewrite lookup_insert_ne in Hd by done]
            end).
    done.
  - intros name Hne Hnot.
    repeat (rewrite lookup_insert_ne by done).
    repeat (match goal with
            | |- <[?k := Function ?f]> _ !! _ = _ =>
                rewrite lookup_insert_ne;
                [|intros <-; apply (Hnot f); unfold _combineMethods;
                  set_solver]
            end).
    done.
  - intros f. rewrite lookup_insert_eq. split.
    + intros H. by destruct f.
    + by intros ->.
Qed.

End module_table.
